(** * BOM Compare file generator: a shallow embedding and its properties

    The development follows the Python package [bomgen]:
    - [Py]         the fragment of Python's data model the package relies on;
    - [RandomData] [random_data.py]: the part-number allocator and the random
                   row generator;
    - [Models]     [models.py]: [BOMItem], [BOM], [BOMComparison];
    - [Cli]        [cli.py]: the schema constants and [append_row_by_headers];
    - [Ui]         [ui.py]: the Streamlit page [main], from the widget values
                   to the rows appended to the output sheet.

    Integers are [Z] (Python integers are unbounded), dictionaries are
    [gmap string _], sets are [gset string].  A [string] holds the code
    points of a Python [str], one [ascii] per code point: the strings
    covered are those whose code points are below 256.  The module-level
    counter and the pseudo-random source are threaded explicitly through a
    small state monad. *)

From Stdlib Require Import ZArith String Ascii List QArith Lia.
From stdpp Require Import gmap strings list fin_maps.

Open Scope Z_scope.
Open Scope string_scope.

(* ===================================================================== *)
(** ** Python values                                                      *)
(* ===================================================================== *)

Module Py.

(** The scalars that end up in a row.  A float is represented by the
    rational number it denotes. *)
Inductive value : Type :=
| VNone
| VStr (s : string)
| VInt (z : Z)
| VFloat (q : Q).

(** Operations on floats whose result depends on the binary representation
    are not defined here; they are the fields of this interface. *)
Class FloatModel : Type := {
  round2 : Q → Q;                (* round(x, 2) *)
  float_repr : Q → string;       (* str(x) for a float x *)
  uniform_of : Q → Q → nat → Q;  (* random.uniform(a, b), from one draw *)
  unit_of : nat → Q              (* random.random(), from one draw *)
}.

(** [bool(v)] *)
Definition truthy (v : value) : bool :=
  match v with
  | VNone => false
  | VStr s => negb (String.eqb s "")
  | VInt z => negb (z =? 0)%Z
  | VFloat q => negb (Qeq_bool q 0)
  end.

(** [a == b] *)
Definition py_eq (a b : value) : bool :=
  match a, b with
  | VNone, VNone => true
  | VStr s, VStr t => String.eqb s t
  | VInt x, VInt y => (x =? y)%Z
  | VInt x, VFloat q => Qeq_bool (inject_Z x) q
  | VFloat q, VInt x => Qeq_bool q (inject_Z x)
  | VFloat p, VFloat q => Qeq_bool p q
  | _, _ => false
  end.

(** [a or b] *)
Definition py_or (a b : value) : value := if truthy a then a else b.

(** [v in (None, "", [])]: no scalar equals the empty list. *)
Definition in_none_empty (v : value) : bool :=
  py_eq v VNone || py_eq v (VStr "") || false.

(** [v in ("M", "F")] *)
Definition in_M_F (v : value) : bool :=
  py_eq v (VStr "M") || py_eq v (VStr "F").

(** [not l] for a list *)
Definition is_empty {A} (l : list A) : bool :=
  match l with [] => true | _ => false end.

(** [d.get(k)], with [None] for an absent key. *)
Definition get (k : string) (d : gmap string value) : value :=
  default VNone (d !! k).

(** [{h: None for h in headers}] *)
Definition none_row (headers : list string) : gmap string value :=
  foldl (fun d h => <[h := VNone]> d) ∅ headers.

(** *** Decimal text *)

Definition digit_char (d : Z) : ascii := ascii_of_N (Z.to_N (48 + d)).

Fixpoint digits_acc (fuel : nat) (n : Z) (acc : string) : string :=
  let acc' := String (digit_char (n mod 10)) acc in
  match fuel with
  | O => acc'
  | S fuel' => if (n <? 10)%Z then acc' else digits_acc fuel' (n / 10) acc'
  end.

(** Decimal digits of [n >= 0]; a number has no more decimal digits
    than binary ones. *)
Definition digits (n : Z) : string := digits_acc (Z.to_nat (Z.log2 n)) n "".

(** [str(z)] for an integer *)
Definition str_int (z : Z) : string :=
  if (z <? 0)%Z then String "-" (digits (- z)) else digits z.

Fixpoint zeros (k : nat) : string :=
  match k with O => "" | S k' => String "0" (zeros k') end.

(** [s.zfill(width)]: zeros go after a leading sign. *)
Definition zfill (width : nat) (s : string) : string :=
  let pad := zeros (width - String.length s) in
  match s with
  | String c rest =>
      if (Ascii.eqb c "-" || Ascii.eqb c "+")%bool
      then String c (pad +:+ rest) else pad +:+ s
  | EmptyString => pad
  end.

(** [f"{z:0{width}d}"] *)
Definition format_0d (width : nat) (z : Z) : string := zfill width (str_int z).

(** [chr(n)] for [0 <= n < 256], the code points a [string] can hold.  From
    256 on Python's result has no counterpart here (and from [0x110000] on
    [chr] raises): a statement that goes through [chr] says for which
    arguments it holds. *)
Definition chr (n : Z) : string := String (ascii_of_N (Z.to_N n)) "".

(** [s[:n]] for [n >= 0] *)
Definition str_take (n : nat) (s : string) : string := String.substring 0 n s.

(** [s.strip()]: white space is removed at both ends.  Below 256 the white
    space of [str] is U+0009 to U+000D, U+001C to U+0020, U+0085 and
    U+00A0. *)
Definition is_space (c : ascii) : bool :=
  let n := N_of_ascii c in
  ((9 <=? n)%N && (n <=? 13)%N) || ((28 <=? n)%N && (n <=? 32)%N)
  || (n =? 133)%N || (n =? 160)%N.

Fixpoint lstrip (s : string) : string :=
  match s with
  | String c rest => if is_space c then lstrip rest else s
  | EmptyString => EmptyString
  end.

Fixpoint rstrip (s : string) : string :=
  match s with
  | String c rest =>
      match rstrip rest with
      | EmptyString => if is_space c then EmptyString else String c EmptyString
      | r => String c r
      end
  | EmptyString => EmptyString
  end.

Definition strip (s : string) : string := rstrip (lstrip s).

(** [str(v)] *)
Definition py_str `{FloatModel} (v : value) : string :=
  match v with
  | VNone => "None"
  | VStr s => s
  | VInt z => str_int z
  | VFloat q => float_repr q
  end.

End Py.
Export Py.

Abbreviation row := (gmap string value).

(* ===================================================================== *)
(** ** Effects: the global counter, the random source, exceptions         *)
(* ===================================================================== *)

Module Eff.

(** The process-wide state.  [part_number_counter] is the module global
    [_part_number_counter]; the pseudo-random generator is a tape of
    naturals of which every primitive of [random] consumes one entry. *)
Record world : Type := World {
  part_number_counter : Z;
  tape : nat → nat;
  cursor : nat
}.

Inductive exn : Type :=
| ZeroDivisionError
| KeyError (key : string)
| AttributeError
| ValueError (missing : list string).

(** A run ends with a value and a new state, with a Python exception, or
    has not left a [while] loop within the iterations it was given. *)
Inductive outcome (A : Type) : Type :=
| Done (a : A) (w : world)
| Raised (e : exn)
| Spinning.
Arguments Done {A} a w.
Arguments Raised {A} e.
Arguments Spinning {A}.

Definition M (A : Type) : Type := world → outcome A.

Definition ret {A} (a : A) : M A := fun w => Done a w.

Definition bind {A B} (m : M A) (k : A → M B) : M B := fun w =>
  match m w with
  | Done a w' => k a w'
  | Raised e => Raised e
  | Spinning => Spinning
  end.

Definition raise {A} (e : exn) : M A := fun _ => Raised e.
Definition spin {A} : M A := fun _ => Spinning.

Declare Scope eff_scope.
Delimit Scope eff_scope with eff.
Notation "'let*' x := m 'in' k" := (bind m (fun x => k))
  (at level 10, x pattern, m at level 100, k at level 200) : eff_scope.
Notation "m ;;; k" := (bind m (fun _ => k))
  (at level 100, k at level 200, right associativity) : eff_scope.
Open Scope eff_scope.

Definition read_counter : M Z := fun w => Done (part_number_counter w) w.

Definition write_counter (c : Z) : M unit := fun w =>
  Done tt {| part_number_counter := c; tape := tape w; cursor := cursor w |}.

(** One entry of the tape. *)
Definition draw : M nat := fun w =>
  Done (tape w (cursor w))
       {| part_number_counter := part_number_counter w;
          tape := tape w; cursor := S (cursor w) |}.

(** [random.randint(a, b)] *)
Definition randint (a b : Z) : M Z :=
  let* k := draw in ret (a + Z.of_nat k mod (b - a + 1)).

(** [random.choice(l)] on a non-empty list; [d] is never returned. *)
Definition choice {A} (d : A) (l : list A) : M A :=
  let* k := draw in ret (nth (k mod length l)%nat l d).

(** ["".join(random.choices(alphabet, k=k))] *)
Fixpoint choices (alphabet : list ascii) (k : nat) : M string :=
  match k with
  | O => ret ""
  | S k' =>
      let* c := choice "A"%char alphabet in
      let* rest := choices alphabet k' in
      ret (String c rest)
  end.

(** [random.uniform(a, b)] and [random.random()] *)
Definition uniform `{FloatModel} (a b : Q) : M Q :=
  let* k := draw in ret (uniform_of a b k).

Definition random `{FloatModel} : M Q :=
  let* k := draw in ret (unit_of k).

End Eff.
Export Eff.

(* ===================================================================== *)
(** ** random_data.py                                                     *)
(* ===================================================================== *)

Module RandomData.

Definition reset_part_number_counter : M unit := write_counter 0.

(** Index to letter prefix: 0->A, 1->B, ... 25->Z, 26->AA, 27->AB, ... *)
Definition _prefix_from_index (i : Z) : string :=
  if (i <? 26)%Z then chr (65 + i)
  else
    let first := (i - 26) / 26 in
    let second := (i - 26) mod 26 in
    chr (65 + first) +:+ chr (65 + second).

Definition get_next_partno : M string :=
  let* c := read_counter in
  let prefix_idx := c / 1000 in
  let num := c mod 1000 + 1 in
  write_counter (c + 1) ;;;
  let prefix := _prefix_from_index prefix_idx in
  ret (prefix +:+ format_0d 3 num).

(** [string.ascii_uppercase + string.digits] *)
Definition alphanumeric : list ascii :=
  list_ascii_of_string "ABCDEFGHIJKLMNOPQRSTUVWXYZ0123456789".

Definition get_next_partno_long : M string :=
  let* length := randint 20 50 in
  let* c := read_counter in
  let prefix := "P" +:+ zfill 6 (str_int c) in
  write_counter (c + 1) ;;;
  let need := length - Z.of_nat (String.length prefix) in
  if (need <=? 0)%Z then ret (str_take (Z.to_nat length) prefix)
  else
    let* suffix := choices alphanumeric (Z.to_nat need) in
    ret (prefix +:+ suffix).

Definition LOCATIONS : list string := ["GS"; "WH"; "FL"; "RM"; "WS"; "DC"].
Definition PRODUCTLINES : list string := ["JM"; "FG"; "RM"; "CM"; "CP"].
Definition SOURCES : list string := ["M"; "P"; "B"; "C"].
Definition SORTCODES : list string :=
  ["COMPBX"; "HARDWARE"; "LEVEL-1"; "LEVEL-2"; "ELECTRIC"; "ELWR"; "SHTCRS";
   "BARSS"; "SHTALUM"].

Definition random_revision : M string :=
  let* n := randint 1 5 in ret ("R" +:+ format_0d 2 n).

Definition all_fields : gset string :=
  list_to_set
    ["PartNo"; "Revision"; "Description"; "AltDescription1"; "AltDescription2";
     "DescExtra"; "Quantity"; "IssueUM"; "ConsumptionConv"; "UM"; "Cost";
     "Source"; "Drawing"; "Leadtime"; "Level"; "Location"; "Memo1"; "Memo2";
     "Parent"; "Productline"; "Sequence"; "SortCode"; "Tag"; "Category";
     "BomComplete"; "BomComments"; "Router"].

(** [partno = next(); while partno == parent_partno: partno = next()],
    entered with the first [partno] and at most [fuel] further iterations. *)
Fixpoint while_equals_parent (fuel : nat) (next : M string)
    (parent_partno : value) (partno : string) : M string :=
  if py_eq (VStr partno) parent_partno then
    match fuel with
    | O => spin
    | S fuel' =>
        let* partno' := next in
        while_equals_parent fuel' next parent_partno partno'
    end
  else ret partno.

(** [if key in fields: row[key] = <value>] *)
Definition set_if (key : string) (fields : gset string) (v : M value)
    (r : row) : M row :=
  if decide (key ∈ fields) then let* x := v in ret (<[key := x]> r)
  else ret r.

Definition str_value (m : M string) : M value := let* s := m in ret (VStr s).
Definition int_value (m : M Z) : M value := let* z := m in ret (VInt z).

(** The body of [random_row_for_child] after the allocation: one entry per
    [if key in fields: row[key] = ...] statement, in the order of the
    source. *)
Definition field_values `{FloatModel} (partno : string)
    (parent_partno : value) (sequence level : Z) : list (string * M value) :=
  [ ("PartNo", ret (VStr partno));
    ("Revision", str_value random_revision);
    ("Description", ret (VStr (partno +:+ " Desc")));
    ("AltDescription1",
       let* n := randint 1 3 in ret (VStr ("ALT-DESC-" +:+ str_int n)));
    ("AltDescription2",
       let* n := randint 1 3 in ret (VStr ("ALT-DESC-" +:+ str_int n)));
    ("DescExtra", str_value (choice "" ["EXTRA"; "OPTION"; "VARIANT"]));
    ("Quantity", int_value (randint 1 10));
    ("IssueUM", ret (VStr "EA"));
    ("ConsumptionConv", let* x := uniform 0.25 2.0 in ret (VFloat (round2 x)));
    ("UM", str_value (choice "" ["EA"; "FT"; "M"; "KG"; "L"; "P"; "J"; "F";
                                 "SF"; "FT"; "SI"]));
    ("Cost", let* x := uniform 0.5 250.0 in ret (VFloat (round2 x)));
    ("Source", str_value (choice "" SOURCES));
    ("Drawing", let* n := randint 1 99 in ret (VStr ("DRAW" +:+ str_int n)));
    ("Leadtime", int_value (randint 1 21));
    ("Level", ret (VInt level));
    ("Location", str_value (choice "" LOCATIONS));
    ("Memo1", let* n := randint 1 3 in ret (VStr ("MEM" +:+ str_int n)));
    ("Memo2", let* n := randint 1 3 in ret (VStr ("MEM" +:+ str_int n)));
    ("Parent", ret parent_partno);
    ("Productline", str_value (choice "" PRODUCTLINES));
    ("Sequence", ret (VInt (if (sequence >? 0)%Z then sequence * 100 else 100)));
    ("SortCode", str_value (choice "" SORTCODES));
    ("Tag", str_value (choice "" ["TG"; "TAG1"; "TAG2"]));
    ("Category",
       let* x := random in ret (VStr (if Qlt_le_dec 0.2 x then "Y" else "")));
    ("BomComplete", ret (VStr ""));
    ("BomComments",
       let* n := randint 1 5 in ret (VStr ("BOMCOMMENTS-" +:+ str_int n)));
    ("Router", ret (VStr "")) ].

Fixpoint populate (fields : gset string) (table : list (string * M value))
    (r : row) : M row :=
  match table with
  | [] => ret r
  | (key, v) :: rest =>
      let* r' := set_if key fields v r in populate fields rest r'
  end.

(** [fields_to_populate if fields_to_populate else all_fields] *)
Definition effective_fields (fields_to_populate : option (gset string))
    : gset string :=
  match fields_to_populate with
  | Some fs => if decide (fs = ∅) then all_fields else fs
  | None => all_fields
  end.

Definition next_partno (use_long_partno : bool) : M string :=
  if use_long_partno then get_next_partno_long else get_next_partno.

Definition random_row_for_child `{FloatModel} (fuel : nat)
    (parent_partno : value) (sequence : Z) (level : Z)
    (fields_to_populate : option (gset string)) (use_long_partno : bool)
    : M row :=
  let fields := effective_fields fields_to_populate in
  let* partno0 := next_partno use_long_partno in
  let* partno :=
    while_equals_parent fuel (next_partno use_long_partno) parent_partno partno0 in
  populate fields (field_values partno parent_partno sequence level) ∅.

(** [[f(x) for x in xs]], evaluated left to right. *)
Fixpoint for_each {A B} (f : A → M B) (xs : list A) : M (list B) :=
  match xs with
  | [] => ret []
  | x :: xs' =>
      let* y := f x in
      let* ys := for_each f xs' in
      ret (y :: ys)
  end.

(** [range(n)]; empty for [n <= 0]. *)
Definition range (n : Z) : list Z := Z.of_nat <$> seq 0 (Z.to_nat n).

Definition random_child_rows `{FloatModel} (fuel : nat)
    (parent_partno : value) (count : Z)
    (fields_to_populate : option (gset string)) (level : Z)
    (use_long_partno : bool) : M (list row) :=
  for_each
    (fun i => random_row_for_child fuel parent_partno (i + 1) level
                fields_to_populate use_long_partno)
    (range count).

(** *** Observations used to state properties of the allocator *)

(** The value a run returns, if it returns. *)
Definition value_of {A} (o : outcome A) : option A :=
  match o with Done a _ => Some a | _ => None end.

(** Call number [k + 1] of [get_next_partno], from the current state. *)
Fixpoint nth_call (k : nat) : M string :=
  match k with
  | O => get_next_partno
  | S k' => get_next_partno ;;; nth_call k'
  end.

(** Call number [n >= 1] after [reset_part_number_counter()]. *)
Definition call_after_reset (n : Z) : M string :=
  reset_part_number_counter ;;; nth_call (Z.to_nat (n - 1)).

(** What [get_next_partno] returns when the counter is [c]. *)
Definition partno_at (c : Z) : string :=
  _prefix_from_index (c / 1000) +:+ format_0d 3 (c mod 1000 + 1).

(** The three decimal digits of [n < 1000], leading zeros included. *)
Definition three_digits (n : Z) : string :=
  String (digit_char (n / 100))
    (String (digit_char (n / 10 mod 10)) (String (digit_char (n mod 10)) "")).

(** A state and a float interface to run examples in. *)
Definition sample_world : world := World 41 (fun k => k) 0.

Definition sample_floats : FloatModel :=
  {| round2 := fun q => q;
     float_repr := fun _ => "0.0";
     uniform_of := fun a _ _ => a;
     unit_of := fun _ => 0%Q |}.

End RandomData.

(* ===================================================================== *)
(** ** models.py                                                          *)
(* ===================================================================== *)

Module Models.

(** A Python [float]: the number it denotes, an infinity, or NaN. *)
Inductive pyfloat : Type :=
| Finite (q : Q)
| PosInf
| NegInf
| NaN.

(** [a != b] on floats: numbers compare by value, and NaN differs from
    every float, itself included. *)
Definition float_ne (a b : pyfloat) : bool :=
  match a, b with
  | Finite p, Finite q => negb (Qeq_bool p q)
  | PosInf, PosInf => false
  | NegInf, NegInf => false
  | _, _ => true
  end.

(** [a == b] on floats, as a proposition. *)
Definition float_eq (a b : pyfloat) : Prop :=
  match a, b with
  | Finite p, Finite q => (p == q)%Q
  | PosInf, PosInf => True
  | NegInf, NegInf => True
  | _, _ => False
  end.

Record BOMItem : Type := {
  part_number : string;
  description : string;
  quantity : pyfloat;
  unit : string;
  reference_designator : option string;
  notes : option string
}.

Record BOM : Type := {
  name : string;
  version : string;
  date : Z;
  items : list BOMItem;
  metadata : option (gmap string value)
}.

Record BOMComparison : Type := {
  bom1 : BOM;
  bom2 : BOM;
  added_items : list BOMItem;
  removed_items : list BOMItem;
  modified_items : list (BOMItem * BOMItem);   (* (old_item, new_item) *)
  unchanged_items : list BOMItem
}.

(** [BOM.get_item_by_part_number]: the first item with that number. *)
Fixpoint get_item_by_part_number (l : list BOMItem) (pn : string)
    : option BOMItem :=
  match l with
  | [] => None
  | item :: rest =>
      if String.eqb (part_number item) pn then Some item
      else get_item_by_part_number rest pn
  end.

(** [{item.part_number: item for item in items}] *)
Definition items_dict (l : list BOMItem) : gmap string BOMItem :=
  foldl (fun d item => <[part_number item := item]> d) ∅ l.

(** [[d[part] for part in parts]]; every [part] is a key of [d] where this
    is used. *)
Definition items_at (d : gmap string BOMItem) (parts : gset string)
    : list BOMItem :=
  omap (fun part => d !! part) (elements parts).

(** The test of the [for part in common_parts] loop. *)
Definition item_changed (item1 item2 : BOMItem) : bool :=
  float_ne (quantity item1) (quantity item2)
  || negb (String.eqb (description item1) (description item2))
  || negb (String.eqb (unit item1) (unit item2)).

(** One iteration of that loop on the pair (modified_items, unchanged_items). *)
Definition classify (d1 d2 : gmap string BOMItem)
    (acc : list (BOMItem * BOMItem) * list BOMItem) (part : string)
    : list (BOMItem * BOMItem) * list BOMItem :=
  match d1 !! part, d2 !! part with
  | Some item1, Some item2 =>
      if item_changed item1 item2
      then ((acc.1 ++ [(item1, item2)])%list, acc.2)
      else (acc.1, (acc.2 ++ [item1])%list)
  | _, _ => acc
  end.

Definition _calculate_differences (self : BOMComparison) : BOMComparison :=
  let bom1_dict := items_dict (items (bom1 self)) in
  let bom2_dict := items_dict (items (bom2 self)) in
  let bom1_part_numbers : gset string := dom bom1_dict in
  let bom2_part_numbers : gset string := dom bom2_dict in
  let removed_parts := bom1_part_numbers ∖ bom2_part_numbers in
  let added_parts := bom2_part_numbers ∖ bom1_part_numbers in
  let common_parts := bom1_part_numbers ∩ bom2_part_numbers in
  let both := foldl (classify bom1_dict bom2_dict) ([], []) (elements common_parts) in
  {| bom1 := bom1 self;
     bom2 := bom2 self;
     added_items := items_at bom2_dict added_parts;
     removed_items := items_at bom1_dict removed_parts;
     modified_items := both.1;
     unchanged_items := both.2 |}.

Definition __post_init__ (self : BOMComparison) : BOMComparison :=
  if is_empty (added_items self) && is_empty (removed_items self)
     && is_empty (modified_items self)
  then _calculate_differences self
  else self.

(** The dataclass constructor: the generated [__init__] stores the six
    arguments and calls [__post_init__]. *)
Definition new_BOMComparison (b1 b2 : BOM) (added removed : list BOMItem)
    (modified : list (BOMItem * BOMItem)) (unchanged : list BOMItem)
    : BOMComparison :=
  __post_init__
    {| bom1 := b1; bom2 := b2; added_items := added; removed_items := removed;
       modified_items := modified; unchanged_items := unchanged |}.

(** Comparing two BOMs is constructing the comparison with empty
    partitions. *)
Definition compare (b1 b2 : BOM) : BOMComparison :=
  new_BOMComparison b1 b2 [] [] [] [].

(** Last-write-wins lookup, stated on the item list itself. *)
Definition last_with (pn : string) (l : list BOMItem) : option BOMItem :=
  last (filter (fun item => part_number item = pn) l).

End Models.

(* ===================================================================== *)
(** ** cli.py                                                             *)
(* ===================================================================== *)

Module Cli.

Definition TEMPLATE_HEADERS : list string :=
  ["PartNo"; "Revision"; "Description"; "AltDescription1"; "AltDescription2";
   "DescExtra"; "Quantity"; "IssueUM"; "ConsumptionConv"; "UM"; "Cost";
   "Source"; "Drawing"; "Leadtime"; "Level"; "Location"; "Memo1"; "Memo2";
   "Parent"; "Productline"; "Sequence"; "SortCode"; "Tag"; "Category";
   "BomComplete"; "BomComments"; "Router"].

(** A Python set; the order in which it is iterated is not specified and
    nothing below depends on it. *)
Definition REQUIRED_FIELDS : list string :=
  ["PartNo"; "Quantity"; "Parent"; "Sequence"].

(** The data rows of a worksheet: one list of cells per row. *)
Abbreviation sheet := (list (list value)).

(** The local function [is_missing] of [append_row_by_headers]. *)
Definition is_missing (row_data : row) (f : string) : bool :=
  let val := get f row_data in
  if String.eqb f "Parent" && py_eq val (VStr "") then false
  else in_none_empty val.

(** [[row_data.get(h, None) for h in headers]] *)
Definition row_cells (headers : list string) (row_data : row) : list value :=
  (fun h => get h row_data) <$> headers.

Definition append_row_by_headers (ws : sheet) (headers : list string)
    (row_data : row) : M sheet :=
  let missing := filter (fun f => is_missing row_data f = true) REQUIRED_FIELDS in
  if negb (is_empty missing) then raise (ValueError missing)
  else ret (ws ++ [row_cells headers row_data])%list.

End Cli.

(* ===================================================================== *)
(** ** ui.py                                                              *)
(* ===================================================================== *)

Module Ui.
Import RandomData Cli.
Local Open Scope list_scope.

(** *** Module-level tables and helpers *)

Definition CATEGORY_OPTIONS : list (string * string) :=
  [("Normal", ""); ("Phantom", "P"); ("Exclude", "X"); ("Reference", "R");
   ("Setup", "1")].

Definition SOURCE_OPTIONS : list (string * string) :=
  [("—", ""); ("Purchase to Stock", "P"); ("Purchase to Job", "J");
   ("Manufactured to Stock", "M"); ("Manufactured to Job", "F");
   ("Consign to Stock", "C"); ("Consign to Job", "G")].

(** [dict(pairs)]: a later pair overrides an earlier one. *)
Definition dict_of {A} (pairs : list (string * A)) : gmap string A :=
  foldl (fun d kv => <[kv.1 := kv.2]> d) ∅ pairs.

Definition CATEGORY_DISPLAY_TO_VALUE : gmap string string := dict_of CATEGORY_OPTIONS.
Definition SOURCE_DISPLAY_TO_VALUE : gmap string string := dict_of SOURCE_OPTIONS.
Definition CATEGORY_LABELS : list string := fst <$> CATEGORY_OPTIONS.
Definition SOURCE_LABELS : list string := fst <$> SOURCE_OPTIONS.

(** [d.get(label)] and [d.get(label, "")] on these tables *)
Definition display_get (d : gmap string string) (label : string) : value :=
  match d !! label with Some v => VStr v | None => VNone end.

Definition display_get_or_empty (d : gmap string string) (label : string) : value :=
  match d !! label with Some v => VStr v | None => VStr "" end.

(** [s or None] for a text widget *)
Definition or_none (s : string) : value := py_or (VStr s) VNone.

(** [row[k1] = v1; row[k2] = v2; ...] and the dictionary displays *)
Definition assign (kvs : list (string * value)) (r : row) : row :=
  foldl (fun d kv => <[kv.1 := kv.2]> d) r kvs.

(** [d[key]] *)
Definition subscript (key : string) (d : row) : M value :=
  match d !! key with
  | Some v => ret v
  | None => raise (KeyError key)
  end.

(** [l[a:b]].  The in-place updates of the dictionaries of a slice reach
    the list the slice was taken from: [on_slice a b f l] is [l] after
    [f] has been run on [l[a:b]]. *)
Definition on_slice {A} (a b : nat) (f : list A → list A) (l : list A) : list A :=
  take a l ++ f (take (b - a) (drop a l)) ++ drop b l.

Definition _apply_random_row_defaults (rows : list row) (manufactured_count : Z)
    (apply_revision_to_all apply_location_to_all : bool)
    (parent_revision parent_location : string) : list row :=
  imap (fun i r =>
    let r := <["UM" := VStr "EA"]> r in
    let r := <["Location" :=
                if apply_location_to_all then or_none parent_location else VNone]> r in
    let r := <["Revision" :=
                if apply_revision_to_all then or_none parent_revision else VNone]> r in
    let r := <["Category" := VStr ""]> r in
    let r := <["Source" :=
                VStr (if (Z.of_nat i <? manufactured_count)%Z then "F" else "J")]> r in
    <["Productline" :=
        VStr (if py_eq (get "Source" r) (VStr "F") then "CP" else "CM")]> r)
    rows.

(** The subject an error message names. *)
Inductive label : Type :=
| ParentPart                              (* "Parent part" *)
| Level1Index (idx : Z)                   (* f"Level 1 part #{idx}" *)
| Level1Part (idx : Z) (partno : value)   (* f"Level 1 part #{idx} ({partno})" *)
| Part (partno : value).                  (* f"Part {partno}" *)

(** The error messages, by their content. *)
Inductive message : Type :=
| ParentRequired
    (* "Parent part (PartNo and Description) is required." *)
| Missing (who : label) (fields : list string)
    (* f"{who}: Missing {', '.join(fields)}" *)
| PhantomSource (who : label)
    (* f"{who}: Phantom must have Source of Manufactured to Stock (M) or
       Manufactured to Job (F)." *)
| ExcludeSource (who : label).
    (* f"{who}: Exclude must have Source of Purchase to Stock (P)." *)

Definition _validate_category_source (category_value source_value : value)
    (part_label : label) : option message :=
  if negb (truthy category_value) then None
  else
    let phantom :=
      if py_eq category_value (VStr "P") then
        if negb (in_M_F source_value) then Some (PhantomSource part_label)
        else None
      else None in
    match phantom with
    | Some e => Some e
    | None =>
        if py_eq category_value (VStr "X") then
          if negb (py_eq source_value (VStr "P"))
          then Some (ExcludeSource part_label) else None
        else None
    end.

(** *** The widgets *)

(** The values of the widgets of one part (the parent part or a manually
    entered part of level 1, 2 or 3). *)
Record PartForm : Type := {
  w_partno : string;
  w_desc : string;
  w_qty : Q;
  w_um : string;
  w_source_label : string;
  w_pl : string;
  w_revision : string;
  w_cost : option Q;
  w_location : string;
  w_category_label : string;
  w_leadtime : string;
  w_drawing : string;
  w_altdesc1 : string;
  w_altdesc2 : string;
  w_descextra : string;
  w_issue_um : string;
  w_consumption : string;
  w_memo1 : string;
  w_memo2 : string;
  w_sortcode : string;
  w_tag : string;
  w_bomcomplete : string;
  w_bomcomments : string;
  w_router : string
}.

(** The widgets of one Level 2 or Level 3 group. *)
Record GroupForm : Type := {
  g_parent_choice : nat;       (* the option picked in the parent selectbox *)
  g_count : Z;                 (* "Number of parts" *)
  g_random : bool;             (* "Randomly generate this group" *)
  g_manufactured : Z;
  g_fields : list string;
  g_part : nat → PartForm
}.

(** The widgets of a Level 2 or Level 3 section. *)
Record LevelForm : Type := {
  per_parent_random : bool;        (* "For each Manufactured ... part, ..." *)
  per_parent_count : Z;
  per_parent_manufactured : Z;
  per_parent_fields : list string;
  num_groups : Z;                  (* "Number of Level n groups" *)
  random_all : bool;               (* "Randomly generate all Level n groups" *)
  all_manufactured : Z;
  all_fields_chosen : list string;
  group : nat → GroupForm
}.

Record Form : Type := {
  template_headers : list string;  (* first row of the sheet "Template" *)
  continue_anyway : bool;
  parent : PartForm;
  apply_revision_to_all : bool;
  apply_location_to_all : bool;
  sequence_increment : Z;
  use_random_children : bool;
  child_count : Z;
  l1_manufactured_count : Z;
  fields_for_random : list string;
  child : nat → PartForm;
  level2 : LevelForm;
  level3 : LevelForm;
  generate_clicked : bool          (* the button "Generate BOM" *)
}.

(** [st.selectbox(label, options, index=0)]: the option picked, the first
    one when the pick is not on offer, [None] when there is no option. *)
Definition selectbox (options : list value) (choice : nat) : value :=
  match options !! choice with
  | Some v => v
  | None => default VNone (head options)
  end.

(** What the page shows besides its widgets. *)
Inductive notice : Type :=
| HeaderMismatchWarning
| EnterParentInfo
| NoManufacturedLevel1Warning
| NoManufacturedLevel2Warning
| RandomCappedInfo
| NoManualLevel2Info
| GroupsNeedManualLevel2Info
| ErrorNotice (m : message)
| SuccessNotice.

Record page : Type := {
  notices : list notice;
  download : option sheet      (* the data rows of the generated workbook *)
}.

(** The dictionaries [random_l2_per_l1] and [random_l3_per_l2]. *)
Record per_parent : Type := {
  pp_count : Z;
  pp_fields : list string;
  pp_manufactured_count : Z
}.

(** The entries of [level2_config] and [level3_config]. *)
Inductive group_config : Type :=
| RandomGroup (parent_of : value) (count : Z) (fields : list string)
    (manufactured_count : Z)
| ManualGroup (parent_of : value) (count : Z) (manual_rows : list row).

Definition cost_value `{FloatModel} (c : option Q) : value :=
  match c with Some x => VFloat (round2 x) | None => VNone end.

(** *** 1. Top parent part *)

Definition parent_row_of `{FloatModel} (f : Form) : option row :=
  let p := parent f in
  if truthy (VStr (w_partno p)) then
    Some (assign
      [ ("PartNo", VStr (w_partno p));
        ("Description", VStr (w_desc p));
        ("Quantity", VFloat (w_qty p));
        ("UM", py_or (VStr (w_um p)) (VStr "EA"));
        ("Productline", py_or (VStr (w_pl p)) (VStr "FG"));
        ("Level", VInt 0);
        ("Parent", VNone);
        ("Sequence", VInt 0);
        ("Revision", or_none (w_revision p));
        ("AltDescription1", or_none (w_altdesc1 p));
        ("AltDescription2", or_none (w_altdesc2 p));
        ("DescExtra", or_none (w_descextra p));
        ("IssueUM", or_none (w_issue_um p));
        ("ConsumptionConv", or_none (w_consumption p));
        ("Cost", cost_value (w_cost p));
        ("Source", py_or (display_get SOURCE_DISPLAY_TO_VALUE (w_source_label p)) VNone);
        ("Drawing", or_none (w_drawing p));
        ("Leadtime", or_none (w_leadtime p));
        ("Location", or_none (w_location p));
        ("Memo1", or_none (w_memo1 p));
        ("Memo2", or_none (w_memo2 p));
        ("SortCode", or_none (w_sortcode p));
        ("Tag", or_none (w_tag p));
        ("Category",
           py_or (display_get_or_empty CATEGORY_DISPLAY_TO_VALUE (w_category_label p))
                 VNone);
        ("BomComplete", or_none (w_bomcomplete p));
        ("BomComments", or_none (w_bomcomments p));
        ("Router", or_none (w_router p)) ]
      (none_row TEMPLATE_HEADERS))
  else None.

(** *** 2. Level 1 *)

(** [set(chosen) | {"Parent", "Sequence", "Level", "PartNo", "Quantity"}] *)
Definition with_linkage (chosen : list string) : gset string :=
  list_to_set chosen ∪ {["Parent"; "Sequence"; "Level"; "PartNo"; "Quantity"]}.

(** The dictionary appended to [child_data] for the manual child [i]. *)
Definition manual_child `{FloatModel} (f : Form) (i : Z) (c : PartForm) : row :=
  assign
    [ ("PartNo", VStr (w_partno c));
      ("Revision", or_none (w_revision c));
      ("Description", or_none (w_desc c));
      ("AltDescription1", or_none (w_altdesc1 c));
      ("AltDescription2", or_none (w_altdesc2 c));
      ("DescExtra", or_none (w_descextra c));
      ("Quantity", VFloat (w_qty c));
      ("IssueUM", or_none (w_issue_um c));
      ("ConsumptionConv", or_none (w_consumption c));
      ("UM", py_or (VStr (w_um c)) (VStr "EA"));
      ("Cost", cost_value (w_cost c));
      ("Source", py_or (display_get SOURCE_DISPLAY_TO_VALUE (w_source_label c)) VNone);
      ("Drawing", or_none (w_drawing c));
      ("Leadtime", or_none (w_leadtime c));
      ("Level", VInt 1);
      ("Location", or_none (w_location c));
      ("Memo1", or_none (w_memo1 c));
      ("Memo2", or_none (w_memo2 c));
      ("Parent", VStr (w_partno (parent f)));
      ("Productline", or_none (w_pl c));
      ("Sequence", VInt ((i + 1) * sequence_increment f));
      ("SortCode", or_none (w_sortcode c));
      ("Tag", or_none (w_tag c));
      ("Category",
         py_or (display_get CATEGORY_DISPLAY_TO_VALUE (w_category_label c)) VNone);
      ("BomComplete", or_none (w_bomcomplete c));
      ("BomComments", or_none (w_bomcomments c));
      ("Router", or_none (w_router c)) ]
    ∅.

Definition level1_section `{FloatModel} (fuel : nat) (f : Form) : M (list row) :=
  if use_random_children f then
    let fields_set := with_linkage (fields_for_random f) in
    let* child_data :=
      random_child_rows fuel (VStr (w_partno (parent f))) (child_count f)
        (Some fields_set) 1 false in
    ret (_apply_random_row_defaults child_data (l1_manufactured_count f)
           (apply_revision_to_all f) (apply_location_to_all f)
           (w_revision (parent f)) (w_location (parent f)))
  else
    ret ((fun i => manual_child f i (child f (Z.to_nat i))) <$> range (child_count f)).

(** [[c["PartNo"] for c in child_data if c.get("PartNo")]] *)
Definition level1_partnos_of (child_data : list row) : list value :=
  get "PartNo" <$> filter (fun c => truthy (get "PartNo" c) = true) child_data.

(** [next((c.get("Source") for c in child_data if c.get("PartNo") == pno), None)] *)
Definition first_source (child_data : list row) (pno : value) : value :=
  match List.find (fun c => py_eq (get "PartNo" c) pno) child_data with
  | Some c => get "Source" c
  | None => VNone
  end.

Definition level1_partnos_manufactured_of (child_data : list row) : list value :=
  filter (fun pno => in_M_F (first_source child_data pno) = true)
         (level1_partnos_of child_data).

Definition any_l1_manufactured_of (child_data : list row) : bool :=
  existsb (fun c => in_M_F (get "Source" c))
          (filter (fun c => truthy (get "PartNo" c) = true) child_data).

(** [block_l2 = level1_partnos and not any_l1_manufactured], as a truth value *)
Definition block_l2_of (child_data : list row) : bool :=
  negb (is_empty (level1_partnos_of child_data))
  && negb (any_l1_manufactured_of child_data).

(** *** 3. Level 2 and Level 3 groups *)

(** The dictionary appended to [manual_rows] for part [j] of a manual
    group at [level]. *)
Definition manual_group_row `{FloatModel} (level : Z) (parent_of : value)
    (j : Z) (c : PartForm) : row :=
  assign
    [ ("PartNo", VStr (w_partno c)); ("Description", VStr (w_desc c));
      ("Quantity", VFloat (w_qty c)); ("UM", VStr (w_um c));
      ("Source", py_or (display_get SOURCE_DISPLAY_TO_VALUE (w_source_label c)) VNone);
      ("Category",
         py_or (display_get CATEGORY_DISPLAY_TO_VALUE (w_category_label c)) VNone);
      ("Productline", VStr (w_pl c)); ("Revision", VStr (w_revision c));
      ("Location", VStr (w_location c));
      ("AltDescription1", or_none (w_altdesc1 c));
      ("AltDescription2", or_none (w_altdesc2 c));
      ("DescExtra", or_none (w_descextra c));
      ("IssueUM", or_none (w_issue_um c));
      ("ConsumptionConv", or_none (w_consumption c));
      ("Cost", cost_value (w_cost c)); ("Drawing", or_none (w_drawing c));
      ("Leadtime", or_none (w_leadtime c));
      ("Memo1", or_none (w_memo1 c)); ("Memo2", or_none (w_memo2 c));
      ("SortCode", or_none (w_sortcode c)); ("Tag", or_none (w_tag c));
      ("BomComplete", or_none (w_bomcomplete c));
      ("BomComments", or_none (w_bomcomments c));
      ("Router", or_none (w_router c));
      ("Parent", parent_of); ("Level", VInt level); ("Sequence", VInt (j + 1)) ]
    ∅.

(** The body of [for g in range(num_groups)] when the groups are entered
    one by one: the configuration of group [g]. *)
Definition group_config_of `{FloatModel} (level : Z) (parents : list value)
    (gf : GroupForm) : group_config :=
  let parent_of := selectbox parents (g_parent_choice gf) in
  if g_random gf then
    RandomGroup parent_of (g_count gf) (g_fields gf)
      (Z.min (g_manufactured gf) (g_count gf))
  else
    ManualGroup parent_of (g_count gf)
      ((fun j => manual_group_row level parent_of j (g_part gf (Z.to_nat j)))
       <$> range (g_count gf)).

(** [parents[g % len(parents)]] *)
Definition pick_cyclic (parents : list value) (g : Z) : M value :=
  if is_empty parents then raise ZeroDivisionError
  else ret (nth (Z.to_nat (g mod Z.of_nat (length parents))) parents VNone).

(** The dictionary of the "for each manufactured part" option. *)
Definition per_parent_of (lf : LevelForm) : option per_parent :=
  if per_parent_random lf then
    Some {| pp_count := per_parent_count lf;
            pp_fields := per_parent_fields lf;
            pp_manufactured_count :=
              Z.min (per_parent_manufactured lf) (per_parent_count lf) |}
  else None.

(** [level2_manual_partnos]: the PartNo widgets of the manual groups. *)
Definition manual_partnos_of (configs : list group_config) : list value :=
  flat_map (fun cfg =>
    match cfg with
    | ManualGroup _ _ rows => get "PartNo" <$> rows
    | RandomGroup _ _ _ _ => []
    end) configs.

(** What a section contributes: its notices, the "for each" option and
    the group configurations. *)
Record section : Type := {
  sec_notices : list notice;
  sec_per_parent : option per_parent;
  sec_config : list group_config
}.

Definition no_section : section :=
  {| sec_notices := []; sec_per_parent := None; sec_config := [] |}.

Definition level2_section `{FloatModel} (f : Form) (child_data : list row)
    : M section :=
  let lf := level2 f in
  let level1_partnos := level1_partnos_of child_data in
  let level1_partnos_manufactured := level1_partnos_manufactured_of child_data in
  let block_l2 := block_l2_of child_data in
  if is_empty level1_partnos then ret no_section
  else
    let warn := if block_l2 then [NoManufacturedLevel1Warning] else [] in
    let random_l2_per_l1 := if block_l2 then None else per_parent_of lf in
    let num_l2_groups := if block_l2 then 0%Z else num_groups lf in
    let random_all_l2 :=
      if negb block_l2 && (num_l2_groups >? 0)%Z then random_all lf else false in
    let* level2_config :=
      if random_all_l2 then
        for_each (fun g =>
            let* parent_l1 := pick_cyclic level1_partnos_manufactured g in
            ret (RandomGroup parent_l1 2 (all_fields_chosen lf)
                   (Z.min (all_manufactured lf) 2)))
          (range num_l2_groups)
      else
        ret ((fun g => group_config_of 2 level1_partnos_manufactured
                         (group lf (Z.to_nat g)))
             <$> range num_l2_groups) in
    ret {| sec_notices := warn; sec_per_parent := random_l2_per_l1;
           sec_config := level2_config |}.

(** [level2_partno_to_source] *)
Definition level2_partno_to_source_of (level2_config : list group_config)
    : gmap string value :=
  foldl (fun d cfg =>
      match cfg with
      | ManualGroup _ _ rows =>
          foldl (fun d r =>
              match get "PartNo" r with
              | VStr pno => if truthy (VStr pno) then <[pno := get "Source" r]> d else d
              | _ => d
              end) d rows
      | RandomGroup _ _ _ _ => d
      end) ∅ level2_config.

(** [level2_partno_to_source.get(pno)] *)
Definition source_of (d : gmap string value) (pno : value) : value :=
  match pno with
  | VStr s => default VNone (d !! s)
  | _ => VNone
  end.

Definition level3_section `{FloatModel} (f : Form) (child_data : list row)
    (level2_config : list group_config) : M section :=
  let lf := level3 f in
  let level1_partnos := level1_partnos_of child_data in
  let level2_partnos_for_l3 :=
    filter (fun p => truthy p = true) (manual_partnos_of level2_config) in
  let level2_partno_to_source := level2_partno_to_source_of level2_config in
  let any_l2_manufactured :=
    existsb (fun pno => in_M_F (source_of level2_partno_to_source pno))
            level2_partnos_for_l3 in
  let block_l3 := negb (is_empty level2_partnos_for_l3) && negb any_l2_manufactured in
  let level2_partnos_manufactured :=
    filter (fun pno => in_M_F (source_of level2_partno_to_source pno) = true)
           level2_partnos_for_l3 in
  if is_empty level1_partnos then ret no_section
  else
    let shown :=
      RandomCappedInfo ::
      (if block_l3 then [NoManufacturedLevel2Warning]
       else if is_empty level2_partnos_for_l3 then [NoManualLevel2Info] else []) in
    let random_l3_per_l2 := if block_l3 then None else per_parent_of lf in
    let num_l3_groups := if block_l3 then 0%Z else num_groups lf in
    let random_all_l3 :=
      if negb block_l3 && (num_l3_groups >? 0)%Z
         && negb (is_empty level2_partnos_manufactured)
      then random_all lf else false in
    if random_all_l3 then
      let* level3_config :=
        for_each (fun g =>
            let* parent_l2 := pick_cyclic level2_partnos_manufactured g in
            ret (RandomGroup parent_l2 2 (all_fields_chosen lf)
                   (Z.min (all_manufactured lf) 2)))
          (range num_l3_groups) in
      ret {| sec_notices := shown; sec_per_parent := random_l3_per_l2;
             sec_config := level3_config |}
    else if is_empty level2_partnos_for_l3 then
      (* the loop leaves at its first iteration, after the notice *)
      ret {| sec_notices :=
               shown ++ (if (num_l3_groups >? 0)%Z
                         then [GroupsNeedManualLevel2Info] else []);
             sec_per_parent := random_l3_per_l2;
             sec_config := [] |}
    else
      ret {| sec_notices := shown; sec_per_parent := random_l3_per_l2;
             sec_config :=
               (fun g => group_config_of 3 level2_partnos_manufactured
                           (group lf (Z.to_nat g)))
               <$> range num_l3_groups |}.

(** *** 4. The button "Generate BOM" *)

(** [[f for f in REQUIRED_FIELDS if r.get(f) in (None, "", [])]] *)
Definition missing_required (r : row) : list string :=
  filter (fun f => in_none_empty (get f r) = true) REQUIRED_FIELDS.

(** [r.get("PartNo", "")] *)
Definition partno_or_empty (r : row) : value := default (VStr "") (r !! "PartNo").

(** The appends to [errors] the code makes for one subject. *)
Definition as_errors (err : option message) : list message :=
  match err with Some e => [e] | None => [] end.

Definition check_parent (parent_row : option row) : list message :=
  match parent_row with
  | None => [ParentRequired]
  | Some r =>
      as_errors (_validate_category_source (get "Category" r) (get "Source" r)
                   ParentPart)
  end.

(** The body of [for idx, child in enumerate(child_data, 1)]. *)
Definition check_child (idx : Z) (child : row) : list message :=
  let missing := missing_required child in
  if negb (is_empty missing) then [Missing (Level1Index idx) missing]
  else
    as_errors (_validate_category_source (get "Category" child) (get "Source" child)
                 (Level1Part idx (partno_or_empty child))).

Definition check_children (child_data : list row) : list message :=
  mjoin (imap (fun i child => check_child (Z.of_nat i + 1) child) child_data).

(** The body of [for r in level2_rows + level3_rows]. *)
Definition check_part (r : row) : list message :=
  let missing := missing_required r in
  if negb (is_empty missing) then [Missing (Part (get "PartNo" r)) missing]
  else
    as_errors (_validate_category_source (get "Category" r) (get "Source" r)
                 (Part (partno_or_empty r))).

(** [for x in xs: acc = step(acc, x)] with effects *)
Fixpoint fold_m {A B} (step : A → B → M A) (acc : A) (xs : list B) : M A :=
  match xs with
  | [] => ret acc
  | x :: xs' => let* acc' := step acc x in fold_m step acc' xs'
  end.

Section Assembly.
Context `{FloatModel} (fuel : nat) (f : Form).

Definition defaults_on (rows : list row) (manufactured_count : Z) : list row :=
  _apply_random_row_defaults rows manufactured_count
    (apply_revision_to_all f) (apply_location_to_all f)
    (w_revision (parent f)) (w_location (parent f)).

(** Steps 1 and 3: random rows under every manufactured row of the level
    above, appended to [rows]; then the defaults, batch by batch.  Counts
    come from widgets with [min_value=1], so the slice bounds are not
    negative. *)
Definition random_under_manufactured (level : Z) (pp : per_parent)
    (above : list row) (rows : list row) : M (list row) :=
  let fset := with_linkage (pp_fields pp) in
  let count := pp_count pp in
  let mfg_count := pp_manufactured_count pp in
  let start := Z.of_nat (length rows) in
  let manufactured := filter (fun c => in_M_F (get "Source" c) = true) above in
  let* rows :=
    fold_m (fun rows c =>
        let* pno := subscript "PartNo" c in
        let* batch := random_child_rows fuel pno count (Some fset) level false in
        ret (rows ++ batch))
      rows manufactured in
  ret (foldl (fun rows i =>
          on_slice (Z.to_nat (start + i * count)) (Z.to_nat (start + (i + 1) * count))
            (fun batch => defaults_on batch mfg_count) rows)
        rows (range (Z.of_nat (length manufactured)))).

Definition manual_keys : list string :=
  ["PartNo"; "Description"; "Quantity"; "UM"; "Source"; "Category";
   "Productline"; "Revision"; "Location"; "AltDescription1"; "AltDescription2";
   "DescExtra"; "IssueUM"; "ConsumptionConv"; "Cost"; "Drawing"; "Leadtime";
   "Memo1"; "Memo2"; "SortCode"; "Tag"; "BomComplete"; "BomComments"; "Router"].

(** The row built from one entry of [manual_rows]. *)
Definition manual_row (level : Z) (parent_of : value) (r : row) : row :=
  let row0 :=
    foldl (fun d key =>
        match r !! key with
        | Some VNone | None => d
        | Some v => <[key := v]> d
        end) (none_row TEMPLATE_HEADERS) manual_keys in
  assign
    [ ("UM", py_or (get "UM" row0) (VStr "EA"));
      ("IssueUM", get "IssueUM" r);
      ("ConsumptionConv", get "ConsumptionConv" r);
      ("Parent", parent_of);
      ("Level", VInt level);
      ("Sequence", default (VInt 0) (r !! "Sequence")) ]
    row0.

(** Steps 2 and 4: [for cfg in level_config]. *)
Definition add_groups (level : Z) (configs : list group_config)
    (rows : list row) : M (list row) :=
  fold_m (fun rows cfg =>
      match cfg with
      | RandomGroup parent_of count fields manufactured_count =>
          let fset := with_linkage fields in
          let start := length rows in
          let* batch := random_child_rows fuel parent_of count (Some fset) level false in
          let rows := rows ++ batch in
          ret (on_slice start (length rows)
                 (fun batch => defaults_on batch manufactured_count) rows)
      | ManualGroup parent_of _ manual_rows =>
          ret (rows ++ (manual_row level parent_of <$> manual_rows))
      end)
    rows configs.

(** [for idx, r in enumerate(rows): r["Sequence"] = (idx + 1) * sequence_increment] *)
Definition resequence (rows : list row) : list row :=
  imap (fun idx r => <["Sequence" := VInt ((Z.of_nat idx + 1) * sequence_increment f)]> r)
       rows.

(** [if flag: for r in rows: r[key] = text or None] *)
Definition propagate (key : string) (flag : bool) (text : string)
    (rows : list row) : list row :=
  if flag then (fun r => <[key := or_none text]> r) <$> rows else rows.

Definition propagate_parent_fields (rows : list row) : list row :=
  propagate "Location" (apply_location_to_all f) (w_location (parent f))
    (propagate "Revision" (apply_revision_to_all f) (w_revision (parent f)) rows).

(** The three row lists and the error list when the handler reaches
    [if errors:]. *)
Record assembled : Type := {
  child_rows : list row;
  level2_rows : list row;
  level3_rows : list row;
  errors : list message
}.

(** The block under [if not errors:] up to the sequence assignment: the
    rows of levels 2 and 3. *)
Definition assemble_lower (child_data : list row) (sec2 sec3 : section)
    : M (list row * list row) :=
  let* level2_rows :=
    match sec_per_parent sec2 with
    | Some pp => random_under_manufactured 2 pp child_data []
    | None => ret []
    end in
  let* level2_rows := add_groups 2 (sec_config sec2) level2_rows in
  let* level3_rows :=
    match sec_per_parent sec3 with
    | Some pp =>
        if negb (is_empty level2_rows)
        then random_under_manufactured 3 pp level2_rows []
        else ret []
    | None => ret []
    end in
  let* level3_rows := add_groups 3 (sec_config sec3) level3_rows in
  ret (level2_rows, level3_rows).

Definition on_generate (parent_row : option row) (child_data : list row)
    (sec2 sec3 : section) : M assembled :=
  let errors := check_parent parent_row ++ check_children child_data in
  if is_empty errors then
    let* lower := assemble_lower child_data sec2 sec3 in
    let child_data := resequence child_data in
    let level2_rows := resequence lower.1 in
    let level3_rows := resequence lower.2 in
    let errors := errors ++ mjoin (check_part <$> (level2_rows ++ level3_rows)) in
    ret {| child_rows := propagate_parent_fields child_data;
           level2_rows := propagate_parent_fields level2_rows;
           level3_rows := propagate_parent_fields level3_rows;
           errors := errors |}
  else
    ret {| child_rows := child_data; level2_rows := []; level3_rows := [];
           errors := errors |}.

(** The local function [clear_self_parent]. *)
Definition clear_self_parent (r : row) : row :=
  if truthy (get "PartNo" r) && truthy (get "Parent" r)
     && String.eqb (strip (py_str (get "PartNo" r))) (strip (py_str (get "Parent" r)))
  then <["Parent" := VStr ""]> r
  else r.

(** The first data row: the parent part with its own PartNo as Parent. *)
Definition parent_values (headers : list string) (parent_row : row) : list value :=
  (fun h =>
     if String.eqb h "Parent" then VStr (w_partno (parent f))
     else match get h parent_row with VNone => VStr "" | v => v end)
  <$> headers.

Definition append_all (headers : list string) (rows : list row) (ws : sheet)
    : M sheet :=
  fold_m (fun ws r => append_row_by_headers ws headers (clear_self_parent r)) ws rows.

(** The [else] branch of [if errors:], up to [output_wb.save]. *)
Definition write_output (parent_row : row) (a : assembled) : M sheet :=
  let output_headers := template_headers f in
  let ws := [parent_values output_headers parent_row] in
  let* ws := append_all output_headers (child_rows a) ws in
  let* ws := append_all output_headers (level2_rows a) ws in
  append_all output_headers (level3_rows a) ws.

(** The three level sections of the page, in the order they are drawn:
    [child_data] and what the Level 2 and Level 3 sections leave behind. *)
Definition render_levels : M (list row * section * section) :=
  let* child_data := level1_section fuel f in
  let* sec2 := level2_section f child_data in
  let* sec3 := level3_section f child_data (sec_config sec2) in
  ret (child_data, sec2, sec3).

(** The page, from the loaded template on. *)
Definition main : M page :=
  reset_part_number_counter ;;;
  let mismatch := negb (bool_decide (template_headers f = TEMPLATE_HEADERS)) in
  let shown := if mismatch then [HeaderMismatchWarning] else [] in
  if mismatch && negb (continue_anyway f) then
    ret {| notices := shown; download := None |}
  else
    let parent_row := parent_row_of f in
    if negb (truthy (VStr (w_partno (parent f)))) then
      ret {| notices := shown ++ [EnterParentInfo]; download := None |}
    else
      let* levels := render_levels in
      let child_data := levels.1.1 in
      let sec2 := levels.1.2 in
      let sec3 := levels.2 in
      let shown := shown ++ sec_notices sec2 ++ sec_notices sec3 in
      if generate_clicked f then
        let* a := on_generate parent_row child_data sec2 sec3 in
        if negb (is_empty (errors a)) then
          ret {| notices := shown ++ (ErrorNotice <$> errors a); download := None |}
        else
          match parent_row with
          | Some pr =>
              let* ws := write_output pr a in
              ret {| notices := shown ++ [SuccessNotice]; download := Some ws |}
          | None => raise AttributeError   (* [None.get] *)
          end
      else
        ret {| notices := shown; download := None |}.

End Assembly.

End Ui.

(* ===================================================================== *)
(** ** Notions used in the statements                                     *)
(* ===================================================================== *)

Import RandomData Cli Ui.

(** Last character of a string. *)
Fixpoint last_char (s : string) : option ascii :=
  match s with
  | EmptyString => None
  | String c EmptyString => Some c
  | String _ rest => last_char rest
  end.

(** The number a string of decimal digits denotes. *)
Definition digit_value (c : ascii) : Z := Z.of_N (N_of_ascii c - 48).

Fixpoint num_of (s : string) : Z :=
  match s with
  | EmptyString => 0
  | String c rest => digit_value c * 10 ^ Z.of_nat (String.length rest) + num_of rest
  end.

(** [m] always returns, leaves the counter alone and its value satisfies [P]. *)
Definition yields {A} (P : A → Prop) (m : M A) : Prop :=
  ∀ w, ∃ a w', m w = Done a w'
    ∧ part_number_counter w' = part_number_counter w ∧ P a.

(** The shape of the part number allocated when the counter is [c]. *)
Definition is_partno (long : bool) (c : Z) (s : string) : Prop :=
  if long then ∃ suffix, s = "P" +:+ zfill 6 (digits c) +:+ suffix
  else s = partno_at c.

(** What [random_row_for_child] stores under the keys whose value does not
    depend on the random source alone. *)
Definition field_post (partno : string) (parent_partno : value)
    (sequence level : Z) (key : string) (x : value) : Prop :=
  if decide (key = "PartNo") then x = VStr partno
  else if decide (key = "Description") then x = VStr (partno +:+ " Desc")
  else if decide (key = "Quantity") then ∃ q, x = VInt q ∧ (1 ≤ q ≤ 10)%Z
  else if decide (key = "Level") then x = VInt level
  else if decide (key = "Parent") then x = parent_partno
  else if decide (key = "Sequence")
       then x = VInt (if (sequence >? 0)%Z then sequence * 100 else 100)
  else True.

Definition row_post (fields : gset string) (partno : string)
    (parent_partno : value) (sequence level : Z) (r : row) : Prop :=
  ∀ key,
    (key ∈ fields → key ∈ all_fields →
       ∃ x, r !! key = Some x ∧ field_post partno parent_partno sequence level key x)
    ∧ (key ∉ fields ∨ key ∉ all_fields → r !! key = None).

(** A row of level [level] as every path of the page builds it: [PartNo]
    holds a string and [Level] the level. *)
Definition linked (level : Z) (r : row) : Prop :=
  (∃ s, r !! "PartNo" = Some (VStr s)) ∧ r !! "Level" = Some (VInt level).

(** The keys an update leaves alone. *)
Definition keeps (keys : list string) (g : row → row) : Prop :=
  ∀ r k, k ∈ keys → g r !! k = r !! k.

(** The fields the random defaults, the propagation of Revision and
    Location and the page's other updates never write. *)
Definition linkage_keys : list string :=
  ["PartNo"; "Level"; "Quantity"; "Parent"; "Sequence"].

(** The manual rows of a group configuration are the dictionaries the
    section builds from the widgets. *)
Definition from_widgets `{FloatModel} (level : Z) (cfg : group_config) : Prop :=
  match cfg with
  | ManualGroup parent_of _ rows =>
      Forall (fun r => ∃ j c, r = manual_group_row level parent_of j c) rows
  | RandomGroup _ _ _ _ => True
  end.

(** The parent a group configuration declares. *)
Definition config_parent (cfg : group_config) : value :=
  match cfg with
  | RandomGroup p _ _ _ => p
  | ManualGroup p _ _ => p
  end.

(** [level2_partnos_for_l3] and [level2_partnos_manufactured], from the
    Level 2 configuration. *)
Definition level2_partnos_for_l3_of (level2_config : list group_config) : list value :=
  filter (fun p => truthy p = true) (manual_partnos_of level2_config).

Definition level2_partnos_manufactured_of (level2_config : list group_config)
    : list value :=
  filter (fun pno =>
            in_M_F (source_of (level2_partno_to_source_of level2_config) pno) = true)
         (level2_partnos_for_l3_of level2_config).

(** The manual rows of a configuration. *)
Definition manual_rows_of (configs : list group_config) : list row :=
  flat_map (fun cfg =>
    match cfg with
    | ManualGroup _ _ rows => rows
    | RandomGroup _ _ _ _ => []
    end) configs.

(** The state [main] starts the sections in: the counter has been reset. *)
Definition after_reset (w : world) : world :=
  {| part_number_counter := 0; tape := tape w; cursor := cursor w |}.

(** None of the four required fields is [None] or empty. *)
Definition required_present (r : row) : Prop :=
  ∀ fld, fld ∈ REQUIRED_FIELDS → in_none_empty (get fld r) = false.

(** The category/source rule on a row. *)
Definition category_rule (r : row) : Prop :=
  (get "Category" r = VStr "P" → get "Source" r = VStr "M" ∨ get "Source" r = VStr "F")
  ∧ (get "Category" r = VStr "X" → get "Source" r = VStr "P").

(** The rows of levels 1 to 3 as [main] hands them to
    [append_row_by_headers], from the rows assembled for each level. *)
Definition finished `{FloatModel} (f : Form) (rows : list row) : list row :=
  clear_self_parent <$> propagate_parent_fields f (resequence f rows).

(** What the propagation of Revision and Location does to one row. *)
Definition propagate_row (f : Form) (r : row) : row :=
  let r := if apply_revision_to_all f
           then <["Revision" := or_none (w_revision (parent f))]> r else r in
  if apply_location_to_all f
  then <["Location" := or_none (w_location (parent f))]> r else r.

(** The test of [clear_self_parent]. *)
Definition self_parent `{FloatModel} (r : row) : bool :=
  truthy (get "PartNo" r) && truthy (get "Parent" r)
  && String.eqb (strip (py_str (get "PartNo" r))) (strip (py_str (get "Parent" r))).

(** The errors of the parent part and of the Level 1 rows. *)
Definition upper_errors `{FloatModel} (f : Form) (child_data : list row) : list message :=
  (check_parent (parent_row_of f) ++ check_children child_data)%list.

(** The errors of the Level 2 and Level 3 rows, once assembled. *)
Definition lower_errors (f : Form) (l2 l3 : list row) : list message :=
  mjoin (check_part <$> (resequence f l2 ++ resequence f l3)%list).

(** The messages the page shows as errors. *)
Definition reported (pg : page) : list message :=
  omap (fun n => match n with ErrorNotice m => Some m | _ => None end) (notices pg).

(** The data rows written for the three lists of assembled rows. *)
Definition written `{FloatModel} (f : Form) (pr : row) (l1 l2 l3 : list row) : sheet :=
  parent_values f (template_headers f) pr
  :: (row_cells (template_headers f)
      <$> (finished f l1 ++ finished f l2 ++ finished f l3)%list).

(** The template's header row differs from the expected one. *)
Definition header_mismatch (f : Form) : bool :=
  negb (bool_decide (template_headers f = TEMPLATE_HEADERS)).

(** The page goes on to draw the level sections: the template is accepted
    and a parent part number has been entered. *)
Definition proceeds (f : Form) : Prop :=
  header_mismatch f && negb (continue_anyway f) = false
  ∧ w_partno (parent f) ≠ "".

(** The notices of the page before the button is looked at. *)
Definition shown_notices (f : Form) (sec2 sec3 : section) : list notice :=
  ((if header_mismatch f then [HeaderMismatchWarning] else [])
   ++ sec_notices sec2 ++ sec_notices sec3)%list.

(** The cell of a written row under the column [h]. *)
Fixpoint cell (headers : list string) (h : string) (cells : list value) : value :=
  match headers, cells with
  | h' :: headers', c :: cells' =>
      if String.eqb h' h then c else cell headers' h cells'
  | _, _ => VNone
  end.

(** A row as [main] holds it just before [clear_self_parent]: checked,
    resequenced and with the parent's Revision and Location applied.
    [i] is its index within its level. *)
Definition checked_row (f : Form) (level : Z) (i : nat) (b : row) : Prop :=
  (∃ s, b !! "PartNo" = Some (VStr s) ∧ s ≠ "")
  ∧ b !! "Level" = Some (VInt level)
  ∧ b !! "Sequence" = Some (VInt ((Z.of_nat i + 1) * sequence_increment f))
  ∧ in_none_empty (get "Quantity" b) = false
  ∧ in_none_empty (get "Parent" b) = false
  ∧ category_rule b.

(** The rows of the three levels before [clear_self_parent]. *)
Definition before_clearing `{FloatModel} (f : Form) (rows : list row) : list row :=
  propagate_parent_fields f (resequence f rows).

(** A category/source message. *)
Definition is_category_error (m : message) : bool :=
  match m with
  | PhantomSource _ | ExcludeSource _ => true
  | _ => false
  end.

(** The two combinations [_validate_category_source] objects to. *)
Definition violates (r : row) : Prop :=
  (get "Category" r = VStr "P" ∧ in_M_F (get "Source" r) = false)
  ∨ (get "Category" r = VStr "X" ∧ get "Source" r ≠ VStr "P").

(** [v in (None, "", [])] fails. *)
Definition present (v : value) : Prop := v ≠ VNone ∧ v ≠ VStr "".

(** *** Example pages *)

(** The widgets of one part, all at their defaults but the part number, the
    Source and the Category. *)
Definition part (partno source category : string) : PartForm :=
  {| w_partno := partno; w_desc := ""; w_qty := 1; w_um := "EA";
     w_source_label := source; w_pl := ""; w_revision := ""; w_cost := None;
     w_location := ""; w_category_label := category; w_leadtime := "";
     w_drawing := ""; w_altdesc1 := ""; w_altdesc2 := ""; w_descextra := "";
     w_issue_um := ""; w_consumption := ""; w_memo1 := ""; w_memo2 := "";
     w_sortcode := ""; w_tag := ""; w_bomcomplete := ""; w_bomcomments := "";
     w_router := "" |}.

(** A manual group of one part under the first parent on offer. *)
Definition one_part_group (p : PartForm) : GroupForm :=
  {| g_parent_choice := 0; g_count := 1; g_random := false; g_manufactured := 0;
     g_fields := []; g_part := fun _ => p |}.

(** A level section with [n] manual groups of the part [p] and, when
    [per_parent] is set, random parts under every manufactured parent. *)
Definition level_of (per_parent : bool) (n : Z) (p : PartForm) : LevelForm :=
  {| per_parent_random := per_parent; per_parent_count := 2;
     per_parent_manufactured := 1;
     per_parent_fields := ["PartNo"; "Description"; "Quantity"; "Cost"];
     num_groups := n; random_all := false; all_manufactured := 0;
     all_fields_chosen := ["PartNo"; "Description"; "Quantity"; "Cost"];
     group := fun _ => one_part_group p |}.

(** A page with the parent "TOP", two manual Level 1 parts [c1] and [c2],
    and the given Level 2 and Level 3 sections. *)
Definition page_form (c1 c2 : PartForm) (l2 l3 : LevelForm) (clicked : bool) : Form :=
  {| template_headers := TEMPLATE_HEADERS; continue_anyway := false;
     parent := part "TOP" "Manufactured to Stock" "Normal";
     apply_revision_to_all := false; apply_location_to_all := false;
     sequence_increment := 10;
     use_random_children := false; child_count := 2; l1_manufactured_count := 0;
     fields_for_random := [];
     child := fun i => match i with O => c1 | _ => c2 end;
     level2 := l2; level3 := l3;
     generate_clicked := clicked |}.

(** A Level 1 part has the parent's own part number; a manual Level 2 part
    under it; random Level 2 parts under every manufactured Level 1 part. *)
Definition nested_form : Form :=
  page_form (part "TOP" "Manufactured to Job" "Normal")
            (part "C2" "Purchase to Stock" "Exclude")
            (level_of true 1 (part "D1" "Manufactured to Stock" "Phantom"))
            (level_of false 0 (part "" "—" "Normal")) true.

(** The first Level 1 part has no part number and is a Phantom purchased
    to stock. *)
Definition unnamed_phantom_form : Form :=
  page_form (part "" "Purchase to Stock" "Phantom")
            (part "C2" "Purchase to Stock" "Normal")
            (level_of false 0 (part "" "—" "Normal"))
            (level_of false 0 (part "" "—" "Normal")) true.

(** No Level 1 part has a part number or is manufactured; one Level 2 group
    is asked for. *)
Definition unnamed_children_form : Form :=
  page_form (part "" "Purchase to Stock" "Normal")
            (part "" "Purchase to Job" "Normal")
            (level_of false 1 (part "D1" "Manufactured to Stock" "Normal"))
            (level_of false 0 (part "" "—" "Normal")) false.

(** The second Level 1 part breaks the category rule and the manual Level 2
    part has no part number. *)
Definition two_faults_form : Form :=
  page_form (part "C1" "Manufactured to Stock" "Normal")
            (part "C2" "Purchase to Stock" "Phantom")
            (level_of false 1 (part "" "Purchase to Stock" "Normal"))
            (level_of false 0 (part "" "—" "Normal")) true.

(** The page of a form, run with [sample_floats] from [sample_world]. *)
Definition sample_run (f : Form) : outcome page :=
  @main sample_floats 1 f sample_world.

Definition page_of (o : outcome page) : page :=
  match o with
  | Done pg _ => pg
  | _ => {| notices := []; download := None |}
  end.

Definition world_of {A} (o : outcome A) : world :=
  match o with
  | Done _ w => w
  | _ => sample_world
  end.

Definition sheet_of (o : outcome page) : sheet :=
  default [] (download (page_of o)).

(** The Level 1 rows of a form's page. *)
Definition level1_rows_of (f : Form) : list row :=
  default [] (value_of (@level1_section sample_floats 1 f (after_reset sample_world))).

(** The second pass of the validation, run whatever the first pass found. *)
Definition second_pass `{FloatModel} (fuel : nat) (f : Form) : M (list message) :=
  let* levels := render_levels fuel f in
  let '(child_data, sec2, sec3) := levels in
  let* lower := assemble_lower fuel f child_data sec2 sec3 in
  ret (lower_errors f lower.1 lower.2).

(** *** models.py: the methods of [BOM] *)

Module BOMMethods.
Import Models.

(** [BOM.__post_init__]: a missing [metadata] becomes the empty dict. *)
Definition BOM__post_init__ (self : BOM) : BOM :=
  {| name := name self; version := version self; date := date self;
     items := items self;
     metadata := match metadata self with None => Some ∅ | Some m => Some m end |}.

(** [BOM.add_item]: [self.items.append(item)], as the BOM after the call. *)
Definition add_item (self : BOM) (item : BOMItem) : BOM :=
  {| name := name self; version := version self; date := date self;
     items := (items self ++ [item])%list;
     metadata := metadata self |}.

(** [BOM.__len__] *)
Definition __len__ (self : BOM) : nat := length (items self).

(** The part numbers of a BOM, each once. *)
Definition part_numbers (self : BOM) : list string :=
  remove_dups (part_number <$> items self).

End BOMMethods.

(** *** Reading a short part number back *)

Definition is_digit (c : ascii) : bool :=
  ((48 <=? N_of_ascii c)%N && (N_of_ascii c <=? 57)%N)%bool.

(** The characters before the first digit, and the rest. *)
Fixpoint letters (s : string) : string :=
  match s with
  | String c rest => if is_digit c then "" else String c (letters rest)
  | EmptyString => ""
  end.

Fixpoint digits_part (s : string) : string :=
  match s with
  | String c rest => if is_digit c then s else digits_part rest
  | EmptyString => ""
  end.

(** The index of a one- or two-letter prefix. *)
Definition prefix_index (p : string) : Z :=
  match p with
  | String a EmptyString => Z.of_N (N_of_ascii a) - 65
  | String a (String b EmptyString) =>
      26 + 26 * (Z.of_N (N_of_ascii a) - 65) + (Z.of_N (N_of_ascii b) - 65)
  | _ => -1
  end.

(** The counter value a short part number was made from. *)
Definition decode_partno (s : string) : Z :=
  prefix_index (letters s) * 1000 + num_of (digits_part s) - 1.

(** The values [random_row_for_child] draws for a key. *)
Definition field_range (key : string) (x : value) : Prop :=
  if decide (key = "Quantity") then ∃ n, x = VInt n ∧ (1 ≤ n ≤ 10)%Z
  else if decide (key = "Leadtime") then ∃ n, x = VInt n ∧ (1 ≤ n ≤ 21)%Z
  else if decide (key = "Source") then ∃ s, x = VStr s ∧ s ∈ SOURCES
  else if decide (key = "Location") then ∃ s, x = VStr s ∧ s ∈ LOCATIONS
  else if decide (key = "Productline") then ∃ s, x = VStr s ∧ s ∈ PRODUCTLINES
  else if decide (key = "SortCode") then ∃ s, x = VStr s ∧ s ∈ SORTCODES
  else if decide (key = "Category") then x = VStr "Y" ∨ x = VStr ""
  else if decide (key = "IssueUM") then x = VStr "EA"
  else if decide (key = "BomComplete") then x = VStr ""
  else if decide (key = "Router") then x = VStr ""
  else True.

(** The rows of a batch in short form took the counter values [ks], in
    this order. *)
Definition numbered_rows (fields : gset string) (parent_partno : value)
    (level : Z) (xs : list Z) (ks : list Z) (rows : list row) : Prop :=
  length ks = length xs ∧ length rows = length xs
  ∧ ∀ (i : nat) r, rows !! i = Some r →
      ∃ k x, ks !! i = Some k ∧ xs !! i = Some x
        ∧ row_post fields (partno_at k) parent_partno (x + 1) level r.

(** [ks] increases strictly within [lo, hi). *)
Definition increasing_within (lo hi : Z) (ks : list Z) : Prop :=
  (∀ (i : nat) k, ks !! i = Some k → (lo ≤ k < hi)%Z)
  ∧ ∀ (i j : nat) ki kj, (i < j)%nat → ks !! i = Some ki → ks !! j = Some kj →
      (ki < kj)%Z.

(** Two Level 1 parts share the part number "C1"; the first is purchased,
    the second manufactured; one random Level 2 group is asked for. *)
Definition shadowed_form : Form :=
  page_form (part "C1" "Purchase to Stock" "Normal")
            (part "C1" "Manufactured to Stock" "Normal")
            {| per_parent_random := false; per_parent_count := 2;
               per_parent_manufactured := 0; per_parent_fields := [];
               num_groups := 1; random_all := true; all_manufactured := 0;
               all_fields_chosen := ["PartNo"];
               group := fun _ => one_part_group (part "D1" "—" "Normal") |}
            (level_of false 0 (part "" "—" "Normal")) false.

(** The parent "TOP" has Revision "R07" and Location "WH", both applied to
    all components; three Level 1 parts are generated at random, the first
    of them manufactured. *)
Definition stamped_form : Form :=
  {| template_headers := TEMPLATE_HEADERS; continue_anyway := false;
     parent :=
       {| w_partno := "TOP"; w_desc := "Top assembly"; w_qty := 1; w_um := "EA";
          w_source_label := "Manufactured to Stock"; w_pl := ""; w_revision := "R07";
          w_cost := None; w_location := "WH"; w_category_label := "Normal";
          w_leadtime := ""; w_drawing := ""; w_altdesc1 := ""; w_altdesc2 := "";
          w_descextra := ""; w_issue_um := ""; w_consumption := ""; w_memo1 := "";
          w_memo2 := ""; w_sortcode := ""; w_tag := ""; w_bomcomplete := "";
          w_bomcomments := ""; w_router := "" |};
     apply_revision_to_all := true; apply_location_to_all := true;
     sequence_increment := 100;
     use_random_children := true; child_count := 3; l1_manufactured_count := 1;
     fields_for_random := ["Revision"; "Source"; "Category"];
     child := fun _ => part "" "—" "Normal";
     level2 := level_of false 0 (part "" "—" "Normal");
     level3 := level_of false 0 (part "" "—" "Normal");
     generate_clicked := true |}.

(** The row's Parent is one of the values [allowed]. *)
Definition parent_in (allowed : value → Prop) (r : row) : Prop :=
  ∃ p, r !! "Parent" = Some p ∧ allowed p.

(** [p] is the part number of a row of [above] whose Source is "M" or "F". *)
Definition manufactured_in (above : list row) (p : value) : Prop :=
  ∃ c, c ∈ above ∧ get "PartNo" c = p ∧ in_M_F (get "Source" c) = true.

(* ===================================================================== *)
(** * Properties                                                          *)
(* ===================================================================== *)

Lemma get_next_partno_run w :
  get_next_partno w =
  Done (partno_at (part_number_counter w))
       (World (part_number_counter w + 1) (tape w) (cursor w)).
Proof. reflexivity. Qed.

Lemma nth_call_run k : ∀ w,
  nth_call k w =
  Done (partno_at (part_number_counter w + Z.of_nat k))
       (World (part_number_counter w + Z.of_nat k + 1) (tape w) (cursor w)).
Proof.
  induction k as [|k IH]; intros w.
  - cbn [nth_call]. rewrite get_next_partno_run.
    rewrite Z.add_0_r. reflexivity.
  - cbn [nth_call]. unfold bind at 1. rewrite get_next_partno_run, IH.
    cbn [part_number_counter tape cursor].
    replace (part_number_counter w + 1 + Z.of_nat k)
      with (part_number_counter w + Z.of_nat (S k)) by lia.
    reflexivity.
Qed.

Lemma call_after_reset_value (n : Z) w :
  (1 ≤ n)%Z →
  value_of (call_after_reset n w) = Some (partno_at (n - 1)).
Proof.
  intros Hn. unfold call_after_reset, bind, reset_part_number_counter, write_counter.
  rewrite nth_call_run. cbn [value_of part_number_counter].
  do 2 f_equal. lia.
Qed.

Lemma format_three_digits_check :
  forallb (fun n => String.eqb (format_0d 3 (Z.of_nat n)) (three_digits (Z.of_nat n)))
          (seq 0 1000) = true.
Proof. vm_compute. reflexivity. Qed.

Lemma format_three_digits (n : Z) :
  (0 ≤ n < 1000)%Z → format_0d 3 n = three_digits n.
Proof.
  intros Hn. pose proof format_three_digits_check as H.
  rewrite forallb_forall in H.
  specialize (H (Z.to_nat n)).
  rewrite Z2Nat.id in H by lia.
  apply String.eqb_eq, H, in_seq. lia.
Qed.

Lemma partno_at_split (i j : Z) :
  (0 ≤ j < 1000)%Z →
  partno_at (1000 * i + j) = _prefix_from_index i +:+ format_0d 3 (j + 1).
Proof.
  intros Hj. unfold partno_at.
  rewrite (Z.mul_comm 1000 i), Z.div_add_l, Z.div_small by lia.
  rewrite (Z.add_comm (i * 1000) j), Z_mod_plus_full, Z.mod_small by lia.
  rewrite Z.add_0_r. reflexivity.
Qed.

(** How [get_next_partno] numbers: after [reset_part_number_counter] the
    first 999 calls yield "A001" to "A999", and call number
    [1000 * i + j + 1] with [0 <= j < 999] yields the prefix of index [i]
    followed by [j + 1] on three digits; the prefixes run "A" to "Z", then
    "AA", "AB", ...  The prefix index stays below 4992, where the letters
    are code points below 256. *)
Theorem short_partno_sequence (w : world) :
  (∀ n : Z, (1 ≤ n ≤ 999)%Z →
     value_of (call_after_reset n w) = Some ("A" +:+ three_digits n))
  ∧ value_of (call_after_reset 1001 w) = Some "B001"
  ∧ value_of (call_after_reset 26001 w) = Some "AA001"
  ∧ (∀ i j : Z, (0 ≤ i < 4992)%Z → (0 ≤ j < 999)%Z →
       value_of (call_after_reset (1000 * i + j + 1) w)
       = Some (_prefix_from_index i +:+ three_digits (j + 1)))
  ∧ _prefix_from_index <$> [0; 1; 25; 26; 27; 51; 52]
    = ["A"; "B"; "Z"; "AA"; "AB"; "AZ"; "BA"].
Proof.
  assert (Hgen : ∀ i j : Z, (0 ≤ i)%Z → (0 ≤ j < 999)%Z →
            value_of (call_after_reset (1000 * i + j + 1) w)
            = Some (_prefix_from_index i +:+ three_digits (j + 1))).
  { intros i j Hi Hj.
    rewrite call_after_reset_value by lia.
    replace (1000 * i + j + 1 - 1) with (1000 * i + j) by lia.
    rewrite partno_at_split by lia.
    rewrite format_three_digits by lia. reflexivity. }
  split; [|split; [|split; [|split]]].
  - intros n Hn. specialize (Hgen 0 (n - 1)).
    replace (1000 * 0 + (n - 1) + 1) with n in Hgen by lia.
    replace (n - 1 + 1) with n in Hgen by lia.
    apply Hgen; lia.
  - rewrite call_after_reset_value by lia. vm_compute. reflexivity.
  - rewrite call_after_reset_value by lia. vm_compute. reflexivity.
  - intros i j Hi Hj. apply Hgen; lia.
  - vm_compute. reflexivity.
Qed.

(** C1.  After a reset the 1000th call of [get_next_partno] yields "A1000",
    four digits under the format [03d], where the documented sequence
    "A001, A002, ... A999, B001" has "B001": the number is
    [counter % 1000 + 1], which runs from 1 to 1000.  With 1000 calls to a
    prefix the 27001st call yields "AB001", not "AA001". *)
Lemma short_partno_1000th_27001st :
  value_of (call_after_reset 1000 sample_world) = Some "A1000"
  ∧ value_of (call_after_reset 1000 sample_world) ≠ Some "B001"
  ∧ value_of (call_after_reset 27001 sample_world) = Some "AB001"
  ∧ value_of (call_after_reset 27001 sample_world) ≠ Some "AA001".
Proof.
  rewrite !call_after_reset_value by lia.
  repeat split; try (vm_compute; reflexivity); vm_compute; discriminate.
Qed.

Section StringFacts.

Lemma str_app_cons (x : ascii) (a b : string) :
  String x a +:+ b = String x (a +:+ b).
Proof. reflexivity. Qed.

Lemma str_app_nil_l (b : string) : "" +:+ b = b.
Proof. reflexivity. Qed.

Lemma str_app_assoc (a b c : string) : (a +:+ b) +:+ c = a +:+ (b +:+ c).
Proof.
  induction a as [|x a IH]; [done|]. by rewrite !str_app_cons, IH.
Qed.

Lemma str_app_nil_r (a : string) : a +:+ "" = a.
Proof. induction a as [|x a IH]; [done|]. by rewrite str_app_cons, IH. Qed.

Lemma str_length_app (a b : string) :
  String.length (a +:+ b) = (String.length a + String.length b)%nat.
Proof.
  induction a as [|x a IH]; [done|]. rewrite str_app_cons. simpl. by rewrite IH.
Qed.

Lemma last_char_cons (c : ascii) (s : string) :
  s ≠ "" → last_char (String c s) = last_char s.
Proof. destruct s; done. Qed.

Lemma last_char_app (a b : string) :
  b ≠ "" → last_char (a +:+ b) = last_char b.
Proof.
  intros Hb. induction a as [|c a IH]; [reflexivity|].
  change (String c a +:+ b) with (String c (a +:+ b)).
  rewrite last_char_cons; [done|].
  destruct a; [done|discriminate].
Qed.

Lemma digits_acc_app (fuel : nat) : ∀ n acc,
  digits_acc fuel n acc = digits_acc fuel n "" +:+ acc.
Proof.
  induction fuel as [|f IH]; intros n acc; cbn [digits_acc].
  - reflexivity.
  - destruct (n <? 10)%Z; [reflexivity|].
    rewrite (IH _ (String _ acc)), (IH _ (String _ "")).
    rewrite str_app_assoc. reflexivity.
Qed.

Lemma digits_acc_snoc (fuel : nat) (n : Z) :
  ∃ front, digits_acc fuel n "" = front +:+ String (digit_char (n mod 10)) "".
Proof.
  destruct fuel as [|f]; cbn [digits_acc].
  - by exists "".
  - destruct (n <? 10)%Z; [by exists ""|].
    rewrite digits_acc_app. eauto.
Qed.

Lemma digits_last (n : Z) : last_char (digits n) = Some (digit_char (n mod 10)).
Proof.
  unfold digits. destruct (digits_acc_snoc (Z.to_nat (Z.log2 n)) n) as [front ->].
  by rewrite last_char_app.
Qed.

Lemma digits_acc_head (fuel : nat) : ∀ n acc,
  ∃ d rest, (0 ≤ d < 10)%Z ∧ digits_acc fuel n acc = String (digit_char d) rest.
Proof.
  induction fuel as [|f IH]; intros n acc; cbn [digits_acc].
  - exists (n mod 10), acc. split; [apply Z.mod_pos_bound; lia|done].
  - destruct (n <? 10)%Z; [|apply IH].
    exists (n mod 10), acc. split; [apply Z.mod_pos_bound; lia|done].
Qed.

Lemma digit_char_not_sign (d : Z) :
  (0 ≤ d < 10)%Z → (Ascii.eqb (digit_char d) "-" || Ascii.eqb (digit_char d) "+")%bool = false.
Proof.
  intros Hd.
  assert (d = 0 ∨ d = 1 ∨ d = 2 ∨ d = 3 ∨ d = 4 ∨ d = 5 ∨ d = 6 ∨ d = 7 ∨ d = 8 ∨ d = 9)
    as Hc by lia.
  repeat destruct Hc as [-> | Hc]; try subst d; reflexivity.
Qed.

Lemma zfill_digits (width : nat) (n : Z) :
  zfill width (digits n) = zeros (width - String.length (digits n)) +:+ digits n.
Proof.
  unfold digits. destruct (digits_acc_head (Z.to_nat (Z.log2 n)) n "") as (d & rest & Hd & ->).
  unfold zfill. by rewrite digit_char_not_sign.
Qed.

Lemma str_int_nonneg (n : Z) : (0 ≤ n)%Z → str_int n = digits n.
Proof. intros Hn. unfold str_int. destruct (Z.ltb_spec n 0); [lia|done]. Qed.

Lemma digits_nonempty (n : Z) : digits n ≠ "".
Proof.
  unfold digits. destruct (digits_acc_head (Z.to_nat (Z.log2 n)) n "") as (d & rest & _ & ->).
  done.
Qed.

Lemma format_0d_last (width : nat) (n : Z) :
  (0 ≤ n)%Z → last_char (format_0d width n) = Some (digit_char (n mod 10)).
Proof.
  intros Hn. unfold format_0d. rewrite str_int_nonneg, zfill_digits by done.
  rewrite last_char_app by apply digits_nonempty. apply digits_last.
Qed.

Lemma digit_char_inj (a b : Z) :
  (0 ≤ a < 10)%Z → (0 ≤ b < 10)%Z → digit_char a = digit_char b → a = b.
Proof.
  intros Ha Hb. unfold digit_char. intros E.
  apply (f_equal N_of_ascii) in E.
  rewrite !N_ascii_embedding in E by lia. lia.
Qed.

Lemma format_0d_nonempty (width : nat) (n : Z) : (0 ≤ n)%Z → format_0d width n ≠ "".
Proof.
  intros Hn E. pose proof (format_0d_last width n Hn) as H. by rewrite E in H.
Qed.

(** Two consecutive short part numbers end in different digits. *)
Lemma partno_at_last (c : Z) :
  last_char (partno_at c) = Some (digit_char ((c + 1) mod 10)).
Proof.
  unfold partno_at.
  assert (0 ≤ c mod 1000 < 1000)%Z by (apply Z.mod_pos_bound; lia).
  rewrite last_char_app by (apply format_0d_nonempty; lia).
  rewrite format_0d_last by lia. do 2 f_equal.
  pose proof (Z.div_mod c 1000 ltac:(lia)) as E.
  replace (c mod 1000 + 1) with (c + 1 + (- (100 * (c / 1000))) * 10) by lia.
  apply Z_mod_plus_full.
Qed.

Lemma partno_at_succ_ne (c : Z) : partno_at c ≠ partno_at (c + 1).
Proof.
  intros E. apply (f_equal last_char) in E. rewrite !partno_at_last in E.
  injection E as E. apply digit_char_inj in E; try (apply Z.mod_pos_bound; lia).
  pose proof (Z.mod_pos_bound (c + 1) 10 ltac:(lia)) as Hr.
  rewrite <- (Z.add_mod_idemp_l (c + 1) 1 10) in E by lia.
  destruct (Z.eq_dec ((c + 1) mod 10) 9) as [E9|N9].
  - rewrite E9 in E. vm_compute in E. discriminate.
  - rewrite (Z.mod_small ((c + 1) mod 10 + 1) 10) in E by lia. lia.
Qed.

Lemma digit_value_digit_char (d : Z) :
  (0 ≤ d < 10)%Z → digit_value (digit_char d) = d.
Proof.
  intros Hd. unfold digit_value, digit_char.
  rewrite N_ascii_embedding by lia. lia.
Qed.

Lemma num_of_nonneg (s : string) : (0 ≤ num_of s)%Z.
Proof.
  induction s as [|c s IH]; simpl; [lia|].
  unfold digit_value. pose proof (Z.pow_nonneg 10 (Z.of_nat (String.length s))). nia.
Qed.

Lemma num_of_app (a b : string) :
  num_of (a +:+ b) = num_of a * 10 ^ Z.of_nat (String.length b) + num_of b.
Proof.
  induction a as [|c a IH]; [rewrite str_app_nil_l; simpl; lia|].
  rewrite str_app_cons. simpl num_of. rewrite IH, str_length_app.
  rewrite Nat2Z.inj_add, Z.pow_add_r by lia. ring.
Qed.

Lemma num_of_zeros (k : nat) : num_of (zeros k) = 0.
Proof. induction k as [|k IH]; simpl; [done|]. rewrite IH. reflexivity. Qed.

Lemma num_of_digits_acc (fuel : nat) : ∀ n acc,
  (0 ≤ n < 10 * 10 ^ Z.of_nat fuel)%Z →
  num_of (digits_acc fuel n acc)
  = n * 10 ^ Z.of_nat (String.length acc) + num_of acc.
Proof.
  induction fuel as [|f IH]; intros n acc Hn; cbn [digits_acc].
  - simpl in Hn. simpl num_of.
    rewrite digit_value_digit_char by (apply Z.mod_pos_bound; lia).
    rewrite Z.mod_small by lia. reflexivity.
  - destruct (Z.ltb_spec n 10) as [Hlt|Hge].
    + simpl num_of. rewrite digit_value_digit_char by (apply Z.mod_pos_bound; lia).
      rewrite Z.mod_small by lia. reflexivity.
    + rewrite IH.
      * simpl num_of. simpl String.length.
        rewrite digit_value_digit_char by (apply Z.mod_pos_bound; lia).
        rewrite Nat2Z.inj_succ, Z.pow_succ_r by lia.
        pose proof (Z.div_mod n 10 ltac:(lia)) as E.
        set (p := 10 ^ Z.of_nat (String.length acc)) in *.
        rewrite E at 3. ring.
      * rewrite Nat2Z.inj_succ, Z.pow_succ_r in Hn by lia.
        split; [apply Z.div_pos; lia|].
        apply Z.div_lt_upper_bound; lia.
Qed.

Lemma log2_fuel_enough (n : Z) :
  (0 ≤ n)%Z → (n < 10 * 10 ^ Z.of_nat (Z.to_nat (Z.log2 n)))%Z.
Proof.
  intros Hn. rewrite Z2Nat.id by apply Z.log2_nonneg.
  destruct (Z.eq_dec n 0) as [->|Hnz].
  - simpl. lia.
  - pose proof (Z.log2_spec n ltac:(lia)) as [_ Hhi].
    rewrite Z.pow_succ_r in Hhi by apply Z.log2_nonneg.
    assert (2 ^ Z.log2 n ≤ 10 ^ Z.log2 n)%Z
      by (apply Z.pow_le_mono_l; lia).
    lia.
Qed.

Lemma num_of_digits (n : Z) : (0 ≤ n)%Z → num_of (digits n) = n.
Proof.
  intros Hn. unfold digits. rewrite num_of_digits_acc.
  - simpl. lia.
  - split; [done|]. by apply log2_fuel_enough.
Qed.

Lemma num_of_zfill_digits (width : nat) (n : Z) :
  (0 ≤ n)%Z → num_of (zfill width (digits n)) = n.
Proof.
  intros Hn. rewrite zfill_digits, num_of_app, num_of_zeros, num_of_digits by done.
  lia.
Qed.

Lemma digits_acc_length (fuel : nat) : ∀ n acc (k : nat),
  (1 ≤ k)%nat → (0 ≤ n < 10 ^ Z.of_nat k)%Z →
  (String.length (digits_acc fuel n acc) ≤ k + String.length acc)%nat.
Proof.
  induction fuel as [|f IH]; intros n acc k Hk Hn; cbn [digits_acc].
  - simpl. lia.
  - destruct (Z.ltb_spec n 10) as [Hlt|Hge]; [simpl; lia|].
    destruct k as [|[|k]]; [lia|simpl in Hn; lia|].
    specialize (IH (n / 10) (String (digit_char (n mod 10)) acc) (S k)).
    simpl String.length in IH.
    etrans; [apply IH|]; [lia| |lia].
    rewrite (Nat2Z.inj_succ (S k)), Z.pow_succ_r in Hn by lia.
    split; [apply Z.div_pos; lia|]. apply Z.div_lt_upper_bound; lia.
Qed.

Lemma zeros_length (k : nat) : String.length (zeros k) = k.
Proof. induction k; simpl; congruence. Qed.

Lemma zfill_digits_length (width k : nat) (n : Z) :
  (1 ≤ k)%nat → (width ≤ k)%nat → (0 ≤ n < 10 ^ Z.of_nat k)%Z →
  (String.length (zfill width (digits n)) ≤ k)%nat.
Proof.
  intros Hk Hw Hn. rewrite zfill_digits, str_length_app, zeros_length.
  pose proof (digits_acc_length (Z.to_nat (Z.log2 n)) n "" k Hk Hn) as H.
  fold (digits n) in H. simpl in H. lia.
Qed.

Lemma str_app_eq_prefix (a : string) : ∀ b x y,
  a +:+ x = b +:+ y → ∃ t, a = b +:+ t ∨ b = a +:+ t.
Proof.
  induction a as [|c a IH]; intros b x y E.
  - exists b. right. reflexivity.
  - destruct b as [|d b].
    + exists (String c a). left. reflexivity.
    + rewrite !str_app_cons in E. injection E as -> E.
      destruct (IH _ _ _ E) as [t [->| ->]]; exists t; [left|right]; reflexivity.
Qed.

(** The zero-padded counter prefixes of two consecutive long part numbers
    tell the part numbers apart, whatever follows them. *)
Lemma long_prefix_succ_ne (c : Z) (x y : string) :
  (0 ≤ c)%Z →
  zfill 6 (digits c) +:+ x ≠ zfill 6 (digits (c + 1)) +:+ y.
Proof.
  intros Hc E.
  destruct (str_app_eq_prefix _ _ _ _ E) as [t [Ht|Ht]];
    pose proof (f_equal num_of Ht) as Hn;
    rewrite num_of_app, !num_of_zfill_digits in Hn by lia;
    pose proof (num_of_nonneg t) as Hpos.
  - assert (1 ≤ 10 ^ Z.of_nat (String.length t))%Z by (pose proof (Z.pow_pos_nonneg 10 (Z.of_nat (String.length t))); lia).
    nia.
  - destruct t as [|d t].
    + simpl in Hn. lia.
    + simpl String.length in Hn. rewrite Nat2Z.inj_succ, Z.pow_succ_r in Hn by lia.
      assert (1 ≤ 10 ^ Z.of_nat (String.length t))%Z by (pose proof (Z.pow_pos_nonneg 10 (Z.of_nat (String.length t))); lia).
      assert (c = 0) as -> by nia.
      apply (f_equal String.length) in Ht. vm_compute in Ht. lia.
Qed.

End StringFacts.

Section Runs.
Context `{FloatModel}.

Lemma yields_ret {A} (P : A → Prop) (a : A) : P a → yields P (ret a).
Proof. intros HP w. by exists a, w. Qed.

Lemma yields_bind {A B} (P : A → Prop) (Q : B → Prop) (m : M A) (k : A → M B) :
  yields P m → (∀ a, P a → yields Q (k a)) → yields Q (bind m k).
Proof.
  intros Hm Hk w. destruct (Hm w) as (a & w1 & E1 & C1 & Pa).
  destruct (Hk a Pa w1) as (b & w2 & E2 & C2 & Qb).
  exists b, w2. unfold bind. rewrite E1. split; [done|]. split; [congruence|done].
Qed.

Lemma yields_weaken {A} (P Q : A → Prop) (m : M A) :
  (∀ a, P a → Q a) → yields P m → yields Q m.
Proof.
  intros HPQ Hm w. destruct (Hm w) as (a & w1 & E & C & Pa). exists a, w1. auto.
Qed.

Lemma yields_draw : yields (fun _ => True) draw.
Proof. intros w. eexists _, _. split; [reflexivity|]. by split. Qed.

Lemma yields_randint (a b : Z) :
  (a ≤ b)%Z → yields (fun z => (a ≤ z ≤ b)%Z) (randint a b).
Proof.
  intros Hab. eapply yields_bind; [apply yields_draw|].
  intros k _. apply yields_ret.
  pose proof (Z.mod_pos_bound (Z.of_nat k) (b - a + 1) ltac:(lia)). lia.
Qed.

Lemma yields_choice {A} (d : A) (l : list A) : yields (fun _ => True) (choice d l).
Proof. eapply yields_bind; [apply yields_draw|]. intros. by apply yields_ret. Qed.

Lemma yields_choices (alphabet : list ascii) (k : nat) :
  yields (fun _ => True) (choices alphabet k).
Proof.
  induction k as [|k IH]; cbn [choices]; [by apply yields_ret|].
  eapply yields_bind; [apply yields_choice|]. intros c _.
  eapply yields_bind; [apply IH|]. intros. by apply yields_ret.
Qed.

Lemma yields_uniform (a b : Q) : yields (fun _ => True) (uniform a b).
Proof. eapply yields_bind; [apply yields_draw|]. intros. by apply yields_ret. Qed.

Lemma yields_random : yields (fun _ => True) random.
Proof. eapply yields_bind; [apply yields_draw|]. intros. by apply yields_ret. Qed.

Lemma yields_any_bind {A B} (m : M A) (k : A → M B) :
  yields (fun _ => True) m → (∀ a, yields (fun _ => True) (k a)) →
  yields (fun _ => True) (bind m k).
Proof. intros Hm Hk. eapply yields_bind; [exact Hm|]. intros a _. apply Hk. Qed.

Lemma yields_str_value (m : M string) :
  yields (fun _ => True) m → yields (fun _ => True) (str_value m).
Proof. intros Hm. apply yields_any_bind; [done|]. intros. by apply yields_ret. Qed.

Lemma yields_random_revision : yields (fun _ => True) random_revision.
Proof.
  apply yields_any_bind.
  - eapply yields_weaken; [|apply (yields_randint 1 5); lia]. done.
  - intros. by apply yields_ret.
Qed.

(** *** The allocator *)


Lemma get_next_partno_long_run w :
  (0 ≤ part_number_counter w < 10 ^ 18)%Z →
  ∃ suffix w',
    get_next_partno_long w
    = Done ("P" +:+ zfill 6 (digits (part_number_counter w)) +:+ suffix) w'
    ∧ part_number_counter w' = part_number_counter w + 1.
Proof.
  intros Hc. unfold get_next_partno_long.
  destruct (yields_randint 20 50 ltac:(lia) w) as (len & w1 & E1 & C1 & Hlen).
  unfold bind at 1. rewrite E1.
  unfold bind at 1. unfold read_counter at 1.
  unfold bind at 1. unfold write_counter at 1.
  rewrite C1, str_int_nonneg by lia.
  set (prefix := "P" +:+ zfill 6 (digits (part_number_counter w))).
  assert (String.length prefix ≤ 19)%nat as Hp.
  { unfold prefix. rewrite str_app_cons, str_app_nil_l. simpl String.length.
    pose proof (zfill_digits_length 6 18 (part_number_counter w)
                  ltac:(lia) ltac:(lia) ltac:(lia)). lia. }
  destruct (Z.leb_spec (len - Z.of_nat (String.length prefix)) 0) as [Hle|Hgt]; [lia|].
  match goal with |- context [choices ?a ?k] =>
    destruct (yields_choices a k
      {| part_number_counter := part_number_counter w + 1;
         tape := tape w1; cursor := cursor w1 |}) as (suffix & w2 & E2 & C2 & _)
  end.
  exists suffix, w2. unfold bind. rewrite E2. split; [|exact C2].
  unfold ret, prefix. by rewrite str_app_assoc.
Qed.

Lemma next_partno_run (long : bool) w :
  (long = true → (0 ≤ part_number_counter w < 10 ^ 18)%Z) →
  ∃ s w', next_partno long w = Done s w'
    ∧ part_number_counter w' = part_number_counter w + 1
    ∧ is_partno long (part_number_counter w) s.
Proof.
  intros Hc. destruct long; cbn [next_partno is_partno].
  - destruct (get_next_partno_long_run w (Hc eq_refl)) as (suffix & w' & E & C).
    eexists _, w'. split; [exact E|]. split; [exact C|]. by exists suffix.
  - eexists _, _. rewrite get_next_partno_run. done.
Qed.

Lemma is_partno_succ_ne (long : bool) (c : Z) (s1 s2 : string) :
  (long = true → (0 ≤ c)%Z) →
  is_partno long c s1 → is_partno long (c + 1) s2 → s1 ≠ s2.
Proof.
  destruct long; cbn [is_partno].
  - intros Hc [x ->] [y ->] E. rewrite !str_app_cons, !str_app_nil_l in E.
    injection E as E. by apply long_prefix_succ_ne in E; [|auto].
  - intros _ -> ->. apply partno_at_succ_ne.
Qed.

Lemma py_eq_str_true (s : string) (v : value) :
  py_eq (VStr s) v = true → v = VStr s.
Proof.
  destruct v; cbn [py_eq]; try discriminate.
  intros E. apply String.eqb_eq in E. by subst.
Qed.

Lemma py_eq_str_false (s t : string) : s ≠ t → py_eq (VStr s) (VStr t) = false.
Proof. intros Hne. cbn [py_eq]. by apply String.eqb_neq. Qed.

(** The allocation of [random_row_for_child]: one retry is always enough. *)
Lemma allocation_run (fuel : nat) (long : bool) (parent_partno : value) w :
  (1 ≤ fuel)%nat →
  (long = true → (0 ≤ part_number_counter w ∧ part_number_counter w + 2 ≤ 10 ^ 18)%Z) →
  ∃ s w',
    (let* partno0 := next_partno long in
     while_equals_parent fuel (next_partno long) parent_partno partno0) w
    = Done s w'
    ∧ py_eq (VStr s) parent_partno = false
    ∧ (part_number_counter w < part_number_counter w' ≤ part_number_counter w + 2)%Z.
Proof.
  intros Hfuel Hc.
  destruct (next_partno_run long w) as (s0 & w0 & E0 & C0 & P0); [intros; specialize (Hc H0); lia|].
  unfold bind at 1. rewrite E0.
  destruct fuel as [|fuel]; [lia|]. cbn [while_equals_parent].
  destruct (py_eq (VStr s0) parent_partno) eqn:Eq0.
  - destruct (next_partno_run long w0) as (s1 & w1 & E1 & C1 & P1);
      [intros; specialize (Hc H0); lia|].
    unfold bind at 1. rewrite E1.
    apply py_eq_str_true in Eq0. subst parent_partno.
    rewrite C0 in P1.
    assert (s0 ≠ s1) as Hne
      by (eapply is_partno_succ_ne; [|exact P0|exact P1]; intros; specialize (Hc H0); lia).
    exists s1, w1. split; [|split; [|lia]].
    + destruct fuel; cbn [while_equals_parent];
        rewrite py_eq_str_false by done; reflexivity.
    + by apply py_eq_str_false.
  - exists s0, w0. split; [reflexivity|]. split; [done|lia].
Qed.

End Runs.

Section Rows.
Context `{FloatModel}.

Lemma set_if_run (P : value → Prop) key fields (v : M value) (r : row) w :
  yields P v →
  ∃ r' w', set_if key fields v r w = Done r' w'
    ∧ part_number_counter w' = part_number_counter w
    ∧ (∀ k, k ≠ key → r' !! k = r !! k)
    ∧ (key ∈ fields → ∃ x, r' !! key = Some x ∧ P x)
    ∧ (key ∉ fields → r' = r).
Proof.
  intros Hv. unfold set_if. destruct (decide (key ∈ fields)) as [Hin|Hout].
  - destruct (Hv w) as (x & w' & E & C & Px).
    exists (<[key := x]> r), w'. unfold bind. rewrite E.
    split; [done|]. split; [done|]. split; [|split].
    + intros k Hk. by rewrite lookup_insert_ne.
    + intros _. exists x. by rewrite lookup_insert_eq.
    + done.
  - exists r, w. repeat split; try done.
Qed.

Lemma populate_run (P : string → value → Prop) fields
    (table : list (string * M value)) :
  NoDup table.*1 →
  Forall (fun kv => yields (P kv.1) kv.2) table →
  ∀ (r : row) w,
  ∃ r' w', populate fields table r w = Done r' w'
    ∧ part_number_counter w' = part_number_counter w
    ∧ ∀ key,
        (key ∈ fields → key ∈ table.*1 → ∃ x, r' !! key = Some x ∧ P key x)
        ∧ (key ∉ fields ∨ key ∉ table.*1 → r' !! key = r !! key).
Proof.
  induction table as [|[k v] table IH]; intros Hnd Hall r w.
  - exists r, w. split; [done|]. split; [done|]. intros key. split; [|done].
    intros _ Hin. by apply elem_of_nil in Hin.
  - apply NoDup_cons in Hnd as [Hk Hnd]. apply Forall_cons in Hall as [Hv Hall].
    cbn [populate].
    destruct (set_if_run (P k) k fields v r w Hv) as (r1 & w1 & E1 & C1 & Hother & Hin & Hout).
    destruct (IH Hnd Hall r1 w1) as (r2 & w2 & E2 & C2 & Hr2).
    exists r2, w2. unfold bind. rewrite E1. split; [done|]. split; [congruence|].
    intros key. destruct (Hr2 key) as [Hyes Hno]. split.
    + intros Hf Hkey. cbn [fmap list_fmap fst] in Hkey.
      apply elem_of_cons in Hkey as [->|Hkey]; [|by apply Hyes].
      rewrite Hno by (right; exact Hk). by apply Hin.
    + intros Hcase. destruct (decide (key = k)) as [->|Hne].
      * rewrite Hno by (right; exact Hk).
        destruct Hcase as [Hf|Hnk]; [by rewrite (Hout Hf)|].
        exfalso. apply Hnk. cbn. apply elem_of_cons. by left.
      * rewrite <- (Hother key Hne). apply Hno.
        destruct Hcase as [Hf|Hnk]; [by left|right].
        intros Hin'. apply Hnk. cbn. apply elem_of_cons. by right.
Qed.

Lemma field_values_keys partno parent_partno sequence level :
  (field_values partno parent_partno sequence level).*1
  = ["PartNo"; "Revision"; "Description"; "AltDescription1"; "AltDescription2";
     "DescExtra"; "Quantity"; "IssueUM"; "ConsumptionConv"; "UM"; "Cost";
     "Source"; "Drawing"; "Leadtime"; "Level"; "Location"; "Memo1"; "Memo2";
     "Parent"; "Productline"; "Sequence"; "SortCode"; "Tag"; "Category";
     "BomComplete"; "BomComments"; "Router"].
Proof. reflexivity. Qed.

Lemma field_values_nodup partno parent_partno sequence level :
  NoDup (field_values partno parent_partno sequence level).*1.
Proof. rewrite field_values_keys. apply (bool_decide_unpack _). by vm_compute. Qed.

Lemma elem_of_all_fields partno parent_partno sequence level key :
  key ∈ all_fields ↔ key ∈ (field_values partno parent_partno sequence level).*1.
Proof. rewrite field_values_keys. unfold all_fields. by rewrite elem_of_list_to_set. Qed.

Lemma yields_true {A} (P : A → Prop) (m : M A) :
  (∀ a, P a) → yields (fun _ => True) m → yields P m.
Proof. intros HP. apply yields_weaken. auto. Qed.

Lemma field_values_yield partno parent_partno sequence level :
  Forall (fun kv => yields (field_post partno parent_partno sequence level kv.1) kv.2)
         (field_values partno parent_partno sequence level).
Proof.
  unfold field_values.
  repeat (apply Forall_cons; split); try apply Forall_nil;
    cbn [fst snd]; unfold field_post;
    repeat (case_decide; [discriminate|]); try (case_decide; [|done]).
  all: try (apply yields_ret; done).
  all: try (apply yields_true; [done|]).
  all: try (apply yields_str_value).
  all: try apply yields_random_revision.
  all: try apply yields_choice.
  all: try (apply yields_any_bind;
            [first [apply yields_uniform | apply yields_random |
                    eapply yields_weaken; [|apply yields_randint; lia]; done]
            | intros; by apply yields_ret]).
  - unfold int_value. eapply yields_bind; [apply (yields_randint 1 10); lia|].
    intros q Hq. apply yields_ret. eauto.
  - done.
Qed.

Lemma random_row_for_child_run (fuel : nat) (parent_partno : value)
    (sequence level : Z) (fields_to_populate : option (gset string))
    (long : bool) w :
  (1 ≤ fuel)%nat →
  (long = true → (0 ≤ part_number_counter w ∧ part_number_counter w + 2 ≤ 10 ^ 18)%Z) →
  ∃ r w' partno,
    random_row_for_child fuel parent_partno sequence level fields_to_populate long w
    = Done r w'
    ∧ (part_number_counter w < part_number_counter w' ≤ part_number_counter w + 2)%Z
    ∧ py_eq (VStr partno) parent_partno = false
    ∧ row_post (effective_fields fields_to_populate) partno parent_partno
        sequence level r.
Proof.
  intros Hfuel Hc. unfold random_row_for_child.
  destruct (allocation_run fuel long parent_partno w Hfuel Hc) as (s & w1 & E1 & Hs & C1).
  unfold bind at 1. unfold bind at 1 in E1.
  destruct (next_partno long w) as [s0 w0| |] eqn:E0; try discriminate.
  unfold bind at 1. rewrite E1.
  destruct (populate_run (field_post s parent_partno sequence level)
              (effective_fields fields_to_populate)
              (field_values s parent_partno sequence level)
              (field_values_nodup _ _ _ _) (field_values_yield _ _ _ _) ∅ w1)
    as (r & w2 & E2 & C2 & Hr).
  exists r, w2, s. split; [exact E2|]. split; [lia|]. split; [done|].
  intros key. destruct (Hr key) as [Hyes Hno]. split.
  - intros Hf Hk. apply Hyes; [done|]. by apply elem_of_all_fields.
  - intros Hcase. rewrite Hno; [apply lookup_empty|].
    destruct Hcase as [?|Hk]; [by left|right].
    intros Hin. apply Hk. by eapply elem_of_all_fields.
Qed.

End Rows.

Section Batches.
Context `{FloatModel}.

Lemma for_each_run {A B} (f : A → M B) (Q : nat → A → B → Prop) (xs : list A) :
  ∀ (I : nat → world → Prop),
  (∀ i x w, xs !! i = Some x → I i w →
     ∃ y w', f x w = Done y w' ∧ I (S i) w' ∧ Q i x y) →
  ∀ w, I 0%nat w →
  ∃ ys w', for_each f xs w = Done ys w' ∧ I (length xs) w'
    ∧ length ys = length xs
    ∧ ∀ i x y, xs !! i = Some x → ys !! i = Some y → Q i x y.
Proof.
  revert Q. induction xs as [|x xs IH]; intros Q I Hstep w Hw.
  - exists [], w. repeat split; done.
  - destruct (Hstep 0%nat x w eq_refl Hw) as (y & w1 & E1 & I1 & Q1).
    destruct (IH (fun i => Q (S i)) (fun i => I (S i))) with (w := w1)
      as (ys & w2 & E2 & I2 & Hlen & HQ); [|done|].
    { intros i x' w' Hx' Hi. apply (Hstep (S i)); done. }
    exists (y :: ys), w2. cbn [for_each]. unfold bind. rewrite E1, E2.
    split; [done|]. split; [done|]. split; [simpl; lia|].
    intros [|i] x' y' Hx' Hy'; simpl in Hx', Hy'.
    + by simplify_eq.
    + by eapply HQ.
Qed.

Lemma range_length (n : Z) : length (range n) = Z.to_nat n.
Proof. unfold range. by rewrite length_fmap, length_seq. Qed.

Lemma range_lookup (n : Z) (i : nat) (x : Z) :
  range n !! i = Some x → x = Z.of_nat i ∧ (i < Z.to_nat n)%nat.
Proof.
  unfold range. rewrite list_lookup_fmap. intros Hx.
  destruct (seq 0 (Z.to_nat n) !! i) as [k|] eqn:E; [|done].
  apply lookup_seq in E as [-> ?]. simpl in Hx. by simplify_eq.
Qed.

Lemma random_child_rows_run (fuel : nat) (parent_partno : value) (count : Z)
    (fields_to_populate : option (gset string)) (level : Z) (long : bool) w :
  (1 ≤ fuel)%nat →
  (long = true →
     (0 ≤ part_number_counter w ∧ part_number_counter w + 2 * count ≤ 10 ^ 18)%Z) →
  ∃ rows w',
    random_child_rows fuel parent_partno count fields_to_populate level long w
    = Done rows w'
    ∧ length rows = Z.to_nat count
    ∧ (part_number_counter w ≤ part_number_counter w'
         ≤ part_number_counter w + 2 * Z.of_nat (Z.to_nat count))%Z
    ∧ ∀ (i : nat) r, rows !! i = Some r →
        ∃ partno, py_eq (VStr partno) parent_partno = false
          ∧ row_post (effective_fields fields_to_populate) partno parent_partno
              (Z.of_nat i + 1) level r.
Proof.
  intros Hfuel Hc. unfold random_child_rows.
  set (c0 := part_number_counter w).
  destruct (for_each_run
    (fun i => random_row_for_child fuel parent_partno (i + 1) level
                fields_to_populate long)
    (fun i x r => ∃ partno, py_eq (VStr partno) parent_partno = false
          ∧ row_post (effective_fields fields_to_populate) partno parent_partno
              (Z.of_nat i + 1) level r)
    (range count)
    (fun i w' => (c0 ≤ part_number_counter w' ≤ c0 + 2 * Z.of_nat i)%Z))
    with (w := w) as (rows & w' & E & Hinv & Hlen & Hrows).
  - intros i x w1 Hx Hinv. apply range_lookup in Hx as [-> Hi].
    destruct (random_row_for_child_run fuel parent_partno (Z.of_nat i + 1) level
                fields_to_populate long w1 Hfuel)
      as (r & w2 & partno & E & C & Hp & Hr).
    { intros Hl. specialize (Hc Hl). fold c0 in Hc. lia. }
    exists r, w2. split; [done|]. split; [lia|]. by exists partno.
  - subst c0. lia.
  - rewrite range_length in Hlen, Hinv.
    exists rows, w'. split; [done|]. split; [done|]. split; [exact Hinv|].
    intros i r Hr.
    assert (i < length (range count))%nat as Hi
      by (rewrite range_length, <- Hlen; by eapply lookup_lt_Some).
    apply lookup_lt_is_Some in Hi as [x Hx]. by eapply Hrows.
Qed.

Lemma row_post_lookup fields partno parent_partno sequence level (r : row) key :
  row_post fields partno parent_partno sequence level r →
  key ∈ all_fields →
  if decide (key ∈ fields)
  then ∃ x, r !! key = Some x ∧ field_post partno parent_partno sequence level key x
  else r !! key = None.
Proof.
  intros Hpost Hk. destruct (Hpost key) as [Hyes Hno].
  destruct (decide (key ∈ fields)); [by apply Hyes|apply Hno; by left].
Qed.

Lemma row_post_PartNo fields partno parent_partno sequence level (r : row) :
  row_post fields partno parent_partno sequence level r →
  r !! "PartNo" = if decide ("PartNo" ∈ fields) then Some (VStr partno) else None.
Proof.
  intros Hpost. eapply (row_post_lookup _ _ _ _ _ _ "PartNo") in Hpost;
    [|apply (bool_decide_unpack _); by vm_compute].
  destruct (decide _); [|done]. by destruct Hpost as (x & -> & ->).
Qed.

Lemma row_post_Description fields partno parent_partno sequence level (r : row) :
  row_post fields partno parent_partno sequence level r →
  r !! "Description"
  = if decide ("Description" ∈ fields) then Some (VStr (partno +:+ " Desc")) else None.
Proof.
  intros Hpost. eapply (row_post_lookup _ _ _ _ _ _ "Description") in Hpost;
    [|apply (bool_decide_unpack _); by vm_compute].
  destruct (decide _); [|done]. by destruct Hpost as (x & -> & ->).
Qed.

Lemma row_post_Parent fields partno parent_partno sequence level (r : row) :
  row_post fields partno parent_partno sequence level r →
  r !! "Parent" = if decide ("Parent" ∈ fields) then Some parent_partno else None.
Proof.
  intros Hpost. eapply (row_post_lookup _ _ _ _ _ _ "Parent") in Hpost;
    [|apply (bool_decide_unpack _); by vm_compute].
  destruct (decide _); [|done]. by destruct Hpost as (x & -> & ->).
Qed.

Lemma row_post_Sequence fields partno parent_partno sequence level (r : row) :
  row_post fields partno parent_partno sequence level r →
  r !! "Sequence"
  = if decide ("Sequence" ∈ fields)
    then Some (VInt (if (sequence >? 0)%Z then sequence * 100 else 100)) else None.
Proof.
  intros Hpost. eapply (row_post_lookup _ _ _ _ _ _ "Sequence") in Hpost;
    [|apply (bool_decide_unpack _); by vm_compute].
  destruct (decide _); [|done]. by destruct Hpost as (x & -> & ->).
Qed.

Lemma row_post_Quantity fields partno parent_partno sequence level (r : row) :
  row_post fields partno parent_partno sequence level r →
  if decide ("Quantity" ∈ fields)
  then ∃ q, r !! "Quantity" = Some (VInt q) ∧ (1 ≤ q ≤ 10)%Z
  else r !! "Quantity" = None.
Proof.
  intros Hpost. eapply (row_post_lookup _ _ _ _ _ _ "Quantity") in Hpost;
    [|apply (bool_decide_unpack _); by vm_compute].
  destruct (decide _); [|done]. destruct Hpost as (x & -> & q & -> & Hq). eauto.
Qed.

End Batches.

(** C9.  A batch of [count] random rows under the parent [p]: the call
    returns, with exactly [count] rows; row number [i] (from 0) was given
    the sequence index [i + 1]; and the part number allocated for it differs
    from [p], so neither [PartNo] nor [Description] repeats the parent's.
    The [while] loop needs one retry at most.  In long form the statement
    holds as long as the counter prefix leaves room for the random suffix. *)
Theorem random_child_rows_never_parent `{FloatModel} (fuel : nat) (p : string)
    (count : Z) (fields_to_populate : option (gset string)) (level : Z)
    (use_long_partno : bool) (w : world) :
  (1 ≤ fuel)%nat →
  (use_long_partno = true →
     (0 ≤ part_number_counter w ∧ part_number_counter w + 2 * count ≤ 10 ^ 18)%Z) →
  let fields := effective_fields fields_to_populate in
  ∃ rows w',
    random_child_rows fuel (VStr p) count fields_to_populate level
      use_long_partno w = Done rows w'
    ∧ length rows = Z.to_nat count
    ∧ ∀ (i : nat) r, rows !! i = Some r →
        r !! "PartNo" ≠ Some (VStr p)
        ∧ ∃ partno, partno ≠ p
          ∧ r !! "PartNo"
            = (if decide ("PartNo" ∈ fields) then Some (VStr partno) else None)
          ∧ r !! "Description"
            = (if decide ("Description" ∈ fields)
               then Some (VStr (partno +:+ " Desc")) else None)
          ∧ r !! "Parent"
            = (if decide ("Parent" ∈ fields) then Some (VStr p) else None)
          ∧ r !! "Sequence"
            = (if decide ("Sequence" ∈ fields)
               then Some (VInt ((Z.of_nat i + 1) * 100)) else None).
Proof.
  intros Hfuel Hc fields.
  destruct (random_child_rows_run fuel (VStr p) count fields_to_populate level
              use_long_partno w Hfuel Hc) as (rows & w' & E & Hlen & _ & Hrows).
  exists rows, w'. split; [done|]. split; [done|].
  intros i r Hr. destruct (Hrows i r Hr) as (partno & Hp & Hpost).
  assert (partno ≠ p) as Hne.
  { intros ->. cbn [py_eq] in Hp. by rewrite String.eqb_refl in Hp. }
  rewrite (row_post_PartNo _ _ _ _ _ _ Hpost).
  split; [destruct (decide _); [|done]; by intros [= ->]|].
  exists partno. split; [done|]. split; [done|].
  rewrite (row_post_Description _ _ _ _ _ _ Hpost), (row_post_Parent _ _ _ _ _ _ Hpost),
    (row_post_Sequence _ _ _ _ _ _ Hpost).
  split; [done|]. split; [done|].
  destruct (Z.gtb_spec (Z.of_nat i + 1) 0); [done|lia].
Qed.

Module ModelsFacts.
Import Models.

Section Diff.

Lemma items_dict_snoc (l : list BOMItem) (x : BOMItem) :
  items_dict (l ++ [x]) = <[part_number x := x]> (items_dict l).
Proof. unfold items_dict. by rewrite foldl_app. Qed.

Lemma last_snoc_filter (pn : string) (l : list BOMItem) (x : BOMItem) :
  last_with pn (l ++ [x])
  = if decide (part_number x = pn) then Some x else last_with pn l.
Proof.
  unfold last_with. rewrite filter_app, filter_cons, filter_nil.
  destruct (decide (part_number x = pn)).
  - by rewrite last_snoc.
  - by rewrite app_nil_r.
Qed.

(** The dictionary built from an item list is the last-write-wins lookup. *)
Lemma items_dict_lookup (l : list BOMItem) (pn : string) :
  items_dict l !! pn = last_with pn l.
Proof.
  induction l as [|x l IH] using rev_ind; [done|].
  rewrite items_dict_snoc, last_snoc_filter, lookup_insert.
  by destruct (decide (part_number x = pn)).
Qed.

Lemma last_with_part_number (pn : string) (l : list BOMItem) (item : BOMItem) :
  last_with pn l = Some item → part_number item = pn.
Proof.
  unfold last_with. intros Hl. apply last_Some_elem_of in Hl.
  by apply list_elem_of_filter in Hl as [? _].
Qed.

Lemma elem_of_items_at (d : gmap string BOMItem) (parts : gset string)
    (item : BOMItem) :
  item ∈ items_at d parts ↔ ∃ part, part ∈ parts ∧ d !! part = Some item.
Proof.
  unfold items_at. rewrite list_elem_of_omap.
  split; intros (part & Hp & Hd); exists part; split; try done;
    by apply elem_of_elements.
Qed.

Lemma classify_modified (d1 d2 : gmap string BOMItem) acc part p :
  p ∈ (classify d1 d2 acc part).1 ↔
  p ∈ acc.1 ∨ (d1 !! part = Some p.1 ∧ d2 !! part = Some p.2
               ∧ item_changed p.1 p.2 = true).
Proof.
  unfold classify. destruct p as [a b]. cbn [fst snd].
  destruct (d1 !! part) as [i1|], (d2 !! part) as [i2|];
    [|split; [by left|intros [?|(? & ? & _)]; done]..].
  destruct (item_changed i1 i2) eqn:Ec; cbn [fst snd].
  - rewrite elem_of_app, list_elem_of_singleton. split.
    + intros [?|[= -> ->]]; [by left|by right].
    + intros [?|([= ->] & [= ->] & _)]; [by left|by right].
  - split; [by left|]. intros [?|([= ->] & [= ->] & Hc)]; [done|congruence].
Qed.

Lemma classify_unchanged (d1 d2 : gmap string BOMItem) acc part i :
  i ∈ (classify d1 d2 acc part).2 ↔
  i ∈ acc.2 ∨ (∃ item2, d1 !! part = Some i ∧ d2 !! part = Some item2
               ∧ item_changed i item2 = false).
Proof.
  unfold classify.
  destruct (d1 !! part) as [i1|], (d2 !! part) as [i2|];
    [|split; [by left|intros [?|(? & ? & ? & _)]; done]..].
  destruct (item_changed i1 i2) eqn:Ec; cbn [fst snd].
  - split; [by left|]. intros [?|(x & [= ->] & [= ->] & Hc)]; [done|congruence].
  - rewrite elem_of_app, list_elem_of_singleton. split.
    + intros [?| ->]; [by left|right; by exists i2].
    + intros [?|(x & [= ->] & _)]; [by left|by right].
Qed.

Lemma classify_fold (d1 d2 : gmap string BOMItem) (parts : list string) :
  let out := foldl (classify d1 d2) ([], []) parts in
  (∀ p, p ∈ out.1 ↔
      ∃ part, part ∈ parts ∧ d1 !! part = Some p.1 ∧ d2 !! part = Some p.2
        ∧ item_changed p.1 p.2 = true)
  ∧ (∀ i, i ∈ out.2 ↔
      ∃ part item2, part ∈ parts ∧ d1 !! part = Some i ∧ d2 !! part = Some item2
        ∧ item_changed i item2 = false).
Proof.
  induction parts as [|part parts [IHm IHu]] using rev_ind; cbn zeta.
  - split; intros x; (split; [by intros ?%elem_of_nil|]).
    + by intros (? & ?%elem_of_nil & _).
    + by intros (? & ? & ?%elem_of_nil & _).
  - rewrite foldl_app. cbn [foldl]. split.
    + intros p. rewrite classify_modified, IHm. split.
      * intros [(x & Hx & Hr)|Hr]; [exists x|exists part];
          (split; [apply elem_of_app; (by left) || (right; by apply list_elem_of_singleton)|done]).
      * intros (x & [Hx| ->%list_elem_of_singleton]%elem_of_app & Hr);
          [left; by exists x|by right].
    + intros i. rewrite classify_unchanged, IHu. split.
      * intros [(x & y & Hx & Hr)|(y & Hr)]; [exists x, y|exists part, y];
          (split; [apply elem_of_app; (by left) || (right; by apply list_elem_of_singleton)|done]).
      * intros (x & y & [Hx| ->%list_elem_of_singleton]%elem_of_app & Hr);
          [left; by exists x, y|right; by exists y].
Qed.

Lemma float_ne_true (a b : pyfloat) : float_ne a b = true ↔ ¬ float_eq a b.
Proof.
  destruct a, b; cbn; try (split; [by intros _ []|done]); try (split; [done|tauto]).
  rewrite negb_true_iff, <- not_true_iff_false, Qeq_bool_iff. tauto.
Qed.

Lemma float_ne_false (a b : pyfloat) : float_ne a b = false ↔ float_eq a b.
Proof.
  rewrite <- not_true_iff_false, float_ne_true.
  destruct a, b; cbn; try tauto.
  split; [|tauto]. intros Hn. destruct (Qeq_dec q q0); tauto.
Qed.

Lemma item_changed_true (i1 i2 : BOMItem) :
  item_changed i1 i2 = true ↔
  ¬ float_eq (quantity i1) (quantity i2) ∨ description i1 ≠ description i2
  ∨ unit i1 ≠ unit i2.
Proof.
  unfold item_changed. rewrite !orb_true_iff, !negb_true_iff.
  rewrite <- !not_true_iff_false, float_ne_true, !String.eqb_eq. tauto.
Qed.

Lemma item_changed_false (i1 i2 : BOMItem) :
  item_changed i1 i2 = false ↔
  float_eq (quantity i1) (quantity i2) ∧ description i1 = description i2
  ∧ unit i1 = unit i2.
Proof.
  unfold item_changed. rewrite !orb_false_iff, !negb_false_iff.
  rewrite float_ne_false, !String.eqb_eq. tauto.
Qed.

End Diff.

(** C5.  [compare] partitions by part number, with the last item of a
    part number standing for it in each BOM: an item is removed when its
    number is looked up in the first BOM only, added when in the second
    only; a pair found under one number in both is modified exactly when
    quantity (as a float: equal numbers are the same, NaN differs from
    everything), description or unit differs, and unchanged otherwise.
    Reference designator and notes play no part. *)
Theorem compare_partitions (b1 b2 : BOM) :
  let c := compare b1 b2 in
  let in1 pn := last_with pn (items b1) in
  let in2 pn := last_with pn (items b2) in
  (∀ item, item ∈ removed_items c ↔
     in1 (part_number item) = Some item ∧ in2 (part_number item) = None)
  ∧ (∀ item, item ∈ added_items c ↔
     in2 (part_number item) = Some item ∧ in1 (part_number item) = None)
  ∧ (∀ old new, (old, new) ∈ modified_items c ↔
     ∃ pn, in1 pn = Some old ∧ in2 pn = Some new
       ∧ (¬ float_eq (quantity old) (quantity new)
          ∨ description old ≠ description new ∨ unit old ≠ unit new))
  ∧ (∀ item, item ∈ unchanged_items c ↔
     ∃ pn new, in1 pn = Some item ∧ in2 pn = Some new
       ∧ float_eq (quantity item) (quantity new)
       ∧ description item = description new ∧ unit item = unit new).
Proof.
  cbn zeta. unfold compare, new_BOMComparison, __post_init__.
  cbn [added_items removed_items modified_items is_empty andb].
  unfold _calculate_differences.
  cbn [bom1 bom2 added_items removed_items modified_items unchanged_items].
  set (d1 := items_dict (items b1)). set (d2 := items_dict (items b2)).
  assert (H1 : ∀ pn, d1 !! pn = last_with pn (items b1))
    by (intros; apply items_dict_lookup).
  assert (H2 : ∀ pn, d2 !! pn = last_with pn (items b2))
    by (intros; apply items_dict_lookup).
  destruct (classify_fold d1 d2 (elements (dom d1 ∩ dom d2))) as [Hm Hu].
  split; [|split; [|split]].
  - intros item. rewrite elem_of_items_at. setoid_rewrite elem_of_difference.
    setoid_rewrite elem_of_dom. rewrite <- H1, <- H2. split.
    + intros (part & [_ Hno] & Hd).
      assert (part_number item = part) as ->
        by (rewrite H1 in Hd; by eapply last_with_part_number).
      split; [done|]. by apply eq_None_not_Some.
    + intros [Hd Hno]. exists (part_number item).
      rewrite Hd, Hno. split; [split; [by eexists|by intros [? ?]]|done].
  - intros item. rewrite elem_of_items_at. setoid_rewrite elem_of_difference.
    setoid_rewrite elem_of_dom. rewrite <- H1, <- H2. split.
    + intros (part & [_ Hno] & Hd).
      assert (part_number item = part) as ->
        by (rewrite H2 in Hd; by eapply last_with_part_number).
      split; [done|]. by apply eq_None_not_Some.
    + intros [Hd Hno]. exists (part_number item).
      rewrite Hd, Hno. split; [split; [by eexists|by intros [? ?]]|done].
  - intros old new. rewrite (Hm (old, new)). cbn [fst snd].
    setoid_rewrite item_changed_true. setoid_rewrite <- H1. setoid_rewrite <- H2.
    split.
    + intros (part & _ & ? & ? & ?). by exists part.
    + intros (part & Ho & Hn & Hc). exists part. split; [|done].
      apply elem_of_elements, elem_of_intersection. split; apply elem_of_dom; by eexists.
  - intros item. rewrite (Hu item).
    setoid_rewrite item_changed_false. setoid_rewrite <- H1. setoid_rewrite <- H2.
    split.
    + intros (part & new & _ & ? & ? & ?). by exists part, new.
    + intros (part & new & Ho & Hn & Hc). exists part, new. split; [|done].
      apply elem_of_elements, elem_of_intersection. split; apply elem_of_dom; by eexists.
Qed.

(** C10.  The constructor computes the partitions only when the supplied
    added, removed and modified lists are all empty, whatever
    [unchanged_items] holds; when one of the three is non-empty the six
    fields are kept as passed. *)
Theorem post_init_guard (b1 b2 : BOM) (added removed : list BOMItem)
    (modified : list (BOMItem * BOMItem)) (unchanged : list BOMItem) :
  let given := {| bom1 := b1; bom2 := b2; added_items := added;
                  removed_items := removed; modified_items := modified;
                  unchanged_items := unchanged |} in
  (added = [] ∧ removed = [] ∧ modified = [] →
     new_BOMComparison b1 b2 added removed modified unchanged
     = _calculate_differences given
     ∧ _calculate_differences given = compare b1 b2)
  ∧ (added ≠ [] ∨ removed ≠ [] ∨ modified ≠ [] →
     new_BOMComparison b1 b2 added removed modified unchanged = given).
Proof.
  cbn zeta. unfold compare, new_BOMComparison, __post_init__.
  cbn [added_items removed_items modified_items]. split.
  - by intros (-> & -> & ->).
  - intros Hne. destruct added, removed, modified; cbn; try done. naive_solver.
Qed.

End ModelsFacts.

Section Monad.

Lemma bind_done {A B} (m : M A) (k : A → M B) w b w' :
  bind m k w = Done b w' ↔ ∃ a w1, m w = Done a w1 ∧ k a w1 = Done b w'.
Proof.
  unfold bind. destruct (m w) as [a w1| |]; split.
  - eauto.
  - by intros (? & ? & [= -> ->] & ?).
  - done.
  - by intros (? & ? & ? & _).
  - done.
  - by intros (? & ? & ? & _).
Qed.

Lemma bind_step {A B} (m : M A) (k : A → M B) w a w1 :
  m w = Done a w1 → bind m k w = k a w1.
Proof. unfold bind. by intros ->. Qed.

Lemma bind_raised {A B} (m : M A) (k : A → M B) w e :
  m w = Raised e → bind m k w = Raised e.
Proof. unfold bind. by intros ->. Qed.

Lemma ret_done {A} (a b : A) w w' : ret a w = Done b w' ↔ a = b ∧ w = w'.
Proof. unfold ret. split; [by intros [= -> ->]|by intros [-> ->]]. Qed.

End Monad.

Section RowUpdates.

Lemma assign_snoc kvs k v (r : row) :
  assign (kvs ++ [(k, v)]) r = <[k := v]> (assign kvs r).
Proof. unfold assign. by rewrite foldl_app. Qed.

Lemma assign_app kvs1 kvs2 (r : row) :
  assign (kvs1 ++ kvs2) r = assign kvs2 (assign kvs1 r).
Proof. unfold assign. by rewrite foldl_app. Qed.

Lemma assign_cons k v kvs (r : row) :
  assign ((k, v) :: kvs) r = assign kvs (<[k := v]> r).
Proof. reflexivity. Qed.

Lemma assign_lookup_ne kvs (r : row) k :
  k ∉ kvs.*1 → assign kvs r !! k = r !! k.
Proof.
  revert r. induction kvs as [|[k' v] kvs IH]; intros r Hk; [done|].
  rewrite assign_cons, IH.
  - apply lookup_insert_ne. intros ->. apply Hk. cbn. apply elem_of_cons. by left.
  - intros Hin. apply Hk. cbn. apply elem_of_cons. by right.
Qed.

(** The value a key ends up with: its last assignment. *)
Lemma assign_lookup_last kvs1 k v kvs2 (r : row) :
  k ∉ kvs2.*1 → assign (kvs1 ++ (k, v) :: kvs2) r !! k = Some v.
Proof.
  intros Hk. rewrite assign_app, assign_cons, assign_lookup_ne by done.
  apply lookup_insert_eq.
Qed.

Lemma none_row_lookup headers k :
  none_row headers !! k = if decide (k ∈ headers) then Some VNone else None.
Proof.
  unfold none_row. induction headers as [|h headers IH] using rev_ind.
  - by rewrite decide_False by apply not_elem_of_nil.
  - rewrite foldl_app. cbn [foldl]. rewrite lookup_insert.
    destruct (decide (h = k)) as [->|Hne].
    + rewrite decide_True; [done|]. apply elem_of_app. right. by apply list_elem_of_singleton.
    + rewrite IH. destruct (decide (k ∈ headers)) as [Hin|Hout].
      * rewrite decide_True; [done|]. apply elem_of_app. by left.
      * rewrite decide_False; [done|]. intros [?|Hs%list_elem_of_singleton]%elem_of_app; congruence.
Qed.

Lemma get_insert_eq k v (r : row) : get k (<[k := v]> r) = v.
Proof. unfold get. by rewrite lookup_insert_eq. Qed.

Lemma get_insert_ne k k' v (r : row) : k ≠ k' → get k' (<[k := v]> r) = get k' r.
Proof. intros. unfold get. by rewrite lookup_insert_ne. Qed.

Lemma get_lookup k v (r : row) : r !! k = Some v → get k r = v.
Proof. unfold get. by intros ->. Qed.

End RowUpdates.

Section Linked.
Context `{FloatModel}.

Lemma Forall_imap {A B} (P : A → Prop) (Q : B → Prop) (g : nat → A → B) (l : list A) :
  Forall P l → (∀ i x, P x → Q (g i x)) → Forall Q (imap g l).
Proof.
  intros Hl Hg. apply Forall_lookup. intros i y Hy.
  rewrite list_lookup_imap in Hy.
  destruct (l !! i) as [x|] eqn:E; [|done]. simpl in Hy. simplify_eq.
  apply Hg. by eapply Forall_lookup_1.
Qed.

Lemma linked_keeps level (g : row → row) (r : row) :
  keeps ["PartNo"; "Level"] g → linked level r → linked level (g r).
Proof.
  intros Hg [[s Hs] Hl]. split.
  - exists s. rewrite Hg; [done|]. apply elem_of_cons. by left.
  - rewrite Hg; [done|]. apply elem_of_cons. right. apply elem_of_cons. by left.
Qed.

Lemma keeps_weaken keys keys' (g : row → row) :
  keys' ⊆ keys → keeps keys g → keeps keys' g.
Proof. intros Hsub Hg r k Hk. apply Hg. by apply Hsub. Qed.

Ltac key_cases Hk :=
  repeat (apply elem_of_cons in Hk as [->|Hk]); [..|by apply elem_of_nil in Hk].

Lemma defaults_step_keeps (i : nat) (mfg : Z) (rev loc : bool) (prev ploc : string) :
  keeps linkage_keys (fun r : row =>
    let r := <["UM" := VStr "EA"]> r in
    let r := <["Location" := if loc then or_none ploc else VNone]> r in
    let r := <["Revision" := if rev then or_none prev else VNone]> r in
    let r := <["Category" := VStr ""]> r in
    let r := <["Source" := VStr (if (Z.of_nat i <? mfg)%Z then "F" else "J")]> r in
    <["Productline" :=
        VStr (if py_eq (get "Source" r) (VStr "F") then "CP" else "CM")]> r).
Proof.
  intros r k Hk. cbn zeta. key_cases Hk; by rewrite !lookup_insert_ne by done.
Qed.

Lemma defaults_lookup rows mfg rev loc prev ploc (i : nat) (r' : row) :
  _apply_random_row_defaults rows mfg rev loc prev ploc !! i = Some r' →
  ∃ r, rows !! i = Some r
    ∧ (∀ k, k ∈ linkage_keys → r' !! k = r !! k)
    ∧ r' !! "Category" = Some (VStr "")
    ∧ r' !! "Source" = Some (VStr (if (Z.of_nat i <? mfg)%Z then "F" else "J")).
Proof.
  unfold _apply_random_row_defaults. rewrite list_lookup_imap.
  destruct (rows !! i) as [r|]; [|done]. simpl. intros [= <-].
  exists r. split; [done|]. split; [|split].
  - intros k Hk. by apply (defaults_step_keeps i mfg rev loc prev ploc r k).
  - by rewrite !lookup_insert_ne, lookup_insert_eq by done.
  - by rewrite !lookup_insert_ne, lookup_insert_eq by done.
Qed.

Lemma defaults_length rows mfg rev loc prev ploc :
  length (_apply_random_row_defaults rows mfg rev loc prev ploc) = length rows.
Proof. unfold _apply_random_row_defaults. apply length_imap. Qed.

Lemma defaults_linked level rows mfg rev loc prev ploc :
  Forall (linked level) rows →
  Forall (linked level) (_apply_random_row_defaults rows mfg rev loc prev ploc).
Proof.
  intros Hrows. apply Forall_lookup. intros i r' Hr'.
  apply defaults_lookup in Hr' as (r & Hr & Hkeep & _).
  pose proof (Forall_lookup_1 _ _ _ _ Hrows Hr) as [[s Hs] Hl]. split.
  - exists s. rewrite Hkeep; [done|]. unfold linkage_keys. set_solver.
  - rewrite Hkeep; [done|]. unfold linkage_keys. set_solver.
Qed.

Lemma on_slice_Forall {A} (P : A → Prop) a b (g : list A → list A) (l : list A) :
  (∀ l', Forall P l' → Forall P (g l')) → Forall P l → Forall P (on_slice a b g l).
Proof.
  intros Hg Hl. unfold on_slice. rewrite !Forall_app. split; [|split].
  - by apply Forall_take.
  - apply Hg. by apply Forall_take, Forall_drop.
  - by apply Forall_drop.
Qed.

Lemma with_linkage_elem chosen k :
  k ∈ ["Parent"; "Sequence"; "Level"; "PartNo"; "Quantity"] → k ∈ with_linkage chosen.
Proof. intros Hk. unfold with_linkage. apply elem_of_union. right. set_solver. Qed.

Lemma with_linkage_nonempty chosen : with_linkage chosen ≠ ∅.
Proof.
  intros E. assert ("PartNo" ∈ with_linkage chosen) as Hin
    by (apply with_linkage_elem; set_solver).
  rewrite E in Hin. by apply not_elem_of_empty in Hin.
Qed.

Lemma effective_with_linkage chosen :
  effective_fields (Some (with_linkage chosen)) = with_linkage chosen.
Proof.
  unfold effective_fields. destruct (decide _) as [E|]; [|done].
  by apply with_linkage_nonempty in E.
Qed.

Lemma row_post_Level fields partno parent_partno sequence level (r : row) :
  row_post fields partno parent_partno sequence level r →
  r !! "Level" = if decide ("Level" ∈ fields) then Some (VInt level) else None.
Proof.
  intros Hpost. eapply (row_post_lookup _ _ _ _ _ _ "Level") in Hpost;
    [|apply (bool_decide_unpack _); by vm_compute].
  destruct (decide _); [|done]. by destruct Hpost as (x & -> & ->).
Qed.

(** Random rows generated by the page carry the linkage fields. *)
Lemma page_random_rows fuel (parent_partno : value) count chosen level w :
  (1 ≤ fuel)%nat →
  ∃ rows w',
    random_child_rows fuel parent_partno count (Some (with_linkage chosen))
      level false w = Done rows w'
    ∧ length rows = Z.to_nat count
    ∧ Forall (fun r => linked level r ∧ r !! "Parent" = Some parent_partno) rows.
Proof.
  intros Hfuel.
  destruct (random_child_rows_run fuel parent_partno count (Some (with_linkage chosen))
              level false w Hfuel ltac:(done)) as (rows & w' & E & Hlen & _ & Hrows).
  exists rows, w'. split; [done|]. split; [done|].
  apply Forall_lookup. intros i r Hr.
  destruct (Hrows i r Hr) as (partno & _ & Hpost).
  rewrite effective_with_linkage in Hpost.
  pose proof (row_post_PartNo _ _ _ _ _ _ Hpost) as Hp.
  pose proof (row_post_Level _ _ _ _ _ _ Hpost) as Hl.
  pose proof (row_post_Parent _ _ _ _ _ _ Hpost) as Hpa.
  rewrite decide_True in Hp by (apply with_linkage_elem; set_solver).
  rewrite decide_True in Hl by (apply with_linkage_elem; set_solver).
  rewrite decide_True in Hpa by (apply with_linkage_elem; set_solver).
  split; [split; [by exists partno|done]|done].
Qed.

Ltac assign_lookup :=
  unfold assign; cbn [foldl fst snd];
  rewrite ?lookup_insert_ne by done; try apply lookup_insert_eq.

Lemma manual_child_linked (f : Form) i c : linked 1 (manual_child f i c).
Proof.
  unfold manual_child. split; [eexists|]; assign_lookup.
Qed.

Lemma manual_group_row_PartNo level parent_of j c :
  manual_group_row level parent_of j c !! "PartNo" = Some (VStr (w_partno c)).
Proof. unfold manual_group_row. assign_lookup. Qed.

End Linked.

Section Sections.
Context `{FloatModel}.

Lemma fold_m_run {A B} (step : A → B → M A) (I : A → Prop) (xs : list B) :
  (∀ acc x w, I acc → x ∈ xs → ∃ acc' w', step acc x w = Done acc' w' ∧ I acc') →
  ∀ acc w, I acc → ∃ acc' w', fold_m step acc xs w = Done acc' w' ∧ I acc'.
Proof.
  induction xs as [|x xs IH]; intros Hstep acc w Hacc.
  - by exists acc, w.
  - destruct (Hstep acc x w Hacc) as (acc1 & w1 & E1 & I1); [by apply elem_of_cons; left|].
    destruct (IH) with (acc := acc1) (w := w1) as (acc2 & w2 & E2 & I2); [|done|].
    { intros a y w' Ha Hy. apply Hstep; [done|]. apply elem_of_cons. by right. }
    exists acc2, w2. cbn [fold_m]. unfold bind. by rewrite E1.
Qed.

Lemma foldl_invariant {A B} (step : A → B → A) (I : A → Prop) (xs : list B) acc :
  (∀ a x, I a → I (step a x)) → I acc → I (foldl step acc xs).
Proof. intros Hstep. revert acc. induction xs; intros acc Hacc; cbn; auto. Qed.

Lemma level1_section_run fuel (f : Form) w :
  (1 ≤ fuel)%nat →
  ∃ child_data w', level1_section fuel f w = Done child_data w'
    ∧ Forall (linked 1) child_data.
Proof.
  intros Hfuel. unfold level1_section. destruct (use_random_children f) eqn:Hr.
  - destruct (page_random_rows fuel (VStr (w_partno (parent f))) (child_count f)
                (fields_for_random f) 1 w Hfuel) as (rows & w' & E & _ & Hrows).
    exists (_apply_random_row_defaults rows (l1_manufactured_count f)
              (apply_revision_to_all f) (apply_location_to_all f)
              (w_revision (parent f)) (w_location (parent f))), w'.
    split; [apply bind_done; exists rows, w'; by split|].
    apply defaults_linked. eapply Forall_impl; [exact Hrows|]. by intros r [? _].
  - exists ((fun i => manual_child f i (child f (Z.to_nat i))) <$> range (child_count f)), w.
    split; [done|].
    apply Forall_fmap, Forall_forall. intros i _. unfold compose.
    exact (manual_child_linked f i _).
Qed.

Lemma group_config_of_from_widgets level parents gf :
  from_widgets level (group_config_of level parents gf).
Proof.
  unfold group_config_of. destruct (g_random gf); [done|]. cbn.
  apply Forall_fmap, Forall_forall. intros j _. cbn. eauto.
Qed.

Lemma for_each_Forall {A B} (g : A → M B) (P : B → Prop) (xs : list A) w ys w' :
  (∀ x w y w', g x w = Done y w' → P y) →
  for_each g xs w = Done ys w' → Forall P ys.
Proof.
  intros Hg. revert w ys w'. induction xs as [|x xs IH]; intros w ys w'; cbn [for_each].
  - by intros [<- _]%ret_done.
  - intros (y & w1 & E1 & (ys' & w2 & E2 & [<- _]%ret_done)%bind_done)%bind_done.
    constructor; [by eapply Hg|by eapply IH].
Qed.

(** A section never spins; the only exception is the division by the
    length of an empty parent list. *)
Lemma pick_cyclic_outcome parents g w :
  (∃ p, pick_cyclic parents g w = Done p w ∧ p ∈ parents)
  ∨ (parents = [] ∧ pick_cyclic parents g w = Raised ZeroDivisionError).
Proof.
  unfold pick_cyclic. destruct parents as [|p0 parents]; [by right|left].
  cbn [is_empty]. eexists. split; [reflexivity|].
  apply list_elem_of_In, nth_In.
  pose proof (Z.mod_pos_bound g (Z.of_nat (length (p0 :: parents)))) as Hb.
  cbn [length] in *. lia.
Qed.

Lemma for_each_pick parents (mk : value → group_config) (gs : list Z) w :
  (∃ cfgs, for_each (fun g => let* p := pick_cyclic parents g in ret (mk p)) gs w
           = Done cfgs w
     ∧ Forall (fun cfg => ∃ p, p ∈ parents ∧ cfg = mk p) cfgs)
  ∨ (parents = [] ∧ gs ≠ []
     ∧ for_each (fun g => let* p := pick_cyclic parents g in ret (mk p)) gs w
       = Raised ZeroDivisionError).
Proof.
  induction gs as [|g gs IH]; cbn [for_each].
  - left. by exists [].
  - destruct (pick_cyclic_outcome parents g w) as [(p & E & Hp)|[-> E]].
    + destruct IH as [(cfgs & E' & Hc)|(-> & _ & _)]; [|by apply elem_of_nil in Hp].
      left. exists (mk p :: cfgs). split; [|constructor; [by exists p|done]].
      rewrite (bind_step _ _ w (mk p) w) by (by rewrite (bind_step _ _ w p w)).
      by rewrite (bind_step _ _ w cfgs w).
    + right. split; [done|]. split; [done|].
      apply bind_raised. by apply bind_raised.
Qed.

End Sections.

Section Gating.
Context `{FloatModel}.

Lemma is_empty_true {A} (l : list A) : is_empty l = true ↔ l = [].
Proof. by destruct l. Qed.

Lemma is_empty_false {A} (l : list A) : is_empty l = false ↔ l ≠ [].
Proof. by destruct l. Qed.

Lemma range_nonpos (n : Z) : (n ≤ 0)%Z → range n = [].
Proof. intros Hn. unfold range. by replace (Z.to_nat n) with 0%nat by lia. Qed.

Lemma selectbox_elem options choice :
  selectbox options choice ∈ options ∨ (options = [] ∧ selectbox options choice = VNone).
Proof.
  unfold selectbox. destruct (options !! choice) as [v|] eqn:E.
  - left. by eapply list_elem_of_lookup_2.
  - destruct options as [|v options]; [by right|left]. cbn. apply elem_of_cons. by left.
Qed.

Lemma group_config_of_parent level parents gf :
  config_parent (group_config_of level parents gf)
  = selectbox parents (g_parent_choice gf).
Proof. unfold group_config_of. by destruct (g_random gf). Qed.

(** Level 2, lines 392-491 of ui.py. *)
Lemma level2_section_cases (f : Form) (child_data : list row) w :
  (level1_partnos_of child_data = [] →
     level2_section f child_data w = Done no_section w)
  ∧ (level1_partnos_of child_data ≠ [] →
     any_l1_manufactured_of child_data = false →
     level2_section f child_data w
     = Done {| sec_notices := [NoManufacturedLevel1Warning];
               sec_per_parent := None; sec_config := [] |} w)
  ∧ ((∃ sec, level2_section f child_data w = Done sec w
        ∧ Forall (from_widgets 2) (sec_config sec)
        ∧ Forall (fun cfg =>
            config_parent cfg ∈ level1_partnos_manufactured_of child_data
            ∨ (level1_partnos_manufactured_of child_data = []
               ∧ config_parent cfg = VNone)) (sec_config sec)
        ∧ (NoManufacturedLevel1Warning ∈ sec_notices sec ↔
             level1_partnos_of child_data ≠ []
             ∧ any_l1_manufactured_of child_data = false))
     ∨ (level2_section f child_data w = Raised ZeroDivisionError
        ∧ level1_partnos_manufactured_of child_data = []
        ∧ any_l1_manufactured_of child_data = true
        ∧ random_all (level2 f) = true)).
Proof.
  unfold level2_section, block_l2_of.
  destruct (level1_partnos_of child_data) as [|p0 ps] eqn:Ep; cbn [is_empty negb andb].
  { split; [done|]. split; [done|]. left. exists no_section. split; [done|].
    split; [constructor|]. split; [constructor|]. cbn [no_section sec_notices].
    split; [by intros ?%elem_of_nil|]. by intros [? _]. }
  split; [done|].
  destruct (any_l1_manufactured_of child_data) eqn:Eany; cbn [negb].
  - split; [done|].
    destruct ((num_groups (level2 f) >? 0)%Z && random_all (level2 f))%bool eqn:Eall.
    + apply andb_true_iff in Eall as [Egt Era]. rewrite Egt, Era. cbn [andb].
      destruct (for_each_pick (level1_partnos_manufactured_of child_data)
                  (fun p => RandomGroup p 2 (all_fields_chosen (level2 f))
                              (Z.min (all_manufactured (level2 f)) 2))
                  (range (num_groups (level2 f))) w) as [(cfgs & E & Hc)|(Hm & _ & E)].
      * left. exists {| sec_notices := []; sec_per_parent := per_parent_of (level2 f);
                        sec_config := cfgs |}.
        split; [by rewrite (bind_step _ _ w cfgs w)|]. cbn [sec_config sec_notices].
        split; [|split].
        -- eapply Forall_impl; [exact Hc|]. by intros cfg (p & _ & ->).
        -- eapply Forall_impl; [exact Hc|]. intros cfg (p & Hp & ->). by left.
        -- split; [by intros ?%elem_of_nil|]. by intros [_ ?].
      * right. split; [by apply bind_raised|done].
    + left.
      exists {| sec_notices := []; sec_per_parent := per_parent_of (level2 f);
                sec_config :=
                  (fun g => group_config_of 2 (level1_partnos_manufactured_of child_data)
                              (group (level2 f) (Z.to_nat g)))
                  <$> range (num_groups (level2 f)) |}.
      split.
      { destruct (num_groups (level2 f) >? 0)%Z; cbn [andb] in Eall |- *;
          [rewrite Eall|]; reflexivity. }
      cbn [sec_config sec_notices]. split; [|split].
      * apply Forall_fmap, Forall_forall. intros g _. unfold compose.
        exact (group_config_of_from_widgets _ _ _).
      * apply Forall_fmap, Forall_forall. intros g _. unfold compose.
        rewrite group_config_of_parent.
        destruct (selectbox_elem (level1_partnos_manufactured_of child_data)
                    (g_parent_choice (group (level2 f) (Z.to_nat g)))) as [?|[? ?]];
          [by left|by right].
      * split; [by intros ?%elem_of_nil|]. by intros [_ ?].
  - split; [done|]. left.
    exists {| sec_notices := [NoManufacturedLevel1Warning]; sec_per_parent := None;
              sec_config := [] |}.
    split; [by rewrite range_nonpos by lia|]. cbn [sec_config sec_notices].
    split; [constructor|]. split; [constructor|].
    split; [done|]. intros _. apply elem_of_cons. by left.
Qed.

Lemma existsb_filter {A} (p : A → bool) (l : list A) :
  existsb p l = negb (is_empty (filter (fun x => p x = true) l)).
Proof.
  induction l as [|x l IH]; [done|]. cbn [existsb]. rewrite filter_cons.
  destruct (decide (p x = true)) as [->|Hp]; [done|].
  apply not_true_is_false in Hp. by rewrite Hp, IH.
Qed.

(** Level 3, lines 493-613 of ui.py. *)
Lemma level3_section_cases (f : Form) (child_data : list row)
    (level2_config : list group_config) w :
  let for_l3 := level2_partnos_for_l3_of level2_config in
  let manufactured := level2_partnos_manufactured_of level2_config in
  (level1_partnos_of child_data = [] →
     level3_section f child_data level2_config w = Done no_section w)
  ∧ ∃ sec, level3_section f child_data level2_config w = Done sec w
      ∧ Forall (from_widgets 3) (sec_config sec)
      ∧ Forall (fun cfg => config_parent cfg ∈ manufactured) (sec_config sec)
      ∧ (NoManufacturedLevel2Warning ∈ sec_notices sec ↔
           level1_partnos_of child_data ≠ [] ∧ for_l3 ≠ [] ∧ manufactured = [])
      ∧ (NoManufacturedLevel2Warning ∈ sec_notices sec →
           sec_per_parent sec = None ∧ sec_config sec = [])
      ∧ (for_l3 = [] → sec_config sec = []
           ∧ (level1_partnos_of child_data ≠ [] → (0 < num_groups (level3 f))%Z →
                GroupsNeedManualLevel2Info ∈ sec_notices sec)).
Proof.
  cbn zeta. unfold level3_section.
  fold (level2_partnos_for_l3_of level2_config).
  fold (level2_partnos_manufactured_of level2_config).
  rewrite existsb_filter. fold (level2_partnos_manufactured_of level2_config).
  set (for_l3 := level2_partnos_for_l3_of level2_config).
  set (manufactured := level2_partnos_manufactured_of level2_config).
  assert (Hsub : ∀ p, p ∈ manufactured → p ∈ for_l3)
    by (intros p [_ ?]%list_elem_of_filter; done).
  destruct (level1_partnos_of child_data) as [|p0 ps] eqn:Ep; cbn [is_empty].
  { split; [done|]. exists no_section. split; [done|]. cbn [no_section sec_config sec_notices sec_per_parent].
    split; [constructor|]. split; [constructor|].
    split; [split; [by intros ?%elem_of_nil|by intros [? _]]|].
    split; [by intros ?%elem_of_nil|]. intros _. split; [done|]. by intros ?. }
  split; [done|].
  destruct for_l3 as [|q0 qs] eqn:Ef; cbn [is_empty negb andb].
  - (* no manual Level 2 part number *)
    assert (manufactured = []) as Em.
    { destruct manufactured as [|m ms]; [done|].
      specialize (Hsub m ltac:(by apply elem_of_cons; left)). by apply elem_of_nil in Hsub. }
    rewrite Em. cbn [is_empty negb andb]. rewrite andb_false_r.
    eexists. split; [reflexivity|]. cbn [sec_config sec_notices sec_per_parent].
    split; [constructor|]. split; [constructor|]. split; [|split].
    + split; [|by intros (_ & ? & _)].
      intros Hin. exfalso.
      destruct (num_groups (level3 f) >? 0)%Z; cbn [app] in Hin;
        repeat (apply elem_of_cons in Hin as [Hin|Hin]; [discriminate|]);
        by apply elem_of_nil in Hin.
    + intros Hin. exfalso.
      destruct (num_groups (level3 f) >? 0)%Z; cbn [app] in Hin;
        repeat (apply elem_of_cons in Hin as [Hin|Hin]; [discriminate|]);
        by apply elem_of_nil in Hin.
    + intros _. split; [done|]. intros _ Hn.
      destruct (Z.gtb_spec (num_groups (level3 f)) 0); [|lia].
      cbn [app]. do 2 (apply elem_of_cons; right). apply elem_of_cons. by left.
  - destruct manufactured as [|m0 ms] eqn:Em; cbn [is_empty negb andb].
    + (* blocked *)
      eexists. split; [rewrite range_nonpos by lia; reflexivity|].
      cbn [sec_config sec_notices sec_per_parent fmap list_fmap].
      split; [constructor|]. split; [constructor|]. split; [|split].
      * split; [done|]. intros _. apply elem_of_cons. right. apply elem_of_cons. by left.
      * done.
      * done.
    + (* at least one manufactured manual Level 2 part *)
      rewrite andb_true_r.
      destruct ((num_groups (level3 f) >? 0)%Z && random_all (level3 f))%bool eqn:Eall.
      * apply andb_true_iff in Eall as [Egt Era]. rewrite Egt, Era.
        destruct (for_each_pick (m0 :: ms)
                    (fun p => RandomGroup p 2 (all_fields_chosen (level3 f))
                                (Z.min (all_manufactured (level3 f)) 2))
                    (range (num_groups (level3 f))) w) as [(cfgs & E & Hc)|(Hm & _ & E)];
          [|done].
        exists {| sec_notices := [RandomCappedInfo];
                  sec_per_parent := per_parent_of (level3 f); sec_config := cfgs |}.
        split; [by rewrite (bind_step _ _ w cfgs w)|].
        cbn [sec_config sec_notices sec_per_parent].
        split; [|split; [|split; [|split]]].
        -- eapply Forall_impl; [exact Hc|]. by intros cfg (p & _ & ->).
        -- eapply Forall_impl; [exact Hc|]. by intros cfg (p & Hp & ->).
        -- split; [|by intros (_ & _ & ?)].
           intros [?|?%elem_of_nil]%elem_of_cons; done.
        -- intros [?|?%elem_of_nil]%elem_of_cons; done.
        -- done.
      * exists {| sec_notices := [RandomCappedInfo];
                  sec_per_parent := per_parent_of (level3 f);
                  sec_config :=
                    (fun g => group_config_of 3 (m0 :: ms) (group (level3 f) (Z.to_nat g)))
                    <$> range (num_groups (level3 f)) |}.
        split.
        { destruct (num_groups (level3 f) >? 0)%Z; cbn [andb] in Eall |- *;
            [rewrite Eall|]; reflexivity. }
        cbn [sec_config sec_notices sec_per_parent].
        split; [|split; [|split; [|split]]].
        -- apply Forall_fmap, Forall_forall. intros g _. unfold compose.
           exact (group_config_of_from_widgets _ _ _).
        -- apply Forall_fmap, Forall_forall. intros g _. unfold compose.
           rewrite group_config_of_parent.
           by destruct (selectbox_elem (m0 :: ms)
                          (g_parent_choice (group (level3 f) (Z.to_nat g)))) as [?|[? ?]].
        -- split; [|by intros (_ & _ & ?)].
           intros [?|?%elem_of_nil]%elem_of_cons; done.
        -- intros [?|?%elem_of_nil]%elem_of_cons; done.
        -- done.
Qed.

End Gating.

Section AssemblyRuns.
Local Open Scope list_scope.
Context `{FloatModel} (fuel : nat) (f : Form).
Hypothesis Hfuel : (1 ≤ fuel)%nat.

Lemma linked_partno level (r : row) : linked level r → is_Some (r !! "PartNo").
Proof. intros [[s Hs] _]. by exists (VStr s). Qed.

Lemma subscript_run key (r : row) v w : r !! key = Some v → subscript key r w = Done v w.
Proof. unfold subscript. by intros ->. Qed.

Lemma defaults_on_linked level rows mfg :
  Forall (linked level) rows → Forall (linked level) (defaults_on f rows mfg).
Proof. apply defaults_linked. Qed.

Lemma random_under_manufactured_run (above_level level : Z) (pp : per_parent)
    (above rows : list row) w :
  Forall (linked above_level) above → Forall (linked level) rows →
  ∃ rows' w', random_under_manufactured fuel f level pp above rows w = Done rows' w'
    ∧ Forall (linked level) rows'.
Proof.
  intros Habove Hrows. unfold random_under_manufactured.
  set (manufactured := filter (fun c => in_M_F (get "Source" c) = true) above).
  destruct (fold_m_run
    (fun rows c =>
       let* pno := subscript "PartNo" c in
       let* batch := random_child_rows fuel pno (pp_count pp)
                       (Some (with_linkage (pp_fields pp))) level false in
       ret (rows ++ batch)%list)
    (Forall (linked level)) manufactured) with (acc := rows) (w := w)
    as (rows1 & w1 & E1 & H1); [|done|].
  { intros acc c w0 Hacc Hc.
    assert (c ∈ above) as Hin by (by apply list_elem_of_filter in Hc as [_ ?]).
    pose proof (proj1 (Forall_forall _ _) Habove c Hin) as [[s Hs] _].
    destruct (page_random_rows fuel (VStr s) (pp_count pp) (pp_fields pp) level w0 Hfuel)
      as (batch & w0' & E & _ & Hb).
    exists (acc ++ batch)%list, w0'. split.
    - rewrite (bind_step _ _ w0 (VStr s) w0) by (by apply subscript_run).
      by rewrite (bind_step _ _ w0 batch w0').
    - apply Forall_app. split; [done|].
      eapply Forall_impl; [exact Hb|]. by intros r [? _]. }
  eexists _, w1. split; [by rewrite (bind_step _ _ w rows1 w1)|].
  apply foldl_invariant; [|done].
  intros a i Ha. apply on_slice_Forall; [|done]. intros l'. apply defaults_on_linked.
Qed.

Lemma foldl_copy_lookup (r d : row) (keys : list string) (k : string) :
  foldl (fun d key =>
           match r !! key with
           | Some VNone | None => d
           | Some v => <[key := v]> d
           end) d keys !! k
  = if decide (k ∈ keys)
    then match r !! k with Some VNone | None => d !! k | Some v => Some v end
    else d !! k.
Proof.
  induction keys as [|key keys IH] using rev_ind.
  - by rewrite decide_False by apply not_elem_of_nil.
  - rewrite foldl_app. cbn [foldl].
    destruct (decide (key = k)) as [->|Hne].
    + rewrite (decide_True (P := k ∈ keys ++ [k]))
        by (apply elem_of_app; right; by apply list_elem_of_singleton).
      destruct (r !! k) as [[]|] eqn:Er; rewrite ?lookup_insert_eq; try done;
        rewrite IH; destruct (decide (k ∈ keys)); by rewrite ?Er.
    + assert ((k ∈ keys ++ [key]) ↔ k ∈ keys) as Hiff.
      { rewrite elem_of_app, list_elem_of_singleton. naive_solver. }
      transitivity (foldl (fun d key =>
           match r !! key with
           | Some VNone | None => d
           | Some v => <[key := v]> d
           end) d keys !! k).
      { destruct (r !! key) as [[]|]; by rewrite ?lookup_insert_ne. }
      rewrite IH. destruct (decide (k ∈ keys)) as [Hin|Hout].
      * by rewrite decide_True by (by apply Hiff).
      * by rewrite decide_False by (by rewrite Hiff).
Qed.

Lemma manual_row_lookup_copied level parent_of (r : row) (k : string) :
  k ∈ manual_keys →
  k ∉ ["UM"; "IssueUM"; "ConsumptionConv"; "Parent"; "Level"; "Sequence"] →
  manual_row level parent_of r !! k
  = match r !! k with
    | Some VNone | None => none_row TEMPLATE_HEADERS !! k
    | Some v => Some v
    end.
Proof.
  intros Hk Hnot. unfold manual_row. cbn zeta.
  rewrite assign_lookup_ne by exact Hnot.
  rewrite foldl_copy_lookup. by rewrite decide_True.
Qed.

Lemma manual_row_linked level parent_of (r : row) s :
  r !! "PartNo" = Some (VStr s) → linked level (manual_row level parent_of r).
Proof.
  intros Hs. split.
  - exists s. rewrite manual_row_lookup_copied.
    + by rewrite Hs.
    + apply (bool_decide_unpack _). by vm_compute.
    + apply (bool_decide_unpack _). by vm_compute.
  - unfold manual_row. cbn zeta.
    match goal with |- assign ?kvs ?r0 !! _ = _ =>
      exact (assign_lookup_last
               [("UM", py_or (get "UM" r0) (VStr "EA")); ("IssueUM", get "IssueUM" r);
                ("ConsumptionConv", get "ConsumptionConv" r); ("Parent", parent_of)]
               "Level" (VInt level) [("Sequence", default (VInt 0) (r !! "Sequence"))] r0
               ltac:(apply (bool_decide_unpack _); by vm_compute))
    end.
Qed.

Lemma add_groups_run (level : Z) (configs : list group_config) (rows : list row) w :
  Forall (from_widgets level) configs → Forall (linked level) rows →
  ∃ rows' w', add_groups fuel f level configs rows w = Done rows' w'
    ∧ Forall (linked level) rows'.
Proof.
  intros Hcfg Hrows. unfold add_groups.
  apply fold_m_run; [|done].
  intros acc cfg w0 Hacc Hin.
  pose proof (proj1 (Forall_forall _ _) Hcfg cfg Hin) as Hw.
  destruct cfg as [p count fields mfg|p count mrows].
  - destruct (page_random_rows fuel p count fields level w0 Hfuel)
      as (batch & w0' & E & _ & Hb).
    eexists _, w0'. split; [by rewrite (bind_step _ _ w0 batch w0')|].
    apply on_slice_Forall; [intros l'; apply defaults_on_linked|].
    apply Forall_app. split; [done|].
    eapply Forall_impl; [exact Hb|]. by intros r [? _].
  - eexists _, w0. split; [reflexivity|].
    apply Forall_app. split; [done|].
    apply Forall_fmap. eapply Forall_impl; [exact Hw|].
    intros r (j & c & ->). unfold compose.
    exact (manual_row_linked level p _ _ (manual_group_row_PartNo level p j c)).
Qed.

Lemma assemble_lower_run (child_data : list row) (sec2 sec3 : section) w :
  Forall (linked 1) child_data →
  Forall (from_widgets 2) (sec_config sec2) →
  Forall (from_widgets 3) (sec_config sec3) →
  ∃ l2 l3 w', assemble_lower fuel f child_data sec2 sec3 w = Done (l2, l3) w'
    ∧ Forall (linked 2) l2 ∧ Forall (linked 3) l3.
Proof.
  intros Hcd H2 H3. unfold assemble_lower.
  assert (∃ a w1,
    match sec_per_parent sec2 with
    | Some pp => random_under_manufactured fuel f 2 pp child_data []
    | None => ret []
    end w = Done a w1 ∧ Forall (linked 2) a) as (a & w1 & Ea & Ha).
  { destruct (sec_per_parent sec2) as [pp|].
    - by eapply random_under_manufactured_run.
    - by exists [], w. }
  destruct (add_groups_run 2 (sec_config sec2) a w1 H2 Ha) as (l2 & w2 & E2 & Hl2).
  assert (∃ b w3,
    match sec_per_parent sec3 with
    | Some pp =>
        if negb (is_empty l2) then random_under_manufactured fuel f 3 pp l2 []
        else ret []
    | None => ret []
    end w2 = Done b w3 ∧ Forall (linked 3) b) as (b & w3 & Eb & Hb).
  { destruct (sec_per_parent sec3) as [pp|]; [|by exists [], w2].
    destruct (negb (is_empty l2)); [|by exists [], w2].
    by eapply random_under_manufactured_run. }
  destruct (add_groups_run 3 (sec_config sec3) b w3 H3 Hb) as (l3 & w4 & E3 & Hl3).
  exists l2, l3, w4. split; [|done].
  rewrite (bind_step _ _ w a w1) by done.
  rewrite (bind_step _ _ w1 l2 w2) by done.
  rewrite (bind_step _ _ w2 b w3) by done.
  by rewrite (bind_step _ _ w3 l3 w4).
Qed.

End AssemblyRuns.

Section Validation.
Local Open Scope list_scope.
Context `{FloatModel}.

Lemma py_eq_VStr_r (v : value) (s : string) : py_eq v (VStr s) = true ↔ v = VStr s.
Proof.
  destruct v; cbn [py_eq]; try (split; [discriminate|by intros [=]]).
  rewrite String.eqb_eq. split; [by intros ->|by intros [=]].
Qed.

Lemma in_M_F_true (v : value) : in_M_F v = true ↔ v = VStr "M" ∨ v = VStr "F".
Proof. unfold in_M_F. by rewrite orb_true_iff, !py_eq_VStr_r. Qed.

Lemma in_none_empty_false (v : value) :
  in_none_empty v = false ↔ v ≠ VNone ∧ v ≠ VStr "".
Proof.
  unfold in_none_empty. rewrite orb_false_r, orb_false_iff.
  rewrite <- !not_true_iff_false, py_eq_VStr_r.
  enough (py_eq v VNone = true ↔ v = VNone) as -> by done.
  destruct v; cbn; split; congruence.
Qed.

(** What [_validate_category_source] returns. *)
Lemma validate_category_source_some (cat src : value) (who : label) (e : message) :
  _validate_category_source cat src who = Some e ↔
  (cat = VStr "P" ∧ in_M_F src = false ∧ e = PhantomSource who)
  ∨ (cat = VStr "X" ∧ src ≠ VStr "P" ∧ e = ExcludeSource who).
Proof.
  unfold _validate_category_source.
  destruct (truthy cat) eqn:Et; cbn [negb].
  - destruct (py_eq cat (VStr "P")) eqn:EP.
    + apply py_eq_VStr_r in EP as ->. cbn [py_eq String.eqb Ascii.eqb].
      destruct (in_M_F src) eqn:Em; cbn [negb].
      * cbn. split; [done|]. intros [(_ & ? & _)|([=] & _)]; done.
      * split; [intros [= <-]; by left|]. intros [(_ & _ & ->)|([=] & _)]; done.
    + destruct (py_eq cat (VStr "X")) eqn:EX.
      * apply py_eq_VStr_r in EX as ->.
        destruct (py_eq src (VStr "P")) eqn:Es; cbn [negb].
        -- apply py_eq_VStr_r in Es as ->. split; [done|].
           intros [([=] & _)|(_ & ? & _)]; done.
        -- split; [intros [= <-]; right; split; [done|]; split; [|done]|].
           ++ intros ->. by rewrite (proj2 (py_eq_VStr_r _ _) eq_refl) in Es.
           ++ intros [([=] & _)|(_ & _ & ->)]; done.
      * split; [done|]. intros [(-> & _)|(-> & _)]; cbn in *; congruence.
  - split; [done|]. intros [(-> & _)|(-> & _)]; cbn in Et; congruence.
Qed.

Lemma validate_category_source_none (cat src : value) (who : label) :
  _validate_category_source cat src who = None ↔
  (cat = VStr "P" → src = VStr "M" ∨ src = VStr "F")
  ∧ (cat = VStr "X" → src = VStr "P").
Proof.
  split.
  - intros Hn. split.
    + intros ->. apply in_M_F_true. apply not_false_iff_true. intros Hm.
      assert (_validate_category_source (VStr "P") src who = Some (PhantomSource who)) as E
        by (apply validate_category_source_some; by left).
      congruence.
    + intros ->. destruct (py_eq src (VStr "P")) eqn:Es;
        [by apply py_eq_VStr_r in Es|].
      assert (src ≠ VStr "P") as Hne
        by (intros ->; by rewrite (proj2 (py_eq_VStr_r _ _) eq_refl) in Es).
      assert (_validate_category_source (VStr "X") src who = Some (ExcludeSource who)) as E
        by (apply validate_category_source_some; by right).
      congruence.
  - intros [HP HX]. destruct (_validate_category_source cat src who) as [e|] eqn:E; [|done].
    apply validate_category_source_some in E as [(-> & Hm & _)|(-> & Hs & _)].
    + apply in_M_F_true in HP; [congruence|done].
    + by specialize (HX eq_refl).
Qed.

Lemma missing_required_nil (r : row) : missing_required r = [] ↔ required_present r.
Proof.
  unfold missing_required, required_present. split.
  - intros Hnil fld Hf. apply not_true_iff_false. intros Hb.
    assert (fld ∈ @nil string) as Hin
      by (rewrite <- Hnil; apply list_elem_of_filter; by split).
    by apply elem_of_nil in Hin.
  - intros Hall. apply elem_of_nil_inv. intros fld [Hb Hf]%list_elem_of_filter.
    rewrite (Hall fld Hf) in Hb. discriminate.
Qed.

Lemma as_errors_nil (o : option message) : as_errors o = [] ↔ o = None.
Proof. by destruct o. Qed.

Lemma check_child_nil (idx : Z) (c : row) :
  check_child idx c = [] ↔ required_present c ∧ category_rule c.
Proof.
  unfold check_child, category_rule. rewrite <- missing_required_nil.
  destruct (missing_required c) as [|m ms]; cbn [is_empty negb].
  - rewrite as_errors_nil, validate_category_source_none. naive_solver.
  - naive_solver.
Qed.

Lemma check_part_nil (r : row) :
  check_part r = [] ↔ required_present r ∧ category_rule r.
Proof.
  unfold check_part, category_rule. rewrite <- missing_required_nil.
  destruct (missing_required r) as [|m ms]; cbn [is_empty negb].
  - rewrite as_errors_nil, validate_category_source_none. naive_solver.
  - naive_solver.
Qed.

Lemma check_parent_nil (pr : row) :
  check_parent (Some pr) = [] ↔ category_rule pr.
Proof.
  unfold check_parent, category_rule.
  by rewrite as_errors_nil, validate_category_source_none.
Qed.

Lemma mjoin_nil {A} (ls : list (list A)) : mjoin ls = [] ↔ Forall (fun l => l = []) ls.
Proof.
  induction ls as [|l ls IH]; [done|]. cbn [mjoin list_join].
  rewrite Forall_cons, <- IH. destruct l; naive_solver.
Qed.

Lemma check_children_nil (child_data : list row) :
  check_children child_data = [] ↔
  Forall (fun c => required_present c ∧ category_rule c) child_data.
Proof.
  unfold check_children. rewrite mjoin_nil, !Forall_lookup. split.
  - intros Hall i c Hc. apply (check_child_nil (Z.of_nat i + 1)).
    apply (Hall i). by rewrite list_lookup_imap, Hc.
  - intros Hall i l Hl. rewrite list_lookup_imap in Hl.
    destruct (child_data !! i) as [c|] eqn:Hc; [|done]. cbn in Hl. simplify_eq.
    apply check_child_nil. by eapply Hall.
Qed.

Lemma check_parts_nil (rows : list row) :
  mjoin (check_part <$> rows) = [] ↔
  Forall (fun r => required_present r ∧ category_rule r) rows.
Proof.
  rewrite mjoin_nil, Forall_fmap. apply Forall_proper; [|done].
  intros r. unfold compose. apply check_part_nil.
Qed.

End Validation.

Section Finishing.
Local Open Scope list_scope.
Context `{FloatModel} (f : Form).

Lemma propagate_parent_fields_fmap (rows : list row) :
  propagate_parent_fields f rows = propagate_row f <$> rows.
Proof.
  unfold propagate_parent_fields, propagate, propagate_row.
  destruct (apply_revision_to_all f), (apply_location_to_all f);
    rewrite <- ?list_fmap_compose; try done. by rewrite list_fmap_id.
Qed.

Lemma propagate_row_lookup (r : row) k :
  k ≠ "Revision" → k ≠ "Location" → propagate_row f r !! k = r !! k.
Proof.
  intros H1 H2. unfold propagate_row.
  destruct (apply_revision_to_all f), (apply_location_to_all f);
    by rewrite ?lookup_insert_ne by done.
Qed.

Lemma clear_self_parent_eq (r : row) :
  clear_self_parent r = if self_parent r then <["Parent" := VStr ""]> r else r.
Proof. reflexivity. Qed.

Lemma clear_self_parent_lookup (r : row) k :
  k ≠ "Parent" → clear_self_parent r !! k = r !! k.
Proof.
  intros Hk. rewrite clear_self_parent_eq.
  destruct (self_parent r); by rewrite ?lookup_insert_ne.
Qed.

Lemma finished_lookup (rows : list row) (i : nat) (r' : row) :
  finished f rows !! i = Some r' ↔
  ∃ r, rows !! i = Some r
    ∧ r' = clear_self_parent (propagate_row f
             (<["Sequence" := VInt ((Z.of_nat i + 1) * sequence_increment f)]> r)).
Proof.
  unfold finished. rewrite propagate_parent_fields_fmap, !list_lookup_fmap.
  unfold resequence. rewrite list_lookup_imap.
  destruct (rows !! i) as [r|]; cbn; [|naive_solver].
  split; [intros [= <-]; by exists r|by intros (? & [= <-] & ->)].
Qed.

Lemma finished_length (rows : list row) : length (finished f rows) = length rows.
Proof.
  unfold finished. rewrite propagate_parent_fields_fmap, !length_fmap.
  unfold resequence. apply length_imap.
Qed.

(** The fields of a finished row, from the assembled row [r] at index [i]. *)
Lemma finished_row_keeps (r : row) (z : Z) k :
  k ≠ "Sequence" → k ≠ "Revision" → k ≠ "Location" → k ≠ "Parent" →
  clear_self_parent (propagate_row f (<["Sequence" := VInt z]> r)) !! k = r !! k.
Proof.
  intros. by rewrite clear_self_parent_lookup, propagate_row_lookup, lookup_insert_ne.
Qed.

Lemma finished_row_sequence (r : row) (z : Z) :
  clear_self_parent (propagate_row f (<["Sequence" := VInt z]> r)) !! "Sequence"
  = Some (VInt z).
Proof.
  by rewrite clear_self_parent_lookup, propagate_row_lookup, lookup_insert_eq.
Qed.

Lemma self_parent_mid (r : row) (z : Z) :
  self_parent (propagate_row f (<["Sequence" := VInt z]> r)) = self_parent r.
Proof.
  unfold self_parent, get.
  by rewrite !propagate_row_lookup, !lookup_insert_ne by done.
Qed.

Lemma finished_row_parent (r : row) (z : Z) :
  get "Parent" (clear_self_parent (propagate_row f (<["Sequence" := VInt z]> r)))
  = if self_parent r then VStr "" else get "Parent" r.
Proof.
  rewrite clear_self_parent_eq, self_parent_mid.
  destruct (self_parent r); unfold get.
  - by rewrite lookup_insert_eq.
  - by rewrite propagate_row_lookup, lookup_insert_ne.
Qed.

Lemma get_finished_keeps (r : row) (z : Z) k :
  k ≠ "Sequence" → k ≠ "Revision" → k ≠ "Location" → k ≠ "Parent" →
  get k (clear_self_parent (propagate_row f (<["Sequence" := VInt z]> r))) = get k r.
Proof. intros. unfold get. by rewrite finished_row_keeps. Qed.

(** A row that passed the required-field check is accepted by
    [append_row_by_headers] once finished. *)
Lemma required_present_insert_sequence (r : row) (z : Z) :
  required_present r → required_present (<["Sequence" := VInt z]> r).
Proof.
  intros Hr fld Hf. destruct (decide (fld = "Sequence")) as [->|Hne].
  - by rewrite get_insert_eq.
  - rewrite get_insert_ne by done. by apply Hr.
Qed.

Lemma is_missing_finished (r : row) (z : Z) :
  required_present (<["Sequence" := VInt z]> r) →
  ∀ fld, fld ∈ REQUIRED_FIELDS →
    is_missing (clear_self_parent (propagate_row f (<["Sequence" := VInt z]> r))) fld
    = false.
Proof.
  intros Hr fld Hf. unfold is_missing.
  destruct (decide (fld = "Parent")) as [->|Hne].
  - rewrite finished_row_parent. cbn [String.eqb Ascii.eqb Bool.eqb andb].
    destruct (self_parent r); [done|].
    specialize (Hr "Parent" Hf). rewrite get_insert_ne in Hr by done.
    rewrite Hr. apply in_none_empty_false in Hr as [_ Hr].
    destruct (py_eq (get "Parent" r) (VStr "")) eqn:E; [|done].
    by apply py_eq_VStr_r in E.
  - assert (get fld (clear_self_parent (propagate_row f (<["Sequence" := VInt z]> r)))
            = get fld (<["Sequence" := VInt z]> r)) as ->.
    { unfold get. rewrite clear_self_parent_lookup, propagate_row_lookup; [done|..|done];
        intros ->; repeat (apply elem_of_cons in Hf as [Hf|Hf]; [discriminate|]);
        by apply elem_of_nil in Hf. }
    rewrite (Hr fld Hf).
    assert (String.eqb fld "Parent" = false) as -> by (by apply String.eqb_neq).
    done.
Qed.

Lemma append_row_accepts (ws : sheet) headers (r : row) w :
  (∀ fld, fld ∈ REQUIRED_FIELDS → is_missing r fld = false) →
  append_row_by_headers ws headers r w = Done (ws ++ [row_cells headers r]) w.
Proof.
  intros Hr. unfold append_row_by_headers.
  assert (filter (fun fld => is_missing r fld = true) REQUIRED_FIELDS = []) as ->; [|done].
  apply elem_of_nil_inv. intros fld [Hb Hf]%list_elem_of_filter.
  rewrite (Hr fld Hf) in Hb. discriminate.
Qed.

End Finishing.

Section Handler.
Local Open Scope list_scope.
Context `{FloatModel} (fuel : nat) (f : Form).
Hypothesis Hfuel : (1 ≤ fuel)%nat.

Lemma on_generate_upper (child_data : list row) (sec2 sec3 : section) w :
  upper_errors f child_data ≠ [] →
  on_generate fuel f (parent_row_of f) child_data sec2 sec3 w
  = Done {| child_rows := child_data; level2_rows := []; level3_rows := [];
            errors := upper_errors f child_data |} w.
Proof.
  intros Hne. unfold on_generate. fold (upper_errors f child_data).
  by destruct (upper_errors f child_data).
Qed.

Lemma on_generate_lower (child_data : list row) (sec2 sec3 : section) w l2 l3 w' :
  upper_errors f child_data = [] →
  assemble_lower fuel f child_data sec2 sec3 w = Done (l2, l3) w' →
  on_generate fuel f (parent_row_of f) child_data sec2 sec3 w
  = Done {| child_rows := propagate_parent_fields f (resequence f child_data);
            level2_rows := propagate_parent_fields f (resequence f l2);
            level3_rows := propagate_parent_fields f (resequence f l3);
            errors := lower_errors f l2 l3 |} w'.
Proof.
  intros He Ea. unfold on_generate. fold (upper_errors f child_data).
  rewrite He. cbn [is_empty app]. by rewrite (bind_step _ _ w (l2, l3) w').
Qed.

Lemma append_all_run headers (rows : list row) (ws : sheet) w :
  Forall (fun r => ∀ fld, fld ∈ REQUIRED_FIELDS →
                     is_missing (clear_self_parent r) fld = false) rows →
  append_all headers rows ws w
  = Done (ws ++ (row_cells headers <$> (clear_self_parent <$> rows))) w.
Proof.
  unfold append_all. revert ws. induction rows as [|r rows IH]; intros ws Hrows.
  - cbn. by rewrite app_nil_r.
  - apply Forall_cons in Hrows as [Hr Hrows]. cbn [fold_m].
    rewrite (bind_step _ _ w (ws ++ [row_cells headers (clear_self_parent r)]) w)
      by (by apply append_row_accepts).
    rewrite IH by done. cbn [fmap list_fmap]. by rewrite <- app_assoc.
Qed.

Lemma accepted_after_check (rows : list row) :
  Forall (fun r => required_present r) (resequence f rows) →
  Forall (fun r => ∀ fld, fld ∈ REQUIRED_FIELDS →
                     is_missing (clear_self_parent r) fld = false)
         (propagate_parent_fields f (resequence f rows)).
Proof.
  intros Hall. rewrite propagate_parent_fields_fmap. apply Forall_fmap.
  apply Forall_lookup. intros i r Hr. unfold compose.
  pose proof (Forall_lookup_1 _ _ _ _ Hall Hr) as Hp.
  unfold resequence in Hr. rewrite list_lookup_imap in Hr.
  destruct (rows !! i) as [r0|]; [|done]. cbn in Hr. simplify_eq.
  intros fld Hf. by apply is_missing_finished.
Qed.

Lemma resequence_required (rows : list row) :
  Forall required_present rows → Forall required_present (resequence f rows).
Proof.
  intros Hall. unfold resequence. eapply Forall_imap; [exact Hall|].
  intros i r Hr. by apply required_present_insert_sequence.
Qed.

Lemma write_output_run (pr : row) (l1 l2 l3 : list row) w :
  Forall required_present (resequence f l1) →
  Forall required_present (resequence f l2) →
  Forall required_present (resequence f l3) →
  write_output f pr
    {| child_rows := propagate_parent_fields f (resequence f l1);
       level2_rows := propagate_parent_fields f (resequence f l2);
       level3_rows := propagate_parent_fields f (resequence f l3);
       errors := [] |} w
  = Done (written f pr l1 l2 l3) w.
Proof.
  intros H1 H2 H3. unfold write_output. cbn [child_rows level2_rows level3_rows].
  rewrite (bind_step _ _ w _ w (append_all_run _ _ _ w (accepted_after_check l1 H1))).
  rewrite (bind_step _ _ w _ w (append_all_run _ _ _ w (accepted_after_check l2 H2))).
  rewrite (append_all_run _ _ _ w (accepted_after_check l3 H3)).
  unfold written, finished. by rewrite !fmap_app, <- !app_assoc.
Qed.

Lemma render_levels_run w :
  (∃ child_data sec2 sec3 w',
      render_levels fuel f w = Done (child_data, sec2, sec3) w'
      ∧ level1_section fuel f w = Done child_data w'
      ∧ level2_section f child_data w' = Done sec2 w'
      ∧ level3_section f child_data (sec_config sec2) w' = Done sec3 w'
      ∧ Forall (linked 1) child_data
      ∧ Forall (from_widgets 2) (sec_config sec2)
      ∧ Forall (from_widgets 3) (sec_config sec3))
  ∨ (render_levels fuel f w = Raised ZeroDivisionError
     ∧ ∃ child_data w', level1_section fuel f w = Done child_data w'
         ∧ level2_section f child_data w' = Raised ZeroDivisionError).
Proof.
  unfold render_levels.
  destruct (level1_section_run fuel f w Hfuel) as (cd & w1 & E1 & Hcd).
  rewrite (bind_step _ _ w cd w1 E1).
  destruct (level2_section_cases f cd w1) as (_ & _ & [(sec2 & E2 & Hw2 & _)|(E2 & _)]).
  - rewrite (bind_step _ _ w1 sec2 w1 E2).
    destruct (level3_section_cases f cd (sec_config sec2) w1)
      as (_ & sec3 & E3 & Hw3 & _).
    left. exists cd, sec2, sec3, w1.
    split; [by rewrite (bind_step _ _ w1 sec3 w1 E3)|done].
  - right. split; [by apply bind_raised|]. by exists cd, w1.
Qed.

End Handler.

Section Page.
Local Open Scope list_scope.
Context `{FloatModel} (fuel : nat) (f : Form).
Hypothesis Hfuel : (1 ≤ fuel)%nat.

Lemma main_unfold w :
  main fuel f w =
  (let mismatch := header_mismatch f in
   let shown := if mismatch then [HeaderMismatchWarning] else [] in
   if mismatch && negb (continue_anyway f) then
     ret {| notices := shown; download := None |}
   else
     let parent_row := parent_row_of f in
     if negb (truthy (VStr (w_partno (parent f)))) then
       ret {| notices := shown ++ [EnterParentInfo]; download := None |}
     else
       let* levels := render_levels fuel f in
       let child_data := levels.1.1 in
       let sec2 := levels.1.2 in
       let sec3 := levels.2 in
       let shown := shown ++ sec_notices sec2 ++ sec_notices sec3 in
       if generate_clicked f then
         let* a := on_generate fuel f parent_row child_data sec2 sec3 in
         if negb (is_empty (errors a)) then
           ret {| notices := shown ++ (ErrorNotice <$> errors a); download := None |}
         else
           match parent_row with
           | Some pr =>
               let* ws := write_output f pr a in
               ret {| notices := shown ++ [SuccessNotice]; download := Some ws |}
           | None => raise AttributeError
           end
       else
         ret {| notices := shown; download := None |}) (after_reset w).
Proof. reflexivity. Qed.

Lemma truthy_VStr (s : string) : truthy (VStr s) = true ↔ s ≠ "".
Proof. cbn [truthy]. rewrite negb_true_iff. apply String.eqb_neq. Qed.

Lemma parent_row_of_some :
  w_partno (parent f) ≠ "" → ∃ pr, parent_row_of f = Some pr.
Proof.
  intros Hp. unfold parent_row_of. rewrite (proj2 (truthy_VStr _) Hp). eauto.
Qed.

Lemma main_stops w :
  ¬ proceeds f →
  ∃ shown, main fuel f w = Done {| notices := shown; download := None |} (after_reset w)
    ∧ Forall (fun n => n = HeaderMismatchWarning ∨ n = EnterParentInfo) shown.
Proof.
  intros Hnot. rewrite main_unfold. cbn zeta.
  destruct (header_mismatch f && negb (continue_anyway f)) eqn:Eh.
  - eexists. split; [reflexivity|].
    destruct (header_mismatch f); repeat constructor.
  - destruct (truthy (VStr (w_partno (parent f)))) eqn:Et.
    + exfalso. apply Hnot. split; [done|]. by apply truthy_VStr.
    + eexists. split; [reflexivity|].
      destruct (header_mismatch f); repeat constructor; by right.
Qed.

Lemma main_render_raised w e :
  proceeds f → render_levels fuel f (after_reset w) = Raised e →
  main fuel f w = Raised e.
Proof.
  intros [Eh Hp] Er. rewrite main_unfold. cbn zeta. rewrite Eh.
  rewrite (proj2 (truthy_VStr _) Hp). cbn [negb]. by apply bind_raised.
Qed.

Lemma main_rendered w cd sec2 sec3 w1 :
  proceeds f → render_levels fuel f (after_reset w) = Done (cd, sec2, sec3) w1 →
  main fuel f w =
  (if generate_clicked f then
     let* a := on_generate fuel f (parent_row_of f) cd sec2 sec3 in
     if negb (is_empty (errors a)) then
       ret {| notices := shown_notices f sec2 sec3 ++ (ErrorNotice <$> errors a);
              download := None |}
     else
       match parent_row_of f with
       | Some pr =>
           let* ws := write_output f pr a in
           ret {| notices := shown_notices f sec2 sec3 ++ [SuccessNotice];
                  download := Some ws |}
       | None => raise AttributeError
       end
   else ret {| notices := shown_notices f sec2 sec3; download := None |}) w1.
Proof.
  intros [Eh Hp] Er. rewrite main_unfold. cbn zeta. rewrite Eh.
  rewrite (proj2 (truthy_VStr _) Hp). cbn [negb].
  by rewrite (bind_step _ _ _ _ _ Er).
Qed.

Lemma main_idle w cd sec2 sec3 w1 :
  proceeds f → render_levels fuel f (after_reset w) = Done (cd, sec2, sec3) w1 →
  generate_clicked f = false →
  main fuel f w = Done {| notices := shown_notices f sec2 sec3; download := None |} w1.
Proof. intros Hp Er Hc. rewrite (main_rendered w cd sec2 sec3 w1 Hp Er). by rewrite Hc. Qed.

Lemma main_upper_errors w cd sec2 sec3 w1 :
  proceeds f → render_levels fuel f (after_reset w) = Done (cd, sec2, sec3) w1 →
  generate_clicked f = true → upper_errors f cd ≠ [] →
  main fuel f w
  = Done {| notices := shown_notices f sec2 sec3 ++ (ErrorNotice <$> upper_errors f cd);
            download := None |} w1.
Proof.
  intros Hp Er Hc He. rewrite (main_rendered w cd sec2 sec3 w1 Hp Er), Hc.
  rewrite (bind_step _ _ _ _ _ (on_generate_upper fuel f cd sec2 sec3 w1 He)).
  cbn [errors]. by destruct (upper_errors f cd).
Qed.

Lemma main_lower_errors w cd sec2 sec3 w1 l2 l3 w2 :
  proceeds f → render_levels fuel f (after_reset w) = Done (cd, sec2, sec3) w1 →
  generate_clicked f = true → upper_errors f cd = [] →
  assemble_lower fuel f cd sec2 sec3 w1 = Done (l2, l3) w2 →
  lower_errors f l2 l3 ≠ [] →
  main fuel f w
  = Done {| notices := shown_notices f sec2 sec3 ++ (ErrorNotice <$> lower_errors f l2 l3);
            download := None |} w2.
Proof.
  intros Hp Er Hc He Ea Hl. rewrite (main_rendered w cd sec2 sec3 w1 Hp Er), Hc.
  rewrite (bind_step _ _ _ _ _ (on_generate_lower fuel f cd sec2 sec3 w1 l2 l3 w2 He Ea)).
  cbn [errors]. by destruct (lower_errors f l2 l3).
Qed.

Lemma main_writes w cd sec2 sec3 w1 l2 l3 w2 pr :
  proceeds f → render_levels fuel f (after_reset w) = Done (cd, sec2, sec3) w1 →
  generate_clicked f = true → upper_errors f cd = [] →
  assemble_lower fuel f cd sec2 sec3 w1 = Done (l2, l3) w2 →
  lower_errors f l2 l3 = [] → parent_row_of f = Some pr →
  main fuel f w
  = Done {| notices := shown_notices f sec2 sec3 ++ [SuccessNotice];
            download := Some (written f pr cd l2 l3) |} w2.
Proof.
  intros Hp Er Hc He Ea Hl Hpr. rewrite (main_rendered w cd sec2 sec3 w1 Hp Er), Hc.
  rewrite (bind_step _ _ _ _ _ (on_generate_lower fuel f cd sec2 sec3 w1 l2 l3 w2 He Ea)).
  cbn [errors]. rewrite Hl, Hpr. cbn [is_empty negb].
  assert (Forall required_present (resequence f cd)) as H1.
  { apply resequence_required. unfold upper_errors in He.
    apply app_eq_nil in He as [_ He]. apply check_children_nil in He.
    eapply Forall_impl; [exact He|]. by intros r [? _]. }
  assert (Forall required_present (resequence f l2)
          ∧ Forall required_present (resequence f l3)) as [H2 H3].
  { unfold lower_errors in Hl. apply check_parts_nil in Hl.
    apply Forall_app in Hl as [Hl2 Hl3].
    split; (eapply Forall_impl; [eassumption|]); by intros r [? _]. }
  by rewrite (bind_step _ _ _ _ _ (write_output_run f pr cd l2 l3 w2 H1 H2 H3)).
Qed.

End Page.

Section Download.
Local Open Scope list_scope.
Context `{FloatModel} (fuel : nat) (f : Form).
Hypothesis Hfuel : (1 ≤ fuel)%nat.

Lemma proceeds_dec : proceeds f ∨ ¬ proceeds f.
Proof.
  unfold proceeds.
  destruct (header_mismatch f && negb (continue_anyway f)); [right; by intros [? _]|].
  destruct (decide (w_partno (parent f) = "")) as [E|E]; [right; by intros [_ ?]|by left].
Qed.

(** What a page with a download went through. *)
Lemma main_download w pg w' ws :
  main fuel f w = Done pg w' → download pg = Some ws →
  ∃ pr cd sec2 sec3 w1 l2 l3,
    proceeds f ∧ generate_clicked f = true ∧ parent_row_of f = Some pr
    ∧ render_levels fuel f (after_reset w) = Done (cd, sec2, sec3) w1
    ∧ assemble_lower fuel f cd sec2 sec3 w1 = Done (l2, l3) w'
    ∧ Forall (linked 1) cd ∧ Forall (linked 2) l2 ∧ Forall (linked 3) l3
    ∧ upper_errors f cd = [] ∧ lower_errors f l2 l3 = []
    ∧ ws = written f pr cd l2 l3
    ∧ notices pg = shown_notices f sec2 sec3 ++ [SuccessNotice].
Proof.
  intros Hmain Hdl.
  destruct proceeds_dec as [Hp|Hn].
  2:{ destruct (main_stops fuel f w Hn) as (shown & E & _).
      rewrite E in Hmain. injection Hmain as <- _. discriminate. }
  destruct (render_levels_run fuel f Hfuel (after_reset w))
    as [(cd & sec2 & sec3 & w1 & Er & _ & _ & _ & Hcd & Hw2 & Hw3)|(Er & _)].
  2:{ rewrite (main_render_raised fuel f w _ Hp Er) in Hmain. discriminate. }
  destruct (generate_clicked f) eqn:Hc.
  2:{ rewrite (main_idle fuel f w cd sec2 sec3 w1 Hp Er Hc) in Hmain.
      injection Hmain as <- _. discriminate. }
  destruct (upper_errors f cd) as [|e es] eqn:He.
  2:{ rewrite (main_upper_errors fuel f w cd sec2 sec3 w1 Hp Er Hc) in Hmain
        by (by rewrite He).
      injection Hmain as <- _. discriminate. }
  destruct (assemble_lower_run fuel f Hfuel cd sec2 sec3 w1 Hcd Hw2 Hw3)
    as (l2 & l3 & w2 & Ea & Hl2 & Hl3).
  destruct (lower_errors f l2 l3) as [|e es] eqn:Hl.
  2:{ rewrite (main_lower_errors fuel f w cd sec2 sec3 w1 l2 l3 w2 Hp Er Hc He Ea) in Hmain
        by (by rewrite Hl).
      injection Hmain as <- _. discriminate. }
  destruct (parent_row_of_some f (proj2 Hp)) as [pr Hpr].
  rewrite (main_writes fuel f w cd sec2 sec3 w1 l2 l3 w2 pr Hp Er Hc He Ea Hl Hpr) in Hmain.
  injection Hmain as Hpg Hw. rewrite <- Hpg in Hdl |- *. rewrite <- Hw.
  change (Some (written f pr cd l2 l3) = Some ws) in Hdl.
  injection Hdl as Hws.
  exists pr, cd, sec2, sec3, w1, l2, l3.
  split; [exact Hp|]. split; [reflexivity|]. split; [exact Hpr|].
  split; [exact Er|]. split; [exact Ea|]. split; [exact Hcd|].
  split; [exact Hl2|]. split; [exact Hl3|]. split; [exact He|].
  split; [exact Hl|]. split; [exact (eq_sym Hws)|].
  cbn [notices]. reflexivity.
Qed.

Lemma cell_row_cells headers h (r : row) :
  h ∈ headers → cell headers h (row_cells headers r) = get h r.
Proof.
  unfold row_cells. induction headers as [|h' headers IH]; intros Hin.
  - by apply elem_of_nil in Hin.
  - cbn [fmap list_fmap cell]. destruct (String.eqb_spec h' h) as [->|Hne]; [done|].
    apply IH. by apply elem_of_cons in Hin as [?|?].
Qed.


Ltac assign_lookup :=
  unfold assign; cbn [foldl fst snd];
  rewrite ?lookup_insert_ne by done; try apply lookup_insert_eq.


End Download.

Section Written.
Local Open Scope list_scope.
Context `{FloatModel} (f : Form).

Lemma finished_before (rows : list row) :
  finished f rows = clear_self_parent <$> before_clearing f rows.
Proof. reflexivity. Qed.

Lemma category_rule_ext (r r' : row) :
  get "Category" r' = get "Category" r → get "Source" r' = get "Source" r →
  category_rule r → category_rule r'.
Proof. unfold category_rule. by intros -> ->. Qed.

Lemma resequence_checked (rows : list row) :
  Forall (fun r => required_present r ∧ category_rule r) rows →
  Forall (fun r => required_present r ∧ category_rule r) (resequence f rows).
Proof.
  intros Hrows. apply Forall_lookup. intros i r' Hi.
  unfold resequence in Hi. rewrite list_lookup_imap in Hi.
  destruct (rows !! i) as [r|] eqn:Er; [|discriminate].
  cbn in Hi. apply (inj Some) in Hi. subst r'.
  destruct (proj1 (Forall_lookup _ _) Hrows i r Er) as [Hreq Hcat]. split.
  - by apply required_present_insert_sequence.
  - revert Hcat. apply category_rule_ext; by rewrite get_insert_ne.
Qed.

Lemma before_clearing_lookup (level : Z) (rows : list row) (i : nat) (b : row) :
  Forall (linked level) rows →
  Forall (fun r => required_present r ∧ category_rule r) (resequence f rows) →
  before_clearing f rows !! i = Some b → checked_row f level i b.
Proof.
  intros Hlinked Hchecked Hi. unfold before_clearing in Hi.
  rewrite propagate_parent_fields_fmap, list_lookup_fmap in Hi.
  destruct (resequence f rows !! i) as [r1|] eqn:E1; [|discriminate].
  cbn in Hi. apply (inj Some) in Hi. subst b.
  destruct (proj1 (Forall_lookup _ _) Hchecked i r1 E1) as [Hreq Hcat].
  unfold resequence in E1. rewrite list_lookup_imap in E1.
  destruct (rows !! i) as [r|] eqn:Er; [|discriminate].
  cbn in E1. apply (inj Some) in E1.
  destruct (proj1 (Forall_lookup _ _) Hlinked i r Er) as [[s Hs] Hlevel].
  assert (Hp : r1 !! "PartNo" = Some (VStr s))
    by (by rewrite <- E1, lookup_insert_ne).
  assert (Hreq' : ∀ fld, fld ∈ REQUIRED_FIELDS →
            in_none_empty (get fld (propagate_row f r1)) = false).
  { intros fld Hf. unfold get. rewrite propagate_row_lookup; [by apply Hreq|..];
      intros ->; repeat (apply elem_of_cons in Hf as [Hf|Hf]; [discriminate|]);
      by apply elem_of_nil in Hf. }
  split; [|split; [|split; [|split; [|split]]]].
  - exists s. split; [by rewrite propagate_row_lookup|].
    intros ->. specialize (Hreq "PartNo"). unfold get in Hreq. rewrite Hp in Hreq.
    discriminate Hreq. unfold REQUIRED_FIELDS. set_solver.
  - rewrite propagate_row_lookup by done. by rewrite <- E1, lookup_insert_ne.
  - rewrite propagate_row_lookup by done. by rewrite <- E1, lookup_insert_eq.
  - apply Hreq'. unfold REQUIRED_FIELDS. set_solver.
  - apply Hreq'. unfold REQUIRED_FIELDS. set_solver.
  - revert Hcat. apply category_rule_ext; unfold get; by rewrite propagate_row_lookup.
Qed.


Lemma clear_checked_lookup (level : Z) (i : nat) (b : row) :
  checked_row f level i b → checked_row f level i (clear_self_parent b)
  ∨ (self_parent b = true
     ∧ clear_self_parent b !! "Sequence"
       = Some (VInt ((Z.of_nat i + 1) * sequence_increment f))
     ∧ clear_self_parent b !! "Level" = Some (VInt level)).
Proof.
  intros Hb. rewrite clear_self_parent_eq. destruct (self_parent b); [right|by left].
  destruct Hb as (_ & Hl & Hs & _).
  split; [done|]. by rewrite !lookup_insert_ne.
Qed.

End Written.

Section WrittenPage.
Local Open Scope list_scope.
Context `{FloatModel} (fuel : nat) (f : Form).
Hypothesis Hfuel : (1 ≤ fuel)%nat.

(** The sheet of a page with a download, and where its rows come from. *)
Lemma main_written w pg w' ws :
  main fuel f w = Done pg w' → download pg = Some ws →
  ∃ top l1 l2 l3,
    parent_row_of f = Some top ∧ category_rule top
    ∧ ws = parent_values f (template_headers f) top
           :: (row_cells (template_headers f)
               <$> (clear_self_parent
                    <$> (before_clearing f l1 ++ before_clearing f l2
                         ++ before_clearing f l3)))
    ∧ (∀ i b, before_clearing f l1 !! i = Some b → checked_row f 1 i b)
    ∧ (∀ i b, before_clearing f l2 !! i = Some b → checked_row f 2 i b)
    ∧ (∀ i b, before_clearing f l3 !! i = Some b → checked_row f 3 i b).
Proof.
  intros Hmain Hdl.
  destruct (main_download fuel f Hfuel w pg w' ws Hmain Hdl)
    as (pr & cd & sec2 & sec3 & w1 & l2 & l3 & Hp & Hc & Hpr & Er & Ea
        & Hcd & Hl2 & Hl3 & Hup & Hlow & Hws & _).
  unfold upper_errors in Hup. apply app_eq_nil in Hup as [Hup1 Hup2].
  rewrite Hpr in Hup1. apply check_parent_nil in Hup1.
  apply check_children_nil in Hup2.
  unfold lower_errors in Hlow. apply check_parts_nil in Hlow.
  apply Forall_app in Hlow as [Hlow2 Hlow3].
  exists pr, cd, l2, l3. split; [exact Hpr|]. split; [exact Hup1|].
  split.
  { rewrite Hws. unfold written. rewrite !finished_before, !fmap_app. reflexivity. }
  split; [|split]; intros i b Hi.
  - exact (before_clearing_lookup f 1 cd i b Hcd (resequence_checked f cd Hup2) Hi).
  - exact (before_clearing_lookup f 2 l2 i b Hl2 Hlow2 Hi).
  - exact (before_clearing_lookup f 3 l3 i b Hl3 Hlow3 Hi).
Qed.

End WrittenPage.

Section Checks.
Local Open Scope list_scope.
Context `{FloatModel}.

Lemma before_clearing_split (f : Form) (l1 l2 l3 : list row) (b : row) :
  b ∈ before_clearing f l1 ++ before_clearing f l2 ++ before_clearing f l3 →
  ∃ level i, (level = 1 ∧ before_clearing f l1 !! i = Some b)
           ∨ (level = 2 ∧ before_clearing f l2 !! i = Some b)
           ∨ (level = 3 ∧ before_clearing f l3 !! i = Some b).
Proof.
  intros [Hb|[Hb|Hb]%elem_of_app]%elem_of_app;
    apply list_elem_of_lookup in Hb as [i Hi].
  - exists 1, i. by left.
  - exists 2, i. right. by left.
  - exists 3, i. right. by right.
Qed.

Lemma violates_validate (r : row) (who : label) :
  (∃ e, e ∈ as_errors (_validate_category_source (get "Category" r) (get "Source" r) who)
        ∧ is_category_error e = true)
  ↔ violates r.
Proof.
  unfold violates. split.
  - intros (e & He & _).
    destruct (_validate_category_source _ _ _) as [e'|] eqn:E;
      [|by apply elem_of_nil in He].
    apply validate_category_source_some in E as [(? & ? & _)|(? & ? & _)]; naive_solver.
  - intros [[Hc Hs]|[Hc Hs]].
    + exists (PhantomSource who). split; [|done].
      assert (_validate_category_source (get "Category" r) (get "Source" r) who
              = Some (PhantomSource who)) as ->; [|by apply list_elem_of_singleton].
      apply validate_category_source_some. by left.
    + exists (ExcludeSource who). split; [|done].
      assert (_validate_category_source (get "Category" r) (get "Source" r) who
              = Some (ExcludeSource who)) as ->; [|by apply list_elem_of_singleton].
      apply validate_category_source_some. by right.
Qed.

Lemma check_part_category (r : row) :
  (∃ e, e ∈ check_part r ∧ is_category_error e = true)
  ↔ required_present r ∧ violates r.
Proof.
  unfold check_part. rewrite <- missing_required_nil.
  destruct (missing_required r) as [|m ms] eqn:E; cbn [is_empty negb].
  - rewrite violates_validate. naive_solver.
  - split; [|by intros [[=] _]].
    intros (e & He & Hc). apply list_elem_of_singleton in He. by subst e.
Qed.

Lemma check_child_category (idx : Z) (r : row) :
  (∃ e, e ∈ check_child idx r ∧ is_category_error e = true)
  ↔ required_present r ∧ violates r.
Proof.
  unfold check_child. rewrite <- missing_required_nil.
  destruct (missing_required r) as [|m ms] eqn:E; cbn [is_empty negb].
  - rewrite violates_validate. naive_solver.
  - split; [|by intros [[=] _]].
    intros (e & He & Hc). apply list_elem_of_singleton in He. by subst e.
Qed.

Lemma present_in_none_empty (v : value) : present v ↔ in_none_empty v = false.
Proof. symmetry. apply in_none_empty_false. Qed.

Lemma is_missing_false (r : row) (fld : string) :
  is_missing r fld = false
  ↔ present (get fld r) ∨ (fld = "Parent" ∧ get fld r = VStr "").
Proof.
  unfold is_missing. rewrite present_in_none_empty.
  destruct (String.eqb_spec fld "Parent") as [->|Hne]; cbn [andb].
  - destruct (py_eq (get "Parent" r) (VStr "")) eqn:E.
    + apply py_eq_VStr_r in E. naive_solver.
    + split; [by left|]. intros [?|[_ E']]; [done|].
      apply py_eq_VStr_r in E'. congruence.
  - naive_solver.
Qed.

Lemma accepted_fields (r : row) :
  (∀ fld, fld ∈ REQUIRED_FIELDS → is_missing r fld = false)
  ↔ present (get "PartNo" r) ∧ present (get "Quantity" r)
    ∧ present (get "Sequence" r) ∧ get "Parent" r ≠ VNone.
Proof.
  split.
  - intros Hall.
    assert (Hp : "PartNo" ∈ REQUIRED_FIELDS) by (unfold REQUIRED_FIELDS; set_solver).
    assert (Hq : "Quantity" ∈ REQUIRED_FIELDS) by (unfold REQUIRED_FIELDS; set_solver).
    assert (Hs : "Sequence" ∈ REQUIRED_FIELDS) by (unfold REQUIRED_FIELDS; set_solver).
    assert (Ha : "Parent" ∈ REQUIRED_FIELDS) by (unfold REQUIRED_FIELDS; set_solver).
    pose proof (proj1 (is_missing_false r "PartNo") (Hall _ Hp)) as H1.
    pose proof (proj1 (is_missing_false r "Quantity") (Hall _ Hq)) as H2.
    pose proof (proj1 (is_missing_false r "Sequence") (Hall _ Hs)) as H3.
    pose proof (proj1 (is_missing_false r "Parent") (Hall _ Ha)) as H4.
    destruct H1 as [H1|[[=] _]], H2 as [H2|[[=] _]], H3 as [H3|[[=] _]].
    split; [done|]. split; [done|]. split; [done|].
    destruct H4 as [[H4 _]|[_ H4]]; [done|]. by rewrite H4.
  - intros (H1 & H2 & H3 & H4) fld Hf. apply is_missing_false.
    unfold REQUIRED_FIELDS in Hf.
    repeat (apply elem_of_cons in Hf as [->|Hf]); try (by left);
      try (by apply elem_of_nil in Hf).
    destruct (py_eq (get "Parent" r) (VStr "")) eqn:E.
    + right. split; [done|]. by apply py_eq_VStr_r.
    + left. split; [done|]. intros E'. apply py_eq_VStr_r in E'. congruence.
Qed.

End Checks.

(** C2. When the page produces a download, the rows below the top row are
    the rows assembled for Level 1 ([child_data]), Level 2 and Level 3, in
    that order and as many as were assembled.  The loops of [main] that
    reassign Sequence give the row at index [i] of each level
    [(i+1) * sequence_increment] in place of its provisional Sequence, and
    this is the Sequence the row is written with; apart from Sequence,
    Revision, Location and Parent the written row is the assembled one.  For
    an increment chosen from 1, 10, 100, 1000, 10000 the values of a level
    are strictly increasing positive multiples of the increment starting at
    [1 * increment]. *)
Theorem sequence_reassigned_per_level `{FloatModel} (fuel : nat) (f : Form)
    (w w' : world) (pg : page) (ws : sheet) :
  (1 ≤ fuel)%nat →
  sequence_increment f ∈ [1; 10; 100; 1000; 10000] →
  main fuel f w = Done pg w' → download pg = Some ws →
  ∃ (top : list value) (child_data : list row) (sec2 sec3 : section) (w1 : world)
    (level2_rows level3_rows : list row),
    render_levels fuel f (after_reset w) = Done (child_data, sec2, sec3) w1
    ∧ assemble_lower fuel f child_data sec2 sec3 w1
      = Done (level2_rows, level3_rows) w'
    ∧ ws = (top :: (row_cells (template_headers f)
                    <$> (finished f child_data ++ finished f level2_rows
                         ++ finished f level3_rows)))%list
    ∧ ∀ level rows,
        (level, rows) ∈ [(1, child_data); (2, level2_rows); (3, level3_rows)] →
        length (resequence f rows) = length rows
        ∧ length (finished f rows) = length rows
        ∧ ∀ i r, rows !! i = Some r →
            resequence f rows !! i
            = Some (<["Sequence" := VInt ((Z.of_nat i + 1) * sequence_increment f)]> r)
            ∧ ∃ r', finished f rows !! i = Some r'
                ∧ r' !! "Level" = Some (VInt level)
                ∧ r' !! "Sequence"
                  = Some (VInt ((Z.of_nat i + 1) * sequence_increment f))
                ∧ (∀ k, k ∉ ["Sequence"; "Revision"; "Location"; "Parent"] →
                     r' !! k = r !! k)
                ∧ ∀ j r'', (i < j)%nat → finished f rows !! j = Some r'' →
                    ∃ a b, r' !! "Sequence" = Some (VInt a)
                           ∧ r'' !! "Sequence" = Some (VInt b) ∧ 0 < a < b.
Proof.
  intros Hfuel Hinc Hmain Hdl.
  destruct (main_download fuel f Hfuel w pg w' ws Hmain Hdl)
    as (pr & cd & sec2 & sec3 & w1 & l2 & l3 & _ & _ & _ & Er & Ea
        & Hcd & Hl2 & Hl3 & _ & _ & Hws & _).
  exists (parent_values f (template_headers f) pr), cd, sec2, sec3, w1, l2, l3.
  split; [exact Er|]. split; [exact Ea|]. split; [exact Hws|].
  assert (Hpos : 0 < sequence_increment f).
  { repeat (apply elem_of_cons in Hinc as [->|Hinc]); try lia.
    by apply elem_of_nil in Hinc. }
  intros level rows Hin.
  assert (Hlinked : Forall (linked level) rows).
  { repeat (apply elem_of_cons in Hin as [[= -> ->]|Hin]); try done.
    by apply elem_of_nil in Hin. }
  clear Hin. split; [apply length_imap|]. split; [apply finished_length|].
  intros i r Hi. split.
  { unfold resequence. by rewrite list_lookup_imap, Hi. }
  eexists. split; [apply finished_lookup; by exists r|].
  destruct (proj1 (Forall_lookup _ _) Hlinked i r Hi) as [_ Hlevel].
  split; [by rewrite finished_row_keeps|].
  split; [apply finished_row_sequence|]. split.
  - intros k Hk. apply finished_row_keeps; intros ->; apply Hk; set_solver.
  - intros j r'' Hij Hj. apply finished_lookup in Hj as (rj & _ & ->).
    eexists _, _. split; [apply finished_row_sequence|].
    split; [apply finished_row_sequence|]. nia.
Qed.


(** C4 (amended). [_validate_category_source] objects exactly to Category
    "P" with a Source outside {"M","F"} and to Category "X" with a Source
    other than "P"; any other Category, blank included, gives no message.  A
    Level 1, 2 or 3 row gets such a message exactly when it is in one of
    these two cases AND none of its required fields is missing (a row with a
    missing field gets the missing-field message only); the parent part gets
    it exactly when it is in one of the two cases.  When the page produces a
    download, the top row and every row below it satisfy Category "P" implies
    Source in {"M","F"} and Category "X" implies Source "P". *)
Theorem category_source_validation `{FloatModel} :
  (∀ cat src who e,
     _validate_category_source cat src who = Some e ↔
     (cat = VStr "P" ∧ in_M_F src = false ∧ e = PhantomSource who)
     ∨ (cat = VStr "X" ∧ src ≠ VStr "P" ∧ e = ExcludeSource who))
  ∧ (∀ r, (∃ e, e ∈ check_parent (Some r) ∧ is_category_error e = true) ↔ violates r)
  ∧ (∀ idx r, (∃ e, e ∈ check_child idx r ∧ is_category_error e = true)
              ↔ required_present r ∧ violates r)
  ∧ (∀ r, (∃ e, e ∈ check_part r ∧ is_category_error e = true)
          ↔ required_present r ∧ violates r)
  ∧ (∀ fuel f w w' pg ws,
       (1 ≤ fuel)%nat → main fuel f w = Done pg w' → download pg = Some ws →
       ∃ top rows,
         ws = (parent_values f (template_headers f) top
               :: (row_cells (template_headers f) <$> rows))%list
         ∧ parent_row_of f = Some top
         ∧ category_rule top ∧ Forall category_rule rows).
Proof.
  split; [exact validate_category_source_some|].
  split; [intros r; apply violates_validate|].
  split; [exact check_child_category|].
  split; [exact check_part_category|].
  intros fuel f w w' pg ws Hfuel Hmain Hdl.
  destruct (main_written fuel f Hfuel w pg w' ws Hmain Hdl)
    as (top & l1 & l2 & l3 & Htop & Hcat & Hws & H1 & H2 & H3).
  exists top,
    (clear_self_parent
     <$> (before_clearing f l1 ++ before_clearing f l2 ++ before_clearing f l3)%list).
  split; [exact Hws|]. split; [exact Htop|]. split; [exact Hcat|].
  apply Forall_fmap, Forall_forall. intros b Hb. cbn.
  assert (Hb' : category_rule b).
  { destruct (before_clearing_split f l1 l2 l3 b Hb)
      as (level & i & [[-> Hi]|[[-> Hi]|[-> Hi]]]).
    - by destruct (H1 i b Hi) as (_ & _ & _ & _ & _ & ?).
    - by destruct (H2 i b Hi) as (_ & _ & _ & _ & _ & ?).
    - by destruct (H3 i b Hi) as (_ & _ & _ & _ & _ & ?). }
  revert Hb'. apply category_rule_ext; unfold get; by rewrite clear_self_parent_lookup.
Qed.

(** C8 (amended). [append_row_by_headers] accepts a row exactly when its
    PartNo, Quantity and Sequence are present and non-empty and its Parent is
    not [None] or absent; an empty-string Parent is accepted on any row, not
    only on a designated top-level row.  A row that is not accepted is
    rejected with a [ValueError] naming the missing fields: a non-empty list
    of exactly the required fields that are [None], absent or (except for
    Parent) empty. *)
Theorem append_row_required_fields `{FloatModel} (ws : sheet) (headers : list string)
    (r : row) (w : world) :
  (append_row_by_headers ws headers r w = Done (ws ++ [row_cells headers r])%list w
   ↔ present (get "PartNo" r) ∧ present (get "Quantity" r)
     ∧ present (get "Sequence" r) ∧ get "Parent" r ≠ VNone)
  ∧ (append_row_by_headers ws headers r w = Done (ws ++ [row_cells headers r])%list w
     ∨ ∃ missing,
         append_row_by_headers ws headers r w = Raised (ValueError missing)
         ∧ missing ≠ []
         ∧ ∀ fld, fld ∈ missing ↔
             fld ∈ REQUIRED_FIELDS
             ∧ ¬ (present (get fld r) ∨ (fld = "Parent" ∧ get fld r = VStr ""))).
Proof.
  rewrite <- accepted_fields. unfold append_row_by_headers.
  destruct (filter (fun fld => is_missing r fld = true) REQUIRED_FIELDS)
    as [|m ms] eqn:E; cbn [is_empty negb].
  - assert (Hall : ∀ fld, fld ∈ REQUIRED_FIELDS → is_missing r fld = false).
    { intros fld Hf. destruct (is_missing r fld) eqn:Em; [|done].
      assert (fld ∈ filter (fun fld => is_missing r fld = true) REQUIRED_FIELDS)
        by (by apply list_elem_of_filter).
      rewrite E in *. by apply elem_of_nil in H0. }
    split; [done|by left].
  - split.
    + split; [discriminate|]. intros Hall.
      assert (Hm : m ∈ filter (fun fld => is_missing r fld = true) REQUIRED_FIELDS)
        by (rewrite E; apply list_elem_of_here).
      apply list_elem_of_filter in Hm as [Hm Hf]. rewrite (Hall m Hf) in Hm. discriminate.
    + right. exists (m :: ms). split; [done|]. split; [done|].
      intros fld. rewrite <- E, list_elem_of_filter, <- is_missing_false.
      destruct (is_missing r fld); naive_solver.
Qed.

Section Reported.
Local Open Scope list_scope.
Context `{FloatModel}.

Lemma reported_app (ns1 ns2 : list notice) (d1 d2 : option sheet) :
  reported {| notices := ns1 ++ ns2; download := d1 |}
  = reported {| notices := ns1; download := d2 |}
    ++ reported {| notices := ns2; download := d2 |}.
Proof. unfold reported. cbn [notices]. apply omap_app. Qed.

Lemma reported_errors (errs : list message) (d : option sheet) :
  reported {| notices := ErrorNotice <$> errs; download := d |} = errs.
Proof.
  unfold reported. cbn [notices]. induction errs as [|e errs IH]; [done|].
  cbn. by rewrite IH.
Qed.

Lemma level2_section_quiet (f : Form) (cd : list row) w sec w' :
  level2_section f cd w = Done sec w' →
  reported {| notices := sec_notices sec; download := None |} = [].
Proof.
  unfold level2_section. destruct (is_empty (level1_partnos_of cd)).
  - intros [= <- _]. reflexivity.
  - intros (cfg & w1 & _ & Hret)%bind_done. apply ret_done in Hret as [<- _].
    cbn [sec_notices]. by destruct (block_l2_of cd).
Qed.

Lemma level3_section_quiet (f : Form) (cd : list row) (cfg2 : list group_config)
    w sec w' :
  level3_section f cd cfg2 w = Done sec w' →
  reported {| notices := sec_notices sec; download := None |} = [].
Proof.
  unfold level3_section. destruct (is_empty (level1_partnos_of cd)).
  { intros [= <- _]. reflexivity. }
  match goal with
  | |- (if ?c then _ else _) w = _ → _ => destruct c
  end.
  - intros (cfg & w1 & _ & Hret)%bind_done. apply ret_done in Hret as [<- _].
    cbn [sec_notices]. unfold reported. cbn [notices omap list_omap].
    repeat match goal with |- context [if ?c then _ else _] => destruct c end;
      reflexivity.
  - match goal with
    | |- (if ?c then _ else _) w = _ → _ => destruct c
    end; intros Hret; apply ret_done in Hret as [<- _]; cbn [sec_notices];
      unfold reported; cbn [notices];
      repeat match goal with |- context [if ?c then _ else _] => destruct c end;
      reflexivity.
Qed.

Lemma shown_notices_quiet (fuel : nat) (f : Form) w cd sec2 sec3 w1 :
  (1 ≤ fuel)%nat →
  render_levels fuel f w = Done (cd, sec2, sec3) w1 →
  ∀ d, reported {| notices := shown_notices f sec2 sec3; download := d |} = [].
Proof.
  intros Hfuel Hr d.
  destruct (render_levels_run fuel f Hfuel w)
    as [(cd' & s2 & s3 & w' & E & _ & E2 & E3 & _)|(E & _)];
    rewrite E in Hr; [|discriminate].
  injection Hr as -> -> -> ->.
  unfold shown_notices.
  rewrite (reported_app _ _ d None), (reported_app _ _ None None).
  rewrite (level2_section_quiet _ _ _ _ _ E2), (level3_section_quiet _ _ _ _ _ _ E3).
  by destruct (header_mismatch f).
Qed.

End Reported.

Section Parents.
Local Open Scope list_scope.
Context `{FloatModel}.

(** A part number offered as a Level 2 parent is that of a Level 1 row
    whose Source is "M" or "F". *)
Lemma level1_manufactured_row (cd : list row) (p : value) :
  p ∈ level1_partnos_manufactured_of cd →
  ∃ c, c ∈ cd ∧ py_eq (get "PartNo" c) p = true ∧ in_M_F (get "Source" c) = true.
Proof.
  unfold level1_partnos_manufactured_of. intros [Hsrc _]%list_elem_of_filter.
  unfold first_source in Hsrc.
  destruct (List.find _ cd) as [c|] eqn:Ef; [|discriminate].
  apply List.find_some in Ef as [Hin Heq].
  exists c. split; [by apply list_elem_of_In|done].
Qed.

Lemma no_manufactured_level1 (cd : list row) :
  (∀ c, c ∈ cd → in_M_F (get "Source" c) = false) →
  any_l1_manufactured_of cd = false.
Proof.
  intros Hall. unfold any_l1_manufactured_of.
  apply not_true_is_false. intros (c & Hin & Hc)%existsb_exists.
  apply list_elem_of_In, list_elem_of_filter in Hin as [_ Hin].
  rewrite (Hall c Hin) in Hc. discriminate.
Qed.

(** The sources recorded for the manual Level 2 part numbers. *)
Lemma partno_to_source_rows (rows : list row) (d : gmap string value) s v :
  foldl (fun d r =>
           match get "PartNo" r with
           | VStr pno => if truthy (VStr pno) then <[pno := get "Source" r]> d else d
           | _ => d
           end) d rows !! s = Some v →
  d !! s = Some v
  ∨ ∃ r, r ∈ rows ∧ get "PartNo" r = VStr s ∧ get "Source" r = v.
Proof.
  revert d. induction rows as [|r rows IH]; intros d; cbn [foldl]; [by left|].
  intros [Hd|(r' & Hr' & ?)]%IH.
  - destruct (get "PartNo" r) as [|pno| |] eqn:Ep; try (by left).
    destruct (truthy (VStr pno)); [|by left].
    destruct (decide (pno = s)) as [->|Hne].
    + rewrite lookup_insert_eq in Hd. injection Hd as <-.
      right. exists r. split; [apply list_elem_of_here|done].
    + rewrite lookup_insert_ne in Hd by done. by left.
  - right. exists r'. split; [by apply list_elem_of_further|done].
Qed.

Lemma partno_to_source_configs (cfgs : list group_config) (d : gmap string value) s v :
  foldl (fun d cfg =>
      match cfg with
      | ManualGroup _ _ rows =>
          foldl (fun d r =>
              match get "PartNo" r with
              | VStr pno => if truthy (VStr pno) then <[pno := get "Source" r]> d else d
              | _ => d
              end) d rows
      | RandomGroup _ _ _ _ => d
      end) d cfgs !! s = Some v →
  d !! s = Some v
  ∨ ∃ r, r ∈ manual_rows_of cfgs ∧ get "PartNo" r = VStr s ∧ get "Source" r = v.
Proof.
  revert d. induction cfgs as [|cfg cfgs IH]; intros d; cbn [foldl]; [by left|].
  intros [Hd|(r & Hr & ?)]%IH.
  - destruct cfg as [| parent_of n rows]; [by left|].
    apply partno_to_source_rows in Hd as [Hd|(r & Hr & ?)]; [by left|].
    right. exists r. split; [|done].
    unfold manual_rows_of. cbn [flat_map]. apply elem_of_app. by left.
  - right. exists r. split; [|done].
    unfold manual_rows_of. cbn [flat_map]. apply elem_of_app. by right.
Qed.

(** A part number offered as a Level 3 parent is that of a manual Level 2
    row whose Source is "M" or "F". *)
Lemma level2_manufactured_row (cfgs : list group_config) (p : value) :
  p ∈ level2_partnos_manufactured_of cfgs →
  ∃ r, r ∈ manual_rows_of cfgs ∧ get "PartNo" r = p ∧ in_M_F (get "Source" r) = true.
Proof.
  unfold level2_partnos_manufactured_of. intros [Hsrc _]%list_elem_of_filter.
  unfold source_of in Hsrc. destruct p as [|s| |]; try discriminate.
  destruct (level2_partno_to_source_of cfgs !! s) as [v|] eqn:Es; [|discriminate].
  cbn in Hsrc. unfold level2_partno_to_source_of in Es.
  apply partno_to_source_configs in Es as [Es|(r & Hr & Hp & Hv)].
  - by rewrite lookup_empty in Es.
  - exists r. by rewrite Hv.
Qed.

Lemma no_manufactured_level2 (cfgs : list group_config) :
  (∀ r, r ∈ manual_rows_of cfgs → in_M_F (get "Source" r) = false) →
  level2_partnos_manufactured_of cfgs = [].
Proof.
  intros Hall. apply elem_of_nil_inv. intros p Hp.
  apply level2_manufactured_row in Hp as (r & Hr & _ & Hs).
  rewrite (Hall r Hr) in Hs. discriminate.
Qed.

End Parents.

(** C6 (amended). Level 2: when no Level 1 row has a Source in {"M","F"}
    and some Level 1 row has a part number, the Level 2 section is the
    warning alone, with no "for each" option and no group; when no Level 1
    row has a part number the section is not drawn at all and nothing is
    reported.  Whenever the section is drawn, the parent of a Level 2 group
    is the part number of a Level 1 row whose Source is in {"M","F"}, or
    [None] when the selectbox has no option.  Level 3 is gated on the
    manually entered Level 2 rows only: its section is always drawn without
    an exception; when no manual Level 2 row has a Source in {"M","F"} it
    has no group, and it carries the warning and no "for each" option
    provided some Level 1 row and some manual Level 2 row have a part
    number; the parent of a Level 3 group is the part number of a manual
    Level 2 row whose Source is in {"M","F"}. *)
Theorem lower_levels_gated `{FloatModel} (f : Form) (child_data : list row)
    (level2_config : list group_config) (w : world) :
  ((∀ c, c ∈ child_data → in_M_F (get "Source" c) = false) →
   level1_partnos_of child_data ≠ [] →
   level2_section f child_data w
   = Done {| sec_notices := [NoManufacturedLevel1Warning];
             sec_per_parent := None; sec_config := [] |} w)
  ∧ (level1_partnos_of child_data = [] →
     level2_section f child_data w = Done no_section w)
  ∧ (∀ sec w' cfg,
       level2_section f child_data w = Done sec w' → cfg ∈ sec_config sec →
       config_parent cfg = VNone
       ∨ ∃ c, c ∈ child_data ∧ py_eq (get "PartNo" c) (config_parent cfg) = true
              ∧ in_M_F (get "Source" c) = true)
  ∧ ∃ sec3,
      level3_section f child_data level2_config w = Done sec3 w
      ∧ ((∀ r, r ∈ manual_rows_of level2_config → in_M_F (get "Source" r) = false) →
         sec_config sec3 = []
         ∧ (level1_partnos_of child_data ≠ [] →
            level2_partnos_for_l3_of level2_config ≠ [] →
            NoManufacturedLevel2Warning ∈ sec_notices sec3
            ∧ sec_per_parent sec3 = None))
      ∧ (∀ cfg, cfg ∈ sec_config sec3 →
           ∃ r, r ∈ manual_rows_of level2_config
                ∧ get "PartNo" r = config_parent cfg
                ∧ in_M_F (get "Source" r) = true).
Proof.
  destruct (level2_section_cases f child_data w) as (Hnone & Hblock & Hdrawn).
  split; [|split; [exact Hnone|split]].
  - intros Hall Hne. apply Hblock; [done|]. by apply no_manufactured_level1.
  - intros sec w' cfg Hsec Hcfg.
    destruct Hdrawn as [(sec' & E & _ & Hparents & _)|(E & _)];
      rewrite E in Hsec; [|discriminate].
    injection Hsec as <- _.
    destruct (proj1 (Forall_forall _ _) Hparents cfg Hcfg) as [Hin|[_ ?]]; [|by left].
    right. by apply level1_manufactured_row.
  - destruct (level3_section_cases f child_data level2_config w)
      as (_ & sec3 & E & _ & Hparents & Hwarn & Hblocked & _).
    exists sec3. split; [exact E|]. split.
    + intros Hall. pose proof (no_manufactured_level2 _ Hall) as Hm.
      split.
      * destruct (sec_config sec3) as [|cfg cfgs] eqn:Ec; [done|].
        apply Forall_cons in Hparents as [Hcfg _]. rewrite Hm in Hcfg.
        by apply elem_of_nil in Hcfg.
      * intros H1 H2. assert (Hw : NoManufacturedLevel2Warning ∈ sec_notices sec3)
          by (by apply Hwarn).
        split; [done|]. by apply Hblocked.
    + intros cfg Hcfg. apply level2_manufactured_row.
      exact (proj1 (Forall_forall _ _) Hparents cfg Hcfg).
Qed.

(** C7 (amended). The page either stops with a [ZeroDivisionError] while
    drawing the Level 2 section or returns.  When the button is handled,
    validation runs in two passes that each accumulate every message of
    every row they look at: first the parent part and all Level 1 rows; the
    Level 2 and Level 3 rows are assembled and checked only when that first
    pass found nothing, so their errors are not reported together with Level
    1 errors.  The messages shown are exactly those of the pass that failed,
    and a download is produced exactly when the button was handled and no
    message is shown. *)
Theorem errors_reported_in_two_passes `{FloatModel} (fuel : nat) (f : Form)
    (w : world) :
  (1 ≤ fuel)%nat →
  main fuel f w = Raised ZeroDivisionError
  ∨ ∃ pg w',
      main fuel f w = Done pg w'
      ∧ (is_Some (download pg)
         ↔ proceeds f ∧ generate_clicked f = true ∧ reported pg = [])
      ∧ (¬ proceeds f ∨ generate_clicked f = false → reported pg = [])
      ∧ (proceeds f → generate_clicked f = true →
         ∃ cd sec2 sec3 w1,
           render_levels fuel f (after_reset w) = Done (cd, sec2, sec3) w1
           ∧ (upper_errors f cd ≠ [] →
              reported pg = upper_errors f cd
              ∧ (∀ m, m ∈ check_parent (parent_row_of f) → m ∈ reported pg)
              ∧ (∀ i c m, cd !! i = Some c →
                   m ∈ check_child (Z.of_nat i + 1) c → m ∈ reported pg))
           ∧ (upper_errors f cd = [] →
              ∃ l2 l3,
                assemble_lower fuel f cd sec2 sec3 w1 = Done (l2, l3) w'
                ∧ reported pg = lower_errors f l2 l3
                ∧ (∀ r m, r ∈ (resequence f l2 ++ resequence f l3)%list →
                     m ∈ check_part r → m ∈ reported pg))).
Proof.
  intros Hfuel.
  destruct (proceeds_dec f) as [Hp|Hn].
  2:{ right. destruct (main_stops fuel f w Hn) as (shown & E & Hshown).
      eexists _, _. split; [exact E|]. cbn [download].
      assert (Hq : reported {| notices := shown; download := None |} = []).
      { unfold reported. cbn [notices]. clear E.
        induction Hshown as [|n ns [->| ->] _ IH]; [done|exact IH|exact IH]. }
      split; [|split].
      - split; [by intros [? [=]]|]. by intros [? _].
      - done.
      - done. }
  destruct (render_levels_run fuel f Hfuel (after_reset w))
    as [(cd & sec2 & sec3 & w1 & Er & _ & _ & _ & Hcd & Hw2 & Hw3)|(Er & _)].
  2:{ left. exact (main_render_raised fuel f w _ Hp Er). }
  right.
  pose proof (shown_notices_quiet fuel f _ _ _ _ _ Hfuel Er) as Hquiet.
  destruct (generate_clicked f) eqn:Hc.
  2:{ eexists _, _. split; [exact (main_idle fuel f w cd sec2 sec3 w1 Hp Er Hc)|].
      cbn [download]. split; [|split].
      - split; [by intros [? [=]]|]. by intros (_ & [=] & _).
      - intros _. apply Hquiet.
      - done. }
  destruct (upper_errors f cd) as [|e es] eqn:He.
  2:{ eexists _, _.
      split; [apply (main_upper_errors fuel f w cd sec2 sec3 w1 Hp Er Hc);
              by rewrite He|].
      cbn [download].
      assert (Hrep : reported
                {| notices := shown_notices f sec2 sec3 ++ (ErrorNotice <$> upper_errors f cd);
                   download := None |} = upper_errors f cd).
      { by rewrite (reported_app _ _ None None), Hquiet, reported_errors. }
      split; [|split].
      - split; [by intros [? [=]]|]. rewrite Hrep, He. by intros (_ & _ & [=]).
      - by intros [?|[=]].
      - intros _ _. exists cd, sec2, sec3, w1. split; [exact Er|].
        rewrite Hrep. split; [|by rewrite He]. intros _. split; [done|].
        unfold upper_errors. split.
        + intros m Hm. apply elem_of_app. by left.
        + intros i c m Hi Hm. apply elem_of_app. right.
          unfold check_children. apply list_elem_of_join.
          exists (check_child (Z.of_nat i + 1) c). split; [done|].
          apply list_elem_of_lookup. exists i. by rewrite list_lookup_imap, Hi. }
  destruct (assemble_lower_run fuel f Hfuel cd sec2 sec3 w1 Hcd Hw2 Hw3)
    as (l2 & l3 & w2 & Ea & Hl2 & Hl3).
  assert (Hall : ∀ r m,
            r ∈ (resequence f l2 ++ resequence f l3)%list →
            m ∈ check_part r → m ∈ lower_errors f l2 l3).
  { intros r m Hr Hm. unfold lower_errors. apply list_elem_of_join.
    exists (check_part r). split; [done|]. by apply list_elem_of_fmap_2. }
  destruct (lower_errors f l2 l3) as [|e es] eqn:Hl.
  2:{ eexists _, _.
      split; [apply (main_lower_errors fuel f w cd sec2 sec3 w1 l2 l3 w2 Hp Er Hc He Ea);
              by rewrite Hl|].
      cbn [download].
      assert (Hrep : reported
                {| notices := shown_notices f sec2 sec3 ++ (ErrorNotice <$> lower_errors f l2 l3);
                   download := None |} = lower_errors f l2 l3).
      { by rewrite (reported_app _ _ None None), Hquiet, reported_errors. }
      split; [|split].
      - split; [by intros [? [=]]|]. rewrite Hrep, Hl. by intros (_ & _ & [=]).
      - by intros [?|[=]].
      - intros _ _. exists cd, sec2, sec3, w1. split; [exact Er|].
        split; [by rewrite He|]. intros _. exists l2, l3. split; [exact Ea|].
        rewrite Hrep. split; [done|]. intros r m. rewrite Hl. by apply Hall. }
  destruct (parent_row_of_some f (proj2 Hp)) as [pr Hpr].
  eexists _, _.
  split; [exact (main_writes fuel f w cd sec2 sec3 w1 l2 l3 w2 pr Hp Er Hc He Ea Hl Hpr)|].
  cbn [download].
  assert (Hrep : reported
            {| notices := shown_notices f sec2 sec3 ++ [SuccessNotice];
               download := Some (written f pr cd l2 l3) |} = []).
  { by rewrite (reported_app _ _ _ None), Hquiet. }
  split; [|split].
  - split; [done|]. intros _. by eexists.
  - by intros [?|[=]].
  - intros _ _. exists cd, sec2, sec3, w1. split; [exact Er|].
    split; [by rewrite He|]. intros _. exists l2, l3. split; [exact Ea|].
    rewrite Hrep. split; [by rewrite Hl|]. intros r m. by apply Hall.
Qed.

Lemma sample_run_done (f : Form) :
  is_Some (download (page_of (sample_run f))) →
  sample_run f = Done (page_of (sample_run f)) (world_of (sample_run f))
  ∧ download (page_of (sample_run f)) = Some (sheet_of (sample_run f)).
Proof.
  unfold sheet_of. destruct (sample_run f) as [pg w'| |]; cbn.
  - intros [ws ->]. done.
  - by intros [? [=]].
  - by intros [? [=]].
Qed.

Lemma nested_form_download : is_Some (download (page_of (sample_run nested_form))).
Proof. vm_compute. by eexists. Qed.

(** C2, on the page [nested_form]: two manual Level 1 rows, two random
    Level 2 rows and one manual Level 2 row, increment 10. *)
Lemma sequence_reassigned_example :
  ∃ (top : list value) (child_data : list row) (sec2 sec3 : section) (w1 : world)
    (level2_rows level3_rows : list row),
    @render_levels sample_floats 1 nested_form (after_reset sample_world)
    = Done (child_data, sec2, sec3) w1
    ∧ @assemble_lower sample_floats 1 nested_form child_data sec2 sec3 w1
      = Done (level2_rows, level3_rows) (world_of (sample_run nested_form))
    ∧ sheet_of (sample_run nested_form)
      = (top :: (row_cells (template_headers nested_form)
                 <$> (@finished sample_floats nested_form child_data
                      ++ @finished sample_floats nested_form level2_rows
                      ++ @finished sample_floats nested_form level3_rows)))%list
    ∧ ∀ level rows,
        (level, rows) ∈ [(1, child_data); (2, level2_rows); (3, level3_rows)] →
        length (resequence nested_form rows) = length rows
        ∧ length (@finished sample_floats nested_form rows) = length rows
        ∧ ∀ i r, rows !! i = Some r →
            resequence nested_form rows !! i
            = Some (<["Sequence"
                      := VInt ((Z.of_nat i + 1) * sequence_increment nested_form)]> r)
            ∧ ∃ r', @finished sample_floats nested_form rows !! i = Some r'
                ∧ r' !! "Level" = Some (VInt level)
                ∧ r' !! "Sequence"
                  = Some (VInt ((Z.of_nat i + 1) * sequence_increment nested_form))
                ∧ (∀ k, k ∉ ["Sequence"; "Revision"; "Location"; "Parent"] →
                     r' !! k = r !! k)
                ∧ ∀ j r'', (i < j)%nat →
                    @finished sample_floats nested_form rows !! j = Some r'' →
                    ∃ a b, r' !! "Sequence" = Some (VInt a)
                           ∧ r'' !! "Sequence" = Some (VInt b) ∧ 0 < a < b.
Proof.
  destruct (sample_run_done nested_form nested_form_download) as [Hrun Hdl].
  refine (@sequence_reassigned_per_level sample_floats 1 nested_form sample_world
            _ _ _ (le_n 1) _ Hrun Hdl).
  cbn. apply list_elem_of_further, list_elem_of_here.
Defined.



(** C4: the first Level 1 row of the page [unnamed_phantom_form] has
    Category "P" and Source "P", and the only message is that its PartNo is
    missing. *)
Lemma unnamed_phantom_not_reported :
  get "Category" <$> level1_rows_of unnamed_phantom_form = [VStr "P"; VNone]
  ∧ get "Source" <$> level1_rows_of unnamed_phantom_form = [VStr "P"; VStr "P"]
  ∧ reported (page_of (sample_run unnamed_phantom_form))
    = [Missing (Level1Index 1) ["PartNo"]].
Proof. repeat split; vm_compute; reflexivity. Qed.

(** C6: no Level 1 row of the page [unnamed_children_form] is manufactured
    and a Level 2 group is asked for, yet the page shows no notice at all. *)
Lemma unnamed_children_not_warned :
  get "Source" <$> level1_rows_of unnamed_children_form = [VStr "P"; VStr "J"]
  ∧ num_groups (level2 unnamed_children_form) = 1
  ∧ value_of (sample_run unnamed_children_form)
    = Some {| notices := []; download := None |}.
Proof. repeat split; vm_compute; reflexivity. Qed.

(** C7: on the page [two_faults_form] the only message is the Level 1
    category error; the missing PartNo of the Level 2 row, which the second
    pass would find, is not reported with it. *)
Lemma level2_fault_not_reported :
  reported (page_of (sample_run two_faults_form))
  = [PhantomSource (Level1Part 2 (VStr "C2"))]
  ∧ value_of (@second_pass sample_floats 1 two_faults_form (after_reset sample_world))
    = Some [Missing (Part (VStr "")) ["PartNo"]].
Proof. split; vm_compute; reflexivity. Qed.

(** C7 (amended), on the page [two_faults_form]. *)
Lemma errors_reported_example :
  @main sample_floats 1 two_faults_form sample_world = Raised ZeroDivisionError
  ∨ ∃ pg w',
      @main sample_floats 1 two_faults_form sample_world = Done pg w'
      ∧ (is_Some (download pg)
         ↔ proceeds two_faults_form ∧ generate_clicked two_faults_form = true
           ∧ reported pg = [])
      ∧ (¬ proceeds two_faults_form ∨ generate_clicked two_faults_form = false →
         reported pg = [])
      ∧ (proceeds two_faults_form → generate_clicked two_faults_form = true →
         ∃ cd sec2 sec3 w1,
           @render_levels sample_floats 1 two_faults_form (after_reset sample_world)
           = Done (cd, sec2, sec3) w1
           ∧ (@upper_errors sample_floats two_faults_form cd ≠ [] →
              reported pg = @upper_errors sample_floats two_faults_form cd
              ∧ (∀ m, m ∈ check_parent (@parent_row_of sample_floats two_faults_form) →
                   m ∈ reported pg)
              ∧ (∀ i c m, cd !! i = Some c →
                   m ∈ check_child (Z.of_nat i + 1) c → m ∈ reported pg))
           ∧ (@upper_errors sample_floats two_faults_form cd = [] →
              ∃ l2 l3,
                @assemble_lower sample_floats 1 two_faults_form cd sec2 sec3 w1
                = Done (l2, l3) w'
                ∧ reported pg = lower_errors two_faults_form l2 l3
                ∧ (∀ r m, r ∈ (resequence two_faults_form l2
                               ++ resequence two_faults_form l3)%list →
                     m ∈ check_part r → m ∈ reported pg))).
Proof.
  exact (@errors_reported_in_two_passes sample_floats 1 two_faults_form sample_world
           (le_n 1)).
Defined.

(** C8: [append_row_by_headers] accepts a Level 1 row whose Parent is the
    empty string, and the page [nested_form] writes such a row, while its
    top row has a non-empty Parent. *)
Lemma level1_row_accepted_with_empty_parent :
  value_of
    (append_row_by_headers [] ["Level"; "PartNo"; "Parent"]
       (assign [("Level", VInt 1); ("PartNo", VStr "C1"); ("Quantity", VFloat 1);
                ("Sequence", VInt 10); ("Parent", VStr "")] ∅)
       sample_world)
  = Some [[VInt 1; VStr "C1"; VStr ""]]
  ∧ (fun cells => (cell TEMPLATE_HEADERS "Level" cells,
                   cell TEMPLATE_HEADERS "PartNo" cells,
                   cell TEMPLATE_HEADERS "Parent" cells))
    <$> take 2 (sheet_of (sample_run nested_form))
    = [(VInt 0, VStr "TOP", VStr "TOP"); (VInt 1, VStr "TOP", VStr "")].
Proof. split; vm_compute; reflexivity. Qed.

(** C9, with long part numbers: three rows under the parent "TOP". *)
Lemma random_child_rows_example :
  let fields := effective_fields None in
  ∃ rows w',
    @random_child_rows sample_floats 1 (VStr "TOP") 3 None 1 true sample_world
    = Done rows w'
    ∧ length rows = Z.to_nat 3
    ∧ ∀ (i : nat) r, rows !! i = Some r →
        r !! "PartNo" ≠ Some (VStr "TOP")
        ∧ ∃ partno, partno ≠ "TOP"
          ∧ r !! "PartNo"
            = (if decide ("PartNo" ∈ fields) then Some (VStr partno) else None)
          ∧ r !! "Description"
            = (if decide ("Description" ∈ fields)
               then Some (VStr (partno +:+ " Desc")) else None)
          ∧ r !! "Parent"
            = (if decide ("Parent" ∈ fields) then Some (VStr "TOP") else None)
          ∧ r !! "Sequence"
            = (if decide ("Sequence" ∈ fields)
               then Some (VInt ((Z.of_nat i + 1) * 100)) else None).
Proof.
  refine (@random_child_rows_never_parent sample_floats 1 "TOP" 3 None 1 true
            sample_world (le_n 1) _).
  intros _. cbn. lia.
Defined.

Module BOMFacts.
Import Models BOMMethods.
Import ModelsFacts.

Section Lookup.
Local Open Scope list_scope.

Lemma get_item_app (l1 l2 : list BOMItem) (pn : string) :
  get_item_by_part_number (l1 ++ l2) pn
  = match get_item_by_part_number l1 pn with
    | Some found => Some found
    | None => get_item_by_part_number l2 pn
    end.
Proof.
  induction l1 as [|item l1 IH]; [done|]. cbn.
  by destruct (String.eqb (part_number item) pn).
Qed.

Lemma dom_items_dict (l : list BOMItem) :
  dom (items_dict l) = list_to_set (C := gset string) (part_number <$> l).
Proof.
  induction l as [|x l IH] using rev_ind; [apply dom_empty_L|].
  rewrite items_dict_snoc, dom_insert_L, IH, fmap_app, list_to_set_app_L.
  cbn. set_solver.
Qed.

Lemma size_dom_items_dict (b : BOM) :
  size (dom (items_dict (items b))) = length (part_numbers b).
Proof.
  rewrite dom_items_dict. unfold part_numbers.
  rewrite <- (size_list_to_set (C := gset string) (remove_dups _))
    by apply NoDup_remove_dups.
  f_equal. apply set_eq. intros x.
  by rewrite !elem_of_list_to_set, elem_of_remove_dups.
Qed.

Lemma length_items_at (d : gmap string BOMItem) (parts : gset string) :
  parts ⊆ dom d → length (items_at d parts) = size parts.
Proof.
  intros Hsub. unfold items_at, size, set_size. cbn.
  assert (Hall : Forall (fun part => is_Some (d !! part)) (elements parts)).
  { apply Forall_forall. intros part Hp%elem_of_elements.
    by apply elem_of_dom, Hsub. }
  induction Hall as [|part parts' [item Hitem] _ IH]; [done|].
  cbn. rewrite Hitem. cbn. by rewrite IH.
Qed.

Lemma length_classify_fold (d1 d2 : gmap string BOMItem) (parts : list string) :
  Forall (fun part => is_Some (d1 !! part) ∧ is_Some (d2 !! part)) parts →
  ∀ acc,
    let out := foldl (classify d1 d2) acc parts in
    (length out.1 + length out.2 = length acc.1 + length acc.2 + length parts)%nat.
Proof.
  induction 1 as [|part parts' [[i1 H1] [i2 H2]] _ IH]; intros acc; cbn zeta.
  - cbn. lia.
  - cbn [foldl]. specialize (IH (classify d1 d2 acc part)). cbn zeta in IH.
    rewrite IH. unfold classify. rewrite H1, H2.
    destruct (item_changed i1 i2); cbn [fst snd length]; rewrite ?length_app; cbn; lia.
Qed.

Lemma compare_fields (b1 b2 : BOM) :
  let d1 := items_dict (items b1) in
  let d2 := items_dict (items b2) in
  let both := foldl (classify d1 d2) ([], []) (elements (dom d1 ∩ dom d2)) in
  added_items (compare b1 b2) = items_at d2 (dom d2 ∖ dom d1)
  ∧ removed_items (compare b1 b2) = items_at d1 (dom d1 ∖ dom d2)
  ∧ modified_items (compare b1 b2) = both.1
  ∧ unchanged_items (compare b1 b2) = both.2.
Proof. by repeat split. Qed.

Lemma size_split (X Y : gset string) : (size (X ∖ Y) + size (X ∩ Y) = size X)%nat.
Proof.
  rewrite <- size_union.
  - f_equal. apply set_eq. intros x.
    rewrite elem_of_union, elem_of_difference, elem_of_intersection.
    destruct (decide (x ∈ Y)); tauto.
  - intros x [_ Hn]%elem_of_difference [_ Hy]%elem_of_intersection. done.
Qed.

Lemma float_ne_sym (a b : pyfloat) : float_ne a b = float_ne b a.
Proof.
  destruct a, b; cbn; try done. f_equal. apply eq_true_iff_eq.
  rewrite !Qeq_bool_iff. split; intros E; by symmetry.
Qed.

Lemma float_eq_sym (a b : pyfloat) : float_eq a b → float_eq b a.
Proof. rewrite <- !float_ne_false, float_ne_sym. done. Qed.

Lemma item_changed_sym (i1 i2 : BOMItem) : item_changed i1 i2 = item_changed i2 i1.
Proof.
  unfold item_changed.
  by rewrite (String.eqb_sym (description i1)), (String.eqb_sym (unit i1)),
    (float_ne_sym (quantity i1)).
Qed.

(** An item differs from itself exactly when its quantity is NaN. *)
Lemma item_changed_self (i : BOMItem) : item_changed i i = true ↔ quantity i = NaN.
Proof.
  rewrite item_changed_true. destruct (quantity i); cbn; split; try done;
    try tauto; try (intros [Hq|[?|?]]; try done; by destruct Hq).
Qed.

End Lookup.

(** X1. [get_item_by_part_number] returns the FIRST item with the part
    number asked for, and [None] exactly when no item has it. *)
Theorem get_item_by_part_number_first (l : list BOMItem) (pn : string) :
  match get_item_by_part_number l pn with
  | Some item =>
      ∃ before after,
        l = (before ++ item :: after)%list ∧ part_number item = pn
        ∧ Forall (fun i => part_number i ≠ pn) before
  | None => Forall (fun i => part_number i ≠ pn) l
  end.
Proof.
  induction l as [|x l IH]; [by constructor|]. cbn.
  destruct (String.eqb_spec (part_number x) pn) as [E|E].
  - exists [], l. by repeat split.
  - destruct (get_item_by_part_number l pn) as [item|].
    + destruct IH as (before & after & -> & Hp & Hb).
      exists (x :: before), after. split; [done|]. split; [done|]. by constructor.
    + by constructor.
Qed.

(** X2. [add_item] appends: the length grows by one; a lookup that found
    an item before finds the same item after, so adding a second item with
    a part number already present does not change what
    [get_item_by_part_number] returns, while the dictionary the comparison
    builds holds the item added last. *)
Theorem add_item_first_wins_last_wins (b : BOM) (item : BOMItem) (pn : string) :
  __len__ (add_item b item) = S (__len__ b)
  ∧ get_item_by_part_number (items (add_item b item)) pn
    = match get_item_by_part_number (items b) pn with
      | Some found => Some found
      | None => if String.eqb (part_number item) pn then Some item else None
      end
  ∧ items_dict (items (add_item b item)) !! pn
    = if String.eqb (part_number item) pn then Some item
      else items_dict (items b) !! pn.
Proof.
  unfold __len__, add_item. cbn [items]. split; [|split].
  - rewrite length_app. cbn. lia.
  - by rewrite get_item_app.
  - rewrite items_dict_snoc.
    destruct (String.eqb_spec (part_number item) pn) as [->|E].
    + by rewrite lookup_insert_eq.
    + by rewrite lookup_insert_ne.
Qed.

(** X3. Comparing a BOM with itself reports nothing added or removed.
    An item is reported as modified, paired with itself, exactly when it is
    the last item of its part number and its quantity is NaN, which differs
    from itself; the last items with any other quantity are the unchanged
    ones.  Together they are one per part number, and a BOM that holds no
    NaN quantity shows no difference from itself. *)
Theorem compare_with_itself (b : BOM) :
  added_items (compare b b) = []
  ∧ removed_items (compare b b) = []
  ∧ (∀ old new, (old, new) ∈ modified_items (compare b b)
       ↔ old = new ∧ last_with (part_number old) (items b) = Some old
         ∧ quantity old = NaN)
  ∧ (∀ item, item ∈ unchanged_items (compare b b)
       ↔ last_with (part_number item) (items b) = Some item ∧ quantity item ≠ NaN)
  ∧ (length (modified_items (compare b b)) + length (unchanged_items (compare b b))
     = length (part_numbers b))%nat
  ∧ (Forall (fun item => quantity item ≠ NaN) (items b) →
     modified_items (compare b b) = []).
Proof.
  destruct (compare_fields b b) as (Ha & Hr & Hm & Hu). cbn zeta in *.
  set (d := items_dict (items b)) in *.
  destruct (classify_fold d d (elements (dom d ∩ dom d))) as [Hm' Hu'].
  cbn zeta in *. rewrite <- Hm in Hm'. rewrite <- Hu in Hu'.
  assert (Hempty : dom d ∖ dom d = (∅ : gset string)) by set_solver.
  assert (Hd : ∀ pn, d !! pn = last_with pn (items b))
    by (intros; apply items_dict_lookup).
  assert (Hkey : ∀ item, last_with (part_number item) (items b) = Some item →
            part_number item ∈ elements (dom d ∩ dom d)).
  { intros item Hi. apply elem_of_elements, elem_of_intersection.
    split; apply elem_of_dom; rewrite Hd; by eexists. }
  assert (Hmod : ∀ old new, (old, new) ∈ modified_items (compare b b)
            ↔ old = new ∧ last_with (part_number old) (items b) = Some old
              ∧ quantity old = NaN).
  { intros old new. rewrite (Hm' (old, new)). cbn [fst snd]. split.
    - intros (part & _ & Ho & Hn & Hc). rewrite Ho in Hn. injection Hn as <-.
      rewrite Hd in Ho. rewrite (last_with_part_number _ _ _ Ho).
      split; [done|]. split; [done|]. by apply item_changed_self.
    - intros (<- & Hi & Hq). exists (part_number old).
      split; [by apply Hkey|]. rewrite !Hd. split; [done|]. split; [done|].
      by apply item_changed_self. }
  split; [by rewrite Ha, Hempty|]. split; [by rewrite Hr, Hempty|].
  split; [exact Hmod|]. split; [|split].
  - intros item. rewrite Hu'. split.
    + intros (part & item2 & _ & Hi & Hi2 & Hc). rewrite Hi in Hi2.
      injection Hi2 as <-. rewrite Hd in Hi.
      rewrite (last_with_part_number _ _ _ Hi). split; [done|].
      intros Hq%item_changed_self. congruence.
    + intros [Hi Hq]. exists (part_number item), item.
      split; [by apply Hkey|]. rewrite !Hd. split; [done|]. split; [done|].
      apply not_true_is_false. by rewrite item_changed_self.
  - assert (Hin : Forall (fun part => is_Some (d !! part) ∧ is_Some (d !! part))
                    (elements (dom d ∩ dom d))).
    { apply Forall_forall. intros part [Hp _]%elem_of_elements%elem_of_intersection.
      split; by apply elem_of_dom. }
    pose proof (length_classify_fold d d _ Hin ([], [])) as Hlen.
    cbn zeta in Hlen. rewrite <- Hm, <- Hu in Hlen.
    cbn [fst snd length Nat.add] in Hlen.
    rewrite <- size_dom_items_dict. fold d. rewrite Hlen.
    change (length (elements (dom d ∩ dom d))) with (size (dom d ∩ dom d)).
    f_equal. set_solver.
  - intros Hall. apply elem_of_nil_inv. intros [old new] (_ & Hi & Hq)%Hmod.
    unfold last_with in Hi. apply last_Some_elem_of in Hi.
    apply list_elem_of_filter in Hi as [_ Hi].
    by apply (proj1 (Forall_forall _ _) Hall old Hi).
Qed.

(** X4. Swapping the two BOMs swaps the roles: what was removed is added
    and conversely, a modified pair is the same pair reversed, and an
    unchanged item has an unchanged counterpart with the same part number,
    quantity, description and unit. *)
Theorem compare_swapped (b1 b2 : BOM) :
  removed_items (compare b1 b2) ≡ₚ added_items (compare b2 b1)
  ∧ added_items (compare b1 b2) ≡ₚ removed_items (compare b2 b1)
  ∧ (∀ old new, (old, new) ∈ modified_items (compare b1 b2)
                ↔ (new, old) ∈ modified_items (compare b2 b1))
  ∧ (∀ item, item ∈ unchanged_items (compare b1 b2) →
       ∃ other, other ∈ unchanged_items (compare b2 b1)
         ∧ part_number other = part_number item
         ∧ float_eq (quantity other) (quantity item)
         ∧ description other = description item ∧ unit other = unit item).
Proof.
  destruct (compare_fields b1 b2) as (Ha & Hr & Hm & Hu).
  destruct (compare_fields b2 b1) as (Ha' & Hr' & Hm' & Hu'). cbn zeta in *.
  set (d1 := items_dict (items b1)) in *. set (d2 := items_dict (items b2)) in *.
  destruct (classify_fold d1 d2 (elements (dom d1 ∩ dom d2))) as [Hc1 Hc2].
  destruct (classify_fold d2 d1 (elements (dom d2 ∩ dom d1))) as [Hc1' Hc2'].
  cbn zeta in *. rewrite <- Hm in Hc1. rewrite <- Hu in Hc2.
  rewrite <- Hm' in Hc1'. rewrite <- Hu' in Hc2'.
  split; [by rewrite Hr, Ha'|]. split; [by rewrite Ha, Hr'|]. split.
  - intros old new. rewrite (Hc1 (old, new)), (Hc1' (new, old)). cbn [fst snd].
    split; intros (part & Hp & H1 & H2 & Hc); exists part;
      (split; [set_solver|]); rewrite item_changed_sym; done.
  - intros item (part & item2 & Hp & H1 & H2 & Hc)%Hc2.
    exists item2. split.
    + apply Hc2'. exists part, item. split; [set_solver|].
      split; [done|]. split; [done|]. by rewrite item_changed_sym.
    + unfold d1, d2 in H1, H2. rewrite items_dict_lookup in H1, H2.
      rewrite (last_with_part_number _ _ _ H1), (last_with_part_number _ _ _ H2).
      apply item_changed_false in Hc as (Hq & Hd & Hun).
      split; [done|]. split; [by apply float_eq_sym|]. by split.
Qed.

(** X5. The counts of a comparison add up: the removed, modified and
    unchanged items are as many as the distinct part numbers of the first
    BOM, and the added, modified and unchanged items as many as those of the
    second. *)
Theorem compare_counts (b1 b2 : BOM) :
  (length (removed_items (compare b1 b2)) + length (modified_items (compare b1 b2))
   + length (unchanged_items (compare b1 b2)) = length (part_numbers b1))%nat
  ∧ (length (added_items (compare b1 b2)) + length (modified_items (compare b1 b2))
     + length (unchanged_items (compare b1 b2)) = length (part_numbers b2))%nat.
Proof.
  destruct (compare_fields b1 b2) as (Ha & Hr & Hm & Hu). cbn zeta in *.
  rewrite <- !size_dom_items_dict.
  set (d1 := items_dict (items b1)) in *. set (d2 := items_dict (items b2)) in *.
  assert (Hin : Forall (fun part => is_Some (d1 !! part) ∧ is_Some (d2 !! part))
                  (elements (dom d1 ∩ dom d2))).
  { apply Forall_forall. intros part [Hp Hq]%elem_of_elements%elem_of_intersection.
    split; by apply elem_of_dom. }
  pose proof (length_classify_fold d1 d2 _ Hin ([], [])) as Hlen.
  cbn zeta in Hlen. rewrite <- Hm, <- Hu in Hlen. cbn [fst snd length] in Hlen.
  rewrite Ha, Hr.
  rewrite (length_items_at d1 (dom d1 ∖ dom d2)) by apply subseteq_difference_l, reflexivity.
  rewrite (length_items_at d2 (dom d2 ∖ dom d1)) by apply subseteq_difference_l, reflexivity.
  change (length (elements (dom d1 ∩ dom d2))) with (size (dom d1 ∩ dom d2)) in Hlen.
  split.
  - rewrite <- Nat.add_assoc, Hlen. cbn [Nat.add]. apply size_split.
  - rewrite <- Nat.add_assoc, Hlen. cbn [Nat.add].
    replace (dom d1 ∩ dom d2) with (dom d2 ∩ dom d1); [apply size_split|].
    apply set_eq. intros x. rewrite !elem_of_intersection. tauto.
Qed.

End BOMFacts.

Section LongNumbers.
Local Open Scope list_scope.

Lemma chars_app (a b : string) :
  list_ascii_of_string (a +:+ b) = list_ascii_of_string a ++ list_ascii_of_string b.
Proof.
  induction a as [|c a IH]; [done|]. rewrite str_app_cons. cbn. by rewrite IH.
Qed.

Lemma str_take_length (n : nat) (s : string) :
  String.length (str_take n s) = Nat.min n (String.length s).
Proof.
  unfold str_take. revert s. induction n as [|n IH]; intros [|c s]; cbn; try done.
  by rewrite IH.
Qed.

Lemma str_take_chars (P : ascii → Prop) (n : nat) (s : string) :
  Forall P (list_ascii_of_string s) → Forall P (list_ascii_of_string (str_take n s)).
Proof.
  unfold str_take. revert s. induction n as [|n IH]; intros [|c s] Hs; cbn;
    try (by constructor).
  apply Forall_cons in Hs as [Hc Hs]. constructor; [done|]. by apply IH.
Qed.

Lemma digit_char_alphanumeric (d : Z) :
  (0 ≤ d < 10)%Z → digit_char d ∈ alphanumeric.
Proof.
  intros Hd.
  assert (d = 0 ∨ d = 1 ∨ d = 2 ∨ d = 3 ∨ d = 4 ∨ d = 5 ∨ d = 6 ∨ d = 7 ∨ d = 8 ∨ d = 9)
    as Hcases by lia.
  apply list_elem_of_In.
  repeat (destruct Hcases as [->|Hcases]; [vm_compute; tauto|]).
  subst d. vm_compute. tauto.
Qed.

Lemma digits_acc_chars (fuel : nat) : ∀ n acc,
  Forall (fun c => c ∈ alphanumeric) (list_ascii_of_string acc) →
  Forall (fun c => c ∈ alphanumeric) (list_ascii_of_string (digits_acc fuel n acc)).
Proof.
  induction fuel as [|fuel IH]; intros n acc Hacc; cbn [digits_acc].
  - cbn. constructor; [|done]. apply digit_char_alphanumeric, Z.mod_pos_bound. lia.
  - assert (Forall (fun c => c ∈ alphanumeric)
              (list_ascii_of_string (String (digit_char (n mod 10)) acc))).
    { cbn. constructor; [|done]. apply digit_char_alphanumeric, Z.mod_pos_bound. lia. }
    destruct (n <? 10)%Z; [done|]. by apply IH.
Qed.

Lemma zeros_chars (k : nat) :
  Forall (fun c => c ∈ alphanumeric) (list_ascii_of_string (zeros k)).
Proof.
  induction k as [|k IH]; cbn; constructor; [|done].
  apply (digit_char_alphanumeric 0). lia.
Qed.

Lemma long_prefix_chars (c : Z) :
  Forall (fun c => c ∈ alphanumeric)
         (list_ascii_of_string ("P" +:+ zfill 6 (digits c))).
Proof.
  rewrite str_app_cons, str_app_nil_l. cbn. constructor.
  - apply list_elem_of_In. vm_compute. tauto.
  - rewrite zfill_digits, chars_app. apply Forall_app. split; [apply zeros_chars|].
    unfold digits. apply digits_acc_chars. constructor.
Qed.

Lemma yields_choice_elem {A} (d : A) (l : list A) :
  l ≠ [] → yields (fun x => x ∈ l) (choice d l).
Proof.
  intros Hl. eapply yields_bind; [apply yields_draw|]. intros k _. apply yields_ret.
  apply list_elem_of_In, nth_In.
  apply Nat.mod_upper_bound. by destruct l.
Qed.

Lemma yields_choices_elem (alphabet : list ascii) (k : nat) :
  alphabet ≠ [] →
  yields (fun s => String.length s = k
                   ∧ Forall (fun c => c ∈ alphabet) (list_ascii_of_string s))
         (choices alphabet k).
Proof.
  intros Ha. induction k as [|k IH]; cbn [choices].
  - apply yields_ret. split; [done|constructor].
  - eapply yields_bind; [by apply yields_choice_elem|]. intros c Hc.
    eapply yields_bind; [apply IH|]. intros s [Hlen Hs]. apply yields_ret.
    cbn. split; [by rewrite Hlen|by constructor].
Qed.

Lemma zfill_digits_exact (n : Z) :
  (0 ≤ n < 10 ^ 6)%Z → String.length (zfill 6 (digits n)) = 6%nat.
Proof.
  intros Hn.
  pose proof (zfill_digits_length 6 6 n ltac:(lia) ltac:(lia) Hn) as Hle.
  rewrite zfill_digits, str_length_app, zeros_length in *. lia.
Qed.

Lemma str_app_inj_length (a : string) : ∀ b x y,
  a +:+ x = b +:+ y → String.length a = String.length b → a = b.
Proof.
  induction a as [|c a IH]; intros [|d b] x y E Hlen; try done.
  rewrite !str_app_cons in E. injection E as -> E. f_equal.
  apply (IH b x y E). cbn in Hlen. lia.
Qed.

Lemma long_partno_run (w : world) :
  (0 ≤ part_number_counter w)%Z →
  ∃ s w', get_next_partno_long w = Done s w'
    ∧ (20 ≤ String.length s ≤ 50)%nat
    ∧ Forall (fun c => c ∈ alphanumeric) (list_ascii_of_string s)
    ∧ part_number_counter w' = part_number_counter w + 1.
Proof.
  intros Hc. unfold get_next_partno_long.
  destruct (yields_randint 20 50 ltac:(lia) w) as (len & w1 & E1 & C1 & Hlen).
  unfold bind at 1. rewrite E1.
  unfold bind at 1. unfold read_counter at 1.
  unfold bind at 1. unfold write_counter at 1.
  rewrite C1, str_int_nonneg by lia.
  set (prefix := "P" +:+ zfill 6 (digits (part_number_counter w))).
  pose proof (long_prefix_chars (part_number_counter w)) as Hp. fold prefix in Hp.
  destruct (Z.leb_spec (len - Z.of_nat (String.length prefix)) 0) as [Hle|Hgt].
  - eexists _, _. split; [reflexivity|]. rewrite str_take_length.
    split; [lia|]. split; [by apply str_take_chars|done].
  - match goal with |- context [choices ?a ?k] =>
      destruct (yields_choices_elem a k ltac:(done)
        {| part_number_counter := part_number_counter w + 1;
           tape := tape w1; cursor := cursor w1 |}) as (suffix & w2 & E2 & C2 & Hl & Hs)
    end.
    exists (prefix +:+ suffix), w2. unfold bind. rewrite E2. split; [done|].
    rewrite str_length_app, Hl, chars_app. split; [lia|].
    split; [by apply Forall_app|exact C2].
Qed.

End LongNumbers.

(** X6. A long part number has between 20 and 50 characters, all of them
    upper-case letters or digits, whatever the random source gives, and the
    call advances the counter by one. *)
Theorem long_partno_length_and_alphabet (w : world) :
  (0 ≤ part_number_counter w)%Z →
  ∃ s w', get_next_partno_long w = Done s w'
    ∧ (20 ≤ String.length s ≤ 50)%nat
    ∧ Forall (fun c => c ∈ alphanumeric) (list_ascii_of_string s)
    ∧ part_number_counter w' = part_number_counter w + 1.
Proof. exact (long_partno_run w). Qed.

Lemma long_partno_length_example :
  ∃ s w', get_next_partno_long sample_world = Done s w'
    ∧ (20 ≤ String.length s ≤ 50)%nat
    ∧ Forall (fun c => c ∈ alphanumeric) (list_ascii_of_string s)
    ∧ part_number_counter w' = part_number_counter sample_world + 1.
Proof. apply (long_partno_length_and_alphabet sample_world). cbn. lia. Defined.

(** X7. Long part numbers allocated at two different counter values below
    one million differ, whatever the random source gives: characters 2 to 7
    are the counter on six digits. *)
Theorem long_partno_unique_below_million (w1 w2 : world) :
  (0 ≤ part_number_counter w1 < 10 ^ 6)%Z →
  (0 ≤ part_number_counter w2 < 10 ^ 6)%Z →
  part_number_counter w1 ≠ part_number_counter w2 →
  ∃ s1 s2,
    value_of (get_next_partno_long w1) = Some s1
    ∧ value_of (get_next_partno_long w2) = Some s2
    ∧ s1 ≠ s2.
Proof.
  intros H1 H2 Hne.
  destruct (get_next_partno_long_run w1) as (x1 & w1' & E1 & _); [lia|].
  destruct (get_next_partno_long_run w2) as (x2 & w2' & E2 & _); [lia|].
  eexists _, _. rewrite E1, E2. split; [reflexivity|]. split; [reflexivity|].
  intros E. rewrite !str_app_cons, !str_app_nil_l in E. injection E as E.
  apply str_app_inj_length in E; [|by rewrite !zfill_digits_exact].
  apply (f_equal num_of) in E. rewrite !num_of_zfill_digits in E by lia. done.
Qed.

Lemma long_partno_unique_example :
  ∃ s1 s2,
    value_of (get_next_partno_long (World 7 (fun k => k) 0)) = Some s1
    ∧ value_of (get_next_partno_long (World 70 (fun _ => 0%nat) 3)) = Some s2
    ∧ s1 ≠ s2.
Proof.
  apply (long_partno_unique_below_million (World 7 (fun k => k) 0)
           (World 70 (fun _ => 0%nat) 3)); cbn; lia.
Defined.

Section ShortNumbers.

Lemma code_of_chr (n : Z) :
  (0 ≤ n < 256)%Z → Z.of_N (N_of_ascii (ascii_of_N (Z.to_N n))) = n.
Proof.
  intros Hn. rewrite N_ascii_embedding by lia. lia.
Qed.

Lemma letter_not_digit (x : Z) :
  (0 ≤ x < 26)%Z → is_digit (ascii_of_N (Z.to_N (65 + x))) = false.
Proof.
  intros Hx. unfold is_digit. rewrite N_ascii_embedding by lia.
  apply andb_false_iff. right. apply N.leb_gt. lia.
Qed.

Lemma digit_char_is_digit (d : Z) : (0 ≤ d < 10)%Z → is_digit (digit_char d) = true.
Proof.
  intros Hd. unfold is_digit, digit_char. rewrite N_ascii_embedding by lia.
  apply andb_true_iff. split; apply N.leb_le; lia.
Qed.

Lemma prefix_index_from_index (i : Z) :
  (0 ≤ i < 702)%Z → prefix_index (_prefix_from_index i) = i.
Proof.
  intros Hi. unfold _prefix_from_index.
  destruct (Z.ltb_spec i 26) as [Hlt|Hge].
  - unfold chr, prefix_index. rewrite code_of_chr by lia. lia.
  - pose proof (Z.div_mod (i - 26) 26 ltac:(lia)) as Hdm.
    pose proof (Z.mod_pos_bound (i - 26) 26 ltac:(lia)) as Hm.
    assert (0 ≤ (i - 26) / 26 < 26)%Z as Hd.
    { split; [apply Z.div_pos; lia|apply Z.div_lt_upper_bound; lia]. }
    unfold chr. rewrite str_app_cons, str_app_nil_l. unfold prefix_index.
    rewrite !code_of_chr by lia. lia.
Qed.

Lemma letters_prefix (i : Z) (d : string) :
  (0 ≤ i < 702)%Z →
  (∃ c rest, d = String c rest ∧ is_digit c = true) →
  letters (_prefix_from_index i +:+ d) = _prefix_from_index i
  ∧ digits_part (_prefix_from_index i +:+ d) = d.
Proof.
  intros Hi (c & rest & -> & Hc). unfold _prefix_from_index.
  destruct (Z.ltb_spec i 26) as [Hlt|Hge].
  - unfold chr. rewrite str_app_cons, str_app_nil_l. cbn [letters digits_part].
    rewrite letter_not_digit by lia. by rewrite Hc.
  - pose proof (Z.mod_pos_bound (i - 26) 26 ltac:(lia)) as Hm.
    assert (0 ≤ (i - 26) / 26 < 26)%Z as Hd.
    { split; [apply Z.div_pos; lia|apply Z.div_lt_upper_bound; lia]. }
    unfold chr. rewrite !str_app_cons, !str_app_nil_l, !str_app_cons, !str_app_nil_l.
    cbn [letters digits_part].
    rewrite !letter_not_digit by lia. by rewrite Hc.
Qed.

Lemma format_0d_head (width : nat) (n : Z) :
  (0 ≤ n)%Z → ∃ c rest, format_0d width n = String c rest ∧ is_digit c = true.
Proof.
  intros Hn. unfold format_0d. rewrite str_int_nonneg, zfill_digits by done.
  destruct (width - String.length (digits n))%nat as [|k].
  - rewrite str_app_nil_l. unfold digits.
    destruct (digits_acc_head (Z.to_nat (Z.log2 n)) n "") as (d & rest & Hd & ->).
    exists (digit_char d), rest. split; [done|]. by apply digit_char_is_digit.
  - cbn [zeros]. rewrite str_app_cons. eexists _, _. split; [reflexivity|].
    reflexivity.
Qed.

Lemma decode_partno_at (c : Z) :
  (0 ≤ c < 702000)%Z → decode_partno (partno_at c) = c.
Proof.
  intros Hc. unfold decode_partno, partno_at.
  pose proof (Z.mod_pos_bound c 1000 ltac:(lia)) as Hm.
  assert (0 ≤ c / 1000 < 702)%Z as Hd.
  { split; [apply Z.div_pos; lia|apply Z.div_lt_upper_bound; lia]. }
  destruct (letters_prefix (c / 1000) (format_0d 3 (c mod 1000 + 1)) Hd
              (format_0d_head 3 (c mod 1000 + 1) ltac:(lia))) as [-> ->].
  rewrite prefix_index_from_index by done.
  unfold format_0d. rewrite str_int_nonneg, num_of_zfill_digits by lia.
  pose proof (Z.div_mod c 1000 ltac:(lia)). lia.
Qed.

Lemma partno_at_inj (c1 c2 : Z) :
  (0 ≤ c1 < 702000)%Z → (0 ≤ c2 < 702000)%Z →
  partno_at c1 = partno_at c2 → c1 = c2.
Proof.
  intros H1 H2 E. apply (f_equal decode_partno) in E.
  by rewrite !decode_partno_at in E.
Qed.

End ShortNumbers.

(** X8. The short allocator does not repeat itself: the part numbers of two
    different calls among the first 702,000 after a reset (the prefixes "A"
    to "ZZ") differ. *)
Theorem short_partno_never_repeats (w : world) (n m : Z) :
  (1 ≤ n)%Z → (n < m)%Z → (m ≤ 702000)%Z →
  ∃ s t,
    value_of (call_after_reset n w) = Some s
    ∧ value_of (call_after_reset m w) = Some t
    ∧ s ≠ t.
Proof.
  intros Hn Hnm Hm. rewrite !call_after_reset_value by lia.
  eexists _, _. split; [reflexivity|]. split; [reflexivity|].
  intros E. apply partno_at_inj in E; lia.
Qed.

Lemma short_partno_never_repeats_example :
  ∃ s t,
    value_of (call_after_reset 5 sample_world) = Some s
    ∧ value_of (call_after_reset 1005 sample_world) = Some t
    ∧ s ≠ t.
Proof. apply (short_partno_never_repeats sample_world 5 1005); lia. Defined.

Section RowValues.
Local Open Scope list_scope.
Context `{FloatModel}.

Lemma yields_str_choice (l : list string) :
  l ≠ [] → yields (fun x => ∃ s, x = VStr s ∧ s ∈ l) (str_value (choice "" l)).
Proof.
  intros Hl. unfold str_value.
  eapply yields_bind; [by apply yields_choice_elem|].
  intros s Hs. apply yields_ret. by exists s.
Qed.

Lemma yields_int_randint (a b : Z) :
  (a ≤ b)%Z → yields (fun x => ∃ n, x = VInt n ∧ (a ≤ n ≤ b)%Z) (int_value (randint a b)).
Proof.
  intros Hab. unfold int_value. eapply yields_bind; [by apply yields_randint|].
  intros n Hn. apply yields_ret. by exists n.
Qed.

Lemma field_values_range partno parent_partno sequence level :
  Forall (fun kv => yields (field_range kv.1) kv.2)
         (field_values partno parent_partno sequence level).
Proof.
  unfold field_values.
  repeat (apply Forall_cons; split); try apply Forall_nil;
    cbn [fst snd]; unfold field_range;
    repeat (case_decide; [discriminate|]); try (case_decide; [|done]).
  all: try (apply yields_ret; done).
  all: try (apply yields_str_choice; done).
  all: try (apply yields_int_randint; lia).
  all: try (apply yields_true; [done|]).
  all: try (apply yields_str_value).
  all: try apply yields_random_revision.
  all: try apply yields_choice.
  all: try (apply yields_any_bind;
            [first [apply yields_uniform | apply yields_random |
                    eapply yields_weaken; [|apply yields_randint; lia]; done]
            | intros; by apply yields_ret]).
  eapply yields_bind; [apply yields_random|]. intros x _. apply yields_ret.
  destruct (Qlt_le_dec 0.2 x); [by left|by right].
  done.
Qed.

Lemma random_row_range_run (fuel : nat) (parent_partno : value)
    (sequence level : Z) (fields_to_populate : option (gset string))
    (long : bool) w :
  (1 ≤ fuel)%nat →
  (long = true → (0 ≤ part_number_counter w ∧ part_number_counter w + 2 ≤ 10 ^ 18)%Z) →
  ∃ r w' partno,
    random_row_for_child fuel parent_partno sequence level fields_to_populate long w
    = Done r w'
    ∧ row_post (effective_fields fields_to_populate) partno parent_partno
        sequence level r
    ∧ ∀ key x, r !! key = Some x → field_range key x.
Proof.
  intros Hfuel Hc.
  destruct (random_row_for_child_run fuel parent_partno sequence level
              fields_to_populate long w Hfuel Hc) as (r & w' & partno & E & _ & _ & Hpost).
  exists r, w', partno. split; [exact E|]. split; [exact Hpost|].
  unfold random_row_for_child in E.
  apply bind_done in E as (s0 & w0 & _ & E).
  apply bind_done in E as (s & w1 & _ & E).
  destruct (populate_run field_range (effective_fields fields_to_populate)
              (field_values s parent_partno sequence level)
              (field_values_nodup _ _ _ _) (field_values_range _ _ _ _) ∅ w1)
    as (r' & w2 & E' & _ & Hr).
  rewrite E in E'. injection E' as <- _.
  intros key x Hx. destruct (Hr key) as [Hyes Hno].
  destruct (decide (key ∈ effective_fields fields_to_populate
                    ∧ key ∈ (field_values s parent_partno sequence level).*1))
    as [[H1 H2]|Hn].
  - destruct (Hyes H1 H2) as (x' & Hx' & Hrange). rewrite Hx in Hx'. by injection Hx' as <-.
  - rewrite Hno, lookup_empty in Hx; [done|].
    apply not_and_l in Hn. exact Hn.
Qed.

End RowValues.

(** X9. The keys of a random row are exactly the requested fields that
    are among the 27 known ones; [None] and the empty set both ask for all
    27, and an unknown name is ignored.  The row's Sequence is
    [100 * sequence], or 100 when [sequence] is not positive. *)
Theorem random_row_keys `{FloatModel} (fuel : nat) (parent_partno : value)
    (sequence level : Z) (fields_to_populate : option (gset string))
    (use_long_partno : bool) (w : world) :
  (1 ≤ fuel)%nat →
  (use_long_partno = true →
     (0 ≤ part_number_counter w ∧ part_number_counter w + 2 ≤ 10 ^ 18)%Z) →
  ∃ r w',
    random_row_for_child fuel parent_partno sequence level fields_to_populate
      use_long_partno w = Done r w'
    ∧ (∀ key, is_Some (r !! key) ↔
         key ∈ all_fields
         ∧ match fields_to_populate with
           | None => True
           | Some fs => fs = ∅ ∨ key ∈ fs
           end)
    ∧ (∀ x, r !! "Sequence" = Some x →
         x = VInt (if (0 <? sequence)%Z then sequence * 100 else 100))
    ∧ (∀ x, r !! "Level" = Some x → x = VInt level)
    ∧ (∀ x, r !! "Parent" = Some x → x = parent_partno).
Proof.
  intros Hfuel Hc.
  destruct (random_row_for_child_run fuel parent_partno sequence level
              fields_to_populate use_long_partno w Hfuel Hc)
    as (r & w' & partno & E & _ & _ & Hpost).
  exists r, w'. split; [exact E|]. split; [|split; [|split]].
  - intros key. destruct (Hpost key) as [Hyes Hno].
    assert (Heff : key ∈ effective_fields fields_to_populate ↔
              match fields_to_populate with
              | None => key ∈ all_fields
              | Some fs => if decide (fs = ∅) then key ∈ all_fields else key ∈ fs
              end).
    { unfold effective_fields. destruct fields_to_populate as [fs|]; [|done].
      by destruct (decide (fs = ∅)). }
    split.
    + intros Hsome.
      destruct (decide (key ∈ all_fields)) as [Hk|Hk].
      2:{ rewrite Hno in Hsome by (by right). by destruct Hsome. }
      split; [done|].
      destruct (decide (key ∈ effective_fields fields_to_populate)) as [Hf|Hf].
      2:{ rewrite Hno in Hsome by (by left). by destruct Hsome. }
      apply Heff in Hf. destruct fields_to_populate as [fs|]; [|done].
      destruct (decide (fs = ∅)); [by left|by right].
    + intros [Hk Hf].
      assert (key ∈ effective_fields fields_to_populate) as Hin.
      { apply Heff. destruct fields_to_populate as [fs|]; [|done].
        destruct (decide (fs = ∅)) as [->|Hne]; [done|].
        destruct Hf as [?|?]; done. }
      destruct (Hyes Hin Hk) as (x & -> & _). by eexists.
  - intros x Hx. pose proof (row_post_Sequence _ _ _ _ _ _ Hpost) as Hs.
    rewrite Hx in Hs. destruct (decide _); [|done]. injection Hs as ->.
    f_equal. destruct (Z.gtb_spec sequence 0), (Z.ltb_spec 0 sequence); lia || done.
  - intros x Hx.
    assert (Hk : "Level" ∈ all_fields) by (apply (bool_decide_unpack _); by vm_compute).
    pose proof (row_post_lookup _ _ _ _ _ _ "Level" Hpost Hk) as Hl.
    destruct (decide _); [|by rewrite Hx in Hl].
    destruct Hl as (x' & Hx' & Hf). rewrite Hx in Hx'. injection Hx' as <-. exact Hf.
  - intros x Hx. pose proof (row_post_Parent _ _ _ _ _ _ Hpost) as Hp.
    rewrite Hx in Hp. destruct (decide _); [|done]. by injection Hp as ->.
Qed.

Lemma random_row_keys_example :
  ∃ r w',
    @random_row_for_child sample_floats 1 (VStr "TOP") 0 2
      (Some {["PartNo"; "Sequence"; "Colour"]}) false sample_world = Done r w'
    ∧ (∀ key, is_Some (r !! key) ↔
         key ∈ all_fields
         ∧ match Some ({["PartNo"; "Sequence"; "Colour"]} : gset string) with
           | None => True
           | Some fs => fs = ∅ ∨ key ∈ fs
           end)
    ∧ (∀ x, r !! "Sequence" = Some x →
         x = VInt (if (0 <? 0)%Z then 0 * 100 else 100))
    ∧ (∀ x, r !! "Level" = Some x → x = VInt 2)
    ∧ (∀ x, r !! "Parent" = Some x → x = VStr "TOP").
Proof.
  refine (@random_row_keys sample_floats 1 (VStr "TOP") 0 2
            (Some {["PartNo"; "Sequence"; "Colour"]}) false sample_world (le_n 1) _).
  discriminate.
Defined.

(** X10. The values a random row draws stay in their ranges: Quantity in
    1..10, Leadtime in 1..21, Source, Location, Productline and SortCode in
    their sample lists, Category "Y" or empty, IssueUM "EA", BomComplete and
    Router empty. *)
Theorem random_row_values_in_range `{FloatModel} (fuel : nat)
    (parent_partno : value) (sequence level : Z)
    (fields_to_populate : option (gset string)) (use_long_partno : bool)
    (w : world) :
  (1 ≤ fuel)%nat →
  (use_long_partno = true →
     (0 ≤ part_number_counter w ∧ part_number_counter w + 2 ≤ 10 ^ 18)%Z) →
  ∃ r w',
    random_row_for_child fuel parent_partno sequence level fields_to_populate
      use_long_partno w = Done r w'
    ∧ ∀ key x, r !! key = Some x → field_range key x.
Proof.
  intros Hfuel Hc.
  destruct (random_row_range_run fuel parent_partno sequence level
              fields_to_populate use_long_partno w Hfuel Hc)
    as (r & w' & partno & E & _ & Hrange).
  by exists r, w'.
Qed.

Lemma random_row_values_example :
  ∃ r w',
    @random_row_for_child sample_floats 1 (VStr "TOP") 1 1 None true sample_world
    = Done r w'
    ∧ ∀ key x, r !! key = Some x → field_range key x.
Proof.
  refine (@random_row_values_in_range sample_floats 1 (VStr "TOP") 1 1 None true
            sample_world (le_n 1) _).
  intros _. cbn. lia.
Defined.

Section ShortBatches.
Local Open Scope list_scope.
Context `{FloatModel} (fuel : nat) (parent_partno : value) (level : Z)
  (fields_to_populate : option (gset string)).
Hypothesis Hfuel : (1 ≤ fuel)%nat.

Lemma short_allocation_run w :
  ∃ k,
    (let* partno0 := next_partno false in
     while_equals_parent fuel (next_partno false) parent_partno partno0) w
    = Done (partno_at k) (World (k + 1) (tape w) (cursor w))
    ∧ py_eq (VStr (partno_at k)) parent_partno = false
    ∧ (k = part_number_counter w
       ∨ (k = part_number_counter w + 1
          ∧ parent_partno = VStr (partno_at (part_number_counter w)))).
Proof.
  unfold next_partno. unfold bind at 1. rewrite get_next_partno_run.
  destruct fuel as [|fuel']; [lia|]. cbn [while_equals_parent].
  destruct (py_eq (VStr (partno_at (part_number_counter w))) parent_partno) eqn:Eq0.
  - apply py_eq_str_true in Eq0.
    exists (part_number_counter w + 1).
    assert (py_eq (VStr (partno_at (part_number_counter w + 1))) parent_partno = false)
      as Hne.
    { rewrite Eq0. apply py_eq_str_false. intros E. symmetry in E.
      by apply partno_at_succ_ne in E. }
    split; [|split; [done|by right]].
    unfold bind at 1. rewrite get_next_partno_run.
    cbn [part_number_counter tape cursor].
    destruct fuel'; cbn [while_equals_parent]; by rewrite Hne.
  - exists (part_number_counter w). split; [done|]. split; [done|by left].
Qed.

Lemma short_row_run (sequence : Z) w :
  ∃ r w' k,
    random_row_for_child fuel parent_partno sequence level fields_to_populate false w
    = Done r w'
    ∧ part_number_counter w' = k + 1
    ∧ (k = part_number_counter w
       ∨ (k = part_number_counter w + 1
          ∧ parent_partno = VStr (partno_at (part_number_counter w))))
    ∧ row_post (effective_fields fields_to_populate) (partno_at k) parent_partno
        sequence level r
    ∧ py_eq (VStr (partno_at k)) parent_partno = false.
Proof.
  destruct (short_allocation_run w) as (k & E & Hneq & Hk).
  unfold random_row_for_child.
  unfold bind at 1 in E. unfold bind at 1.
  destruct (next_partno false w) as [s0 w0| |] eqn:E0; try discriminate.
  unfold bind at 1. rewrite E.
  destruct (populate_run (field_post (partno_at k) parent_partno sequence level)
              (effective_fields fields_to_populate)
              (field_values (partno_at k) parent_partno sequence level)
              (field_values_nodup _ _ _ _) (field_values_yield _ _ _ _) ∅
              (World (k + 1) (tape w) (cursor w)))
    as (r & w2 & E2 & C2 & Hr).
  exists r, w2, k. split; [exact E2|]. split; [exact C2|]. split; [exact Hk|].
  split; [|exact Hneq].
  intros key. destruct (Hr key) as [Hyes Hno]. split.
  - intros Hf Hin. apply Hyes; [done|]. by apply elem_of_all_fields.
  - intros Hcase. rewrite Hno; [apply lookup_empty|].
    destruct Hcase as [?|Hin]; [by left|right].
    intros Hin'. apply Hin. by eapply elem_of_all_fields.
Qed.

Lemma numbered_rows_cons fields x xs k ks r rows :
  row_post fields (partno_at k) parent_partno (x + 1) level r →
  numbered_rows fields parent_partno level xs ks rows →
  numbered_rows fields parent_partno level (x :: xs) (k :: ks) (r :: rows).
Proof.
  intros Hr (Hks & Hrows & Hall). split; [cbn; lia|]. split; [cbn; lia|].
  intros [|i] r' Hi.
  - cbn in Hi. injection Hi as <-. by exists k, x.
  - cbn in Hi. destruct (Hall i r' Hi) as (k' & x' & ? & ? & ?). by exists k', x'.
Qed.

Lemma increasing_within_cons lo mid hi k ks :
  (lo ≤ k < mid)%Z → (mid ≤ hi)%Z → increasing_within mid hi ks →
  increasing_within lo hi (k :: ks).
Proof.
  intros Hk Hmid [Hin Hinc]. split.
  - intros [|i] k' Hi; cbn in Hi.
    + injection Hi as <-. lia.
    + specialize (Hin i k' Hi). lia.
  - intros [|i] [|j] ki kj Hij Hi Hj; cbn in Hi, Hj; try lia.
    + injection Hi as <-. specialize (Hin j kj Hj). lia.
    + apply (Hinc i j); [lia|done|done].
Qed.

(** Once the parent's number lies behind the counter, no retry happens. *)
Lemma short_batch_after (xs : list Z) : ∀ w cstar,
  (0 ≤ cstar < part_number_counter w)%Z →
  parent_partno = VStr (partno_at cstar) →
  (part_number_counter w + Z.of_nat (length xs) ≤ 702000)%Z →
  ∃ rows w' ks,
    for_each (fun i => random_row_for_child fuel parent_partno (i + 1) level
                         fields_to_populate false) xs w = Done rows w'
    ∧ part_number_counter w' = part_number_counter w + Z.of_nat (length xs)
    ∧ numbered_rows (effective_fields fields_to_populate) parent_partno level xs ks rows
    ∧ increasing_within (part_number_counter w) (part_number_counter w') ks.
Proof.
  induction xs as [|x xs IH]; intros w cstar Hc Hp Hb.
  - exists [], w, []. split; [done|]. split; [cbn; lia|].
    split; [by repeat split|]. split; [by intros ? ? ?|by intros ? ? ? ? ? ?].
  - cbn [length] in Hb. cbn [for_each].
    destruct (short_row_run (x + 1) w) as (r & w1 & k & E & C1 & Hk & Hr & _).
    assert (k = part_number_counter w) as ->.
    { destruct Hk as [?|[_ Hp']]; [done|]. rewrite Hp in Hp'. injection Hp' as Hp'.
      apply partno_at_inj in Hp'; lia. }
    destruct (IH w1 cstar ltac:(lia) Hp ltac:(lia)) as (rows & w' & ks & E' & C' & Hn & Hi).
    exists (r :: rows), w', (part_number_counter w :: ks).
    split; [by rewrite (bind_step _ _ w r w1 E), (bind_step _ _ w1 rows w' E')|].
    split; [cbn [length]; lia|]. split; [by apply numbered_rows_cons|].
    apply (increasing_within_cons _ (part_number_counter w1)); [lia|lia|done].
Qed.

Lemma short_batch_run (xs : list Z) : ∀ w,
  (0 ≤ part_number_counter w)%Z →
  (part_number_counter w + Z.of_nat (length xs) + 1 ≤ 702000)%Z →
  ∃ rows w' ks,
    for_each (fun i => random_row_for_child fuel parent_partno (i + 1) level
                         fields_to_populate false) xs w = Done rows w'
    ∧ (part_number_counter w + Z.of_nat (length xs) ≤ part_number_counter w'
       ≤ part_number_counter w + Z.of_nat (length xs) + 1)%Z
    ∧ numbered_rows (effective_fields fields_to_populate) parent_partno level xs ks rows
    ∧ increasing_within (part_number_counter w) (part_number_counter w') ks.
Proof.
  induction xs as [|x xs IH]; intros w Hc Hb.
  - exists [], w, []. split; [done|]. split; [cbn; lia|].
    split; [by repeat split|]. split; [by intros ? ? ?|by intros ? ? ? ? ? ?].
  - cbn [length] in Hb. cbn [for_each].
    destruct (short_row_run (x + 1) w) as (r & w1 & k & E & C1 & Hk & Hr & _).
    destruct Hk as [->|[-> Hp]].
    + destruct (IH w1 ltac:(lia) ltac:(lia)) as (rows & w' & ks & E' & C' & Hn & Hi).
      exists (r :: rows), w', (part_number_counter w :: ks).
      split; [by rewrite (bind_step _ _ w r w1 E), (bind_step _ _ w1 rows w' E')|].
      split; [cbn [length]; lia|]. split; [by apply numbered_rows_cons|].
      apply (increasing_within_cons _ (part_number_counter w1)); [lia|lia|done].
    + destruct (short_batch_after xs w1 (part_number_counter w) ltac:(lia) Hp ltac:(lia))
        as (rows & w' & ks & E' & C' & Hn & Hi).
      exists (r :: rows), w', (part_number_counter w + 1 :: ks).
      split; [by rewrite (bind_step _ _ w r w1 E), (bind_step _ _ w1 rows w' E')|].
      split; [cbn [length]; lia|]. split; [by apply numbered_rows_cons|].
      apply (increasing_within_cons _ (part_number_counter w1)); [lia|lia|done].
Qed.

End ShortBatches.

(** X11. In short form, within the first 702,000 numbers, a batch of
    [count] random rows consumes [count] part numbers, or [count + 1] when
    the parent's own number comes up and is skipped; the rows carry the
    numbers of increasing counter values, so no two rows of the batch have
    the same PartNo. *)
Theorem short_batch_distinct_numbers `{FloatModel} (fuel : nat)
    (parent_partno : value) (count : Z)
    (fields_to_populate : option (gset string)) (level : Z) (w : world) :
  (1 ≤ fuel)%nat →
  (0 ≤ part_number_counter w)%Z → (0 ≤ count)%Z →
  (part_number_counter w + count + 1 ≤ 702000)%Z →
  ∃ rows w',
    random_child_rows fuel parent_partno count fields_to_populate level false w
    = Done rows w'
    ∧ (part_number_counter w + count ≤ part_number_counter w'
       ≤ part_number_counter w + count + 1)%Z
    ∧ (∀ (i : nat) r, rows !! i = Some r →
         ∃ k, (part_number_counter w ≤ k < part_number_counter w')%Z
           ∧ r !! "PartNo"
             = if decide ("PartNo" ∈ effective_fields fields_to_populate)
               then Some (VStr (partno_at k)) else None)
    ∧ ("PartNo" ∈ effective_fields fields_to_populate →
       ∀ (i j : nat) ri rj, i ≠ j → rows !! i = Some ri → rows !! j = Some rj →
         ri !! "PartNo" ≠ rj !! "PartNo").
Proof.
  intros Hfuel Hc Hcount Hb. unfold random_child_rows.
  assert (Hlen : Z.of_nat (length (range count)) = count)
    by (rewrite range_length; lia).
  destruct (short_batch_run fuel parent_partno level fields_to_populate Hfuel
              (range count) w Hc ltac:(lia))
    as (rows & w' & ks & E & C & (Hks & Hrows & Hall) & Hin & Hinc).
  exists rows, w'. split; [exact E|]. split; [lia|].
  assert (Hrow : ∀ (i : nat) r, rows !! i = Some r →
            ∃ k, ks !! i = Some k
              ∧ (part_number_counter w ≤ k < part_number_counter w')%Z
              ∧ r !! "PartNo"
                = if decide ("PartNo" ∈ effective_fields fields_to_populate)
                  then Some (VStr (partno_at k)) else None).
  { intros i r Hi. destruct (Hall i r Hi) as (k & x & Hk & _ & Hpost).
    exists k. split; [done|]. split; [by apply (Hin i)|].
    exact (row_post_PartNo _ _ _ _ _ _ Hpost). }
  split.
  - intros i r Hi. destruct (Hrow i r Hi) as (k & _ & ? & ?). by exists k.
  - intros Hp i j ri rj Hij Hi Hj.
    destruct (Hrow i ri Hi) as (ki & Hki & Hbi & Ei).
    destruct (Hrow j rj Hj) as (kj & Hkj & Hbj & Ej).
    rewrite decide_True in Ei, Ej by done. rewrite Ei, Ej. intros [= E'].
    apply partno_at_inj in E'; [|lia|lia]. subst kj.
    destruct (Nat.lt_total i j) as [Hlt|[?|Hlt]]; [|done|].
    + pose proof (Hinc i j ki ki Hlt Hki Hkj). lia.
    + pose proof (Hinc j i ki ki Hlt Hkj Hki). lia.
Qed.

Lemma short_batch_example :
  ∃ rows w',
    @random_child_rows sample_floats 1 (VStr "A043") 3 None 2 false sample_world
    = Done rows w'
    ∧ (part_number_counter sample_world + 3 ≤ part_number_counter w'
       ≤ part_number_counter sample_world + 3 + 1)%Z
    ∧ (∀ (i : nat) r, rows !! i = Some r →
         ∃ k, (part_number_counter sample_world ≤ k < part_number_counter w')%Z
           ∧ r !! "PartNo"
             = if decide ("PartNo" ∈ effective_fields None)
               then Some (VStr (partno_at k)) else None)
    ∧ ("PartNo" ∈ effective_fields None →
       ∀ (i j : nat) ri rj, i ≠ j → rows !! i = Some ri → rows !! j = Some rj →
         ri !! "PartNo" ≠ rj !! "PartNo").
Proof.
  apply (@short_batch_distinct_numbers sample_floats 1 (VStr "A043") 3 None 2
           sample_world); cbn; lia.
Defined.

Section Defaults.
Local Open Scope list_scope.
Context `{FloatModel}.

Lemma level2_section_raises (f : Form) (cd : list row) w :
  level1_partnos_of cd ≠ [] → any_l1_manufactured_of cd = true →
  level1_partnos_manufactured_of cd = [] →
  random_all (level2 f) = true → (0 < num_groups (level2 f))%Z →
  level2_section f cd w = Raised ZeroDivisionError.
Proof.
  intros H1 Hany Hm Hall Hn. unfold level2_section, block_l2_of.
  apply is_empty_false in H1. rewrite H1, Hany, Hm, Hall. cbn [negb andb].
  assert ((num_groups (level2 f) >? 0)%Z = true) as -> by (apply Z.gtb_lt; lia).
  apply bind_raised.
  unfold range. destruct (Z.to_nat (num_groups (level2 f))) as [|n] eqn:En; [lia|].
  cbn [seq fmap list_fmap for_each]. apply bind_raised. by apply bind_raised.
Qed.

Lemma level1_section_shape (fuel : nat) (f : Form) w cd w' :
  (1 ≤ fuel)%nat →
  level1_section fuel f w = Done cd w' →
  length cd = Z.to_nat (child_count f)
  ∧ Forall (fun r => r !! "Parent" = Some (VStr (w_partno (parent f)))) cd.
Proof.
  intros Hfuel. unfold level1_section. destruct (use_random_children f).
  - destruct (page_random_rows fuel (VStr (w_partno (parent f))) (child_count f)
                (fields_for_random f) 1 w Hfuel) as (rows & w1 & E & Hlen & Hrows).
    rewrite (bind_step _ _ w rows w1 E). intros [<- _]%ret_done.
    split; [by rewrite defaults_length|].
    apply Forall_lookup. intros i r' Hi.
    apply defaults_lookup in Hi as (r & Hr & Hkeep & _).
    rewrite Hkeep by (unfold linkage_keys; set_solver).
    by destruct (proj1 (Forall_lookup _ _) Hrows i r Hr) as [_ ?].
  - intros [<- _]%ret_done. split.
    + by rewrite length_fmap, range_length.
    + apply Forall_fmap, Forall_forall. intros i _. cbn.
      unfold manual_child, assign. cbn [foldl fst snd].
      rewrite !lookup_insert_ne by done. apply lookup_insert_eq.
Qed.

Lemma main_outcomes (fuel : nat) (f : Form) w :
  (1 ≤ fuel)%nat →
  (¬ proceeds f ∧ ∃ pg w', main fuel f w = Done pg w')
  ∨ (proceeds f
     ∧ render_levels fuel f (after_reset w) = Raised ZeroDivisionError
     ∧ main fuel f w = Raised ZeroDivisionError)
  ∨ (proceeds f
     ∧ (∃ levels w1, render_levels fuel f (after_reset w) = Done levels w1)
     ∧ ∃ pg w', main fuel f w = Done pg w').
Proof.
  intros Hfuel. destruct (proceeds_dec f) as [Hp|Hn].
  2:{ left. split; [done|]. destruct (main_stops fuel f w Hn) as (shown & E & _).
      by eexists _, _. }
  right.
  destruct (render_levels_run fuel f Hfuel (after_reset w))
    as [(cd & sec2 & sec3 & w1 & Er & _ & _ & _ & Hcd & Hw2 & Hw3)|(Er & _)].
  2:{ left. split; [done|]. split; [done|]. exact (main_render_raised fuel f w _ Hp Er). }
  right. split; [done|]. split; [by eexists _, _|].
  destruct (generate_clicked f) eqn:Hc.
  2:{ eexists _, _. exact (main_idle fuel f w cd sec2 sec3 w1 Hp Er Hc). }
  destruct (upper_errors f cd) as [|e es] eqn:He.
  2:{ eexists _, _. apply (main_upper_errors fuel f w cd sec2 sec3 w1 Hp Er Hc).
      by rewrite He. }
  destruct (assemble_lower_run fuel f Hfuel cd sec2 sec3 w1 Hcd Hw2 Hw3)
    as (l2 & l3 & w2 & Ea & _).
  destruct (lower_errors f l2 l3) as [|e es] eqn:Hl.
  2:{ eexists _, _.
      apply (main_lower_errors fuel f w cd sec2 sec3 w1 l2 l3 w2 Hp Er Hc He Ea).
      by rewrite Hl. }
  destruct (parent_row_of_some f (proj2 Hp)) as [pr Hpr].
  eexists _, _.
  exact (main_writes fuel f w cd sec2 sec3 w1 l2 l3 w2 pr Hp Er Hc He Ea Hl Hpr).
Qed.

End Defaults.

(** X12. [_apply_random_row_defaults] keeps the number of rows and gives
    every row UM "EA", an empty Category, Source "F" for the first
    [manufactured_count] rows and "J" for the others, Productline "CP" with
    "F" and "CM" with "J", and the parent's Location and Revision (or [None]
    when blank or when the option is off); no other key changes, and the
    category/source check accepts every such row. *)
Theorem random_row_defaults_fields `{FloatModel} (rows : list row)
    (manufactured_count : Z) (apply_revision_to_all apply_location_to_all : bool)
    (parent_revision parent_location : string) :
  let rows' := _apply_random_row_defaults rows manufactured_count
                 apply_revision_to_all apply_location_to_all
                 parent_revision parent_location in
  length rows' = length rows
  ∧ ∀ (i : nat) r', rows' !! i = Some r' →
      ∃ r, rows !! i = Some r
        ∧ get "UM" r' = VStr "EA" ∧ get "Category" r' = VStr ""
        ∧ get "Source" r'
          = VStr (if (Z.of_nat i <? manufactured_count)%Z then "F" else "J")
        ∧ get "Productline" r'
          = VStr (if (Z.of_nat i <? manufactured_count)%Z then "CP" else "CM")
        ∧ get "Location" r'
          = (if apply_location_to_all then or_none parent_location else VNone)
        ∧ get "Revision" r'
          = (if apply_revision_to_all then or_none parent_revision else VNone)
        ∧ (∀ k, k ∉ ["UM"; "Location"; "Revision"; "Category"; "Source"; "Productline"] →
             r' !! k = r !! k)
        ∧ ∀ who, _validate_category_source (get "Category" r') (get "Source" r') who
                 = None.
Proof.
  cbn zeta. split; [apply defaults_length|].
  intros i r' Hi. unfold _apply_random_row_defaults in Hi.
  rewrite list_lookup_imap in Hi. destruct (rows !! i) as [r|]; [|discriminate].
  cbn in Hi. apply (inj Some) in Hi. subst r'. exists r. split; [done|].
  assert (Hsrc : ∀ d : row,
            get "Source"
              (<["Source" := VStr (if (Z.of_nat i <? manufactured_count)%Z
                                   then "F" else "J")]> d)
            = VStr (if (Z.of_nat i <? manufactured_count)%Z then "F" else "J"))
    by (intros; apply get_insert_eq).
  rewrite Hsrc.
  split; [unfold get; by rewrite !lookup_insert_ne, lookup_insert_eq by done|].
  split; [unfold get; by rewrite !lookup_insert_ne, lookup_insert_eq by done|].
  split; [unfold get; by rewrite !lookup_insert_ne, lookup_insert_eq by done|].
  split.
  { unfold get. rewrite lookup_insert_eq. cbn.
    by destruct (Z.of_nat i <? manufactured_count)%Z. }
  split; [unfold get; by rewrite !lookup_insert_ne, lookup_insert_eq by done|].
  split; [unfold get; by rewrite !lookup_insert_ne, lookup_insert_eq by done|].
  split.
  { intros k Hk. rewrite !lookup_insert_ne; [done|..]; intros <-; apply Hk; set_solver. }
  intros who. apply validate_category_source_none.
  unfold get. rewrite !lookup_insert_ne, lookup_insert_eq by done. by split.
Qed.

(** X13. The page raises an exception in exactly one situation, a
    [ZeroDivisionError] from [level1_partnos_manufactured[g % len(...)]]:
    all Level 2 groups are to be generated at random, some Level 1 row with
    a part number is manufactured, yet no part number is offered as a
    parent because the FIRST row with each manufactured part number is not
    manufactured. *)
Theorem page_crash_condition `{FloatModel} (fuel : nat) (f : Form) (w : world)
    (e : exn) :
  (1 ≤ fuel)%nat →
  main fuel f w = Raised e ↔
  e = ZeroDivisionError ∧ proceeds f
  ∧ ∃ cd w1,
      level1_section fuel f (after_reset w) = Done cd w1
      ∧ level1_partnos_of cd ≠ [] ∧ any_l1_manufactured_of cd = true
      ∧ level1_partnos_manufactured_of cd = []
      ∧ random_all (level2 f) = true ∧ (0 < num_groups (level2 f))%Z.
Proof.
  intros Hfuel. split.
  - intros Hmain.
    destruct (main_outcomes fuel f w Hfuel)
      as [(_ & pg & w' & Hd)|[(Hp & Er & Hr)|(_ & _ & pg & w' & Hd)]];
      [by rewrite Hd in Hmain| |by rewrite Hd in Hmain].
    rewrite Hr in Hmain. injection Hmain as <-. split; [done|]. split; [done|].
    destruct (render_levels_run fuel f Hfuel (after_reset w))
      as [(cd & sec2 & sec3 & w1 & Er' & _)|(_ & cd & w1 & E1 & E2)];
      [by rewrite Er' in Er|].
    exists cd, w1. split; [done|].
    destruct (level2_section_cases f cd w1) as (Hnone & Hblock & Hdrawn).
    assert (H1 : level1_partnos_of cd ≠ []).
    { intros E. rewrite (Hnone E) in E2. discriminate. }
    split; [done|].
    destruct Hdrawn as [(sec & E & _)|(_ & Hm & Hany & Hall)];
      [by rewrite E in E2|].
    split; [done|]. split; [done|]. split; [done|].
    destruct (Z.lt_ge_cases 0 (num_groups (level2 f))) as [?|Hle]; [done|].
    exfalso. unfold level2_section, block_l2_of in E2.
    apply is_empty_false in H1. rewrite H1, Hany in E2. cbn [negb andb] in E2.
    assert ((num_groups (level2 f) >? 0)%Z = false) as Hgt
      by (rewrite Z.gtb_ltb; apply Z.ltb_ge; lia).
    rewrite Hgt in E2. cbn [andb] in E2.
    rewrite range_nonpos in E2 by lia. discriminate.
  - intros (-> & Hp & cd & w1 & E1 & H1 & Hany & Hm & Hall & Hn).
    apply (main_render_raised fuel f w _ Hp).
    unfold render_levels. rewrite (bind_step _ _ _ cd w1 E1).
    apply bind_raised. by apply level2_section_raises.
Qed.

Lemma page_crash_example :
  @main sample_floats 1 shadowed_form sample_world = Raised ZeroDivisionError.
Proof.
  apply (proj2 (@page_crash_condition sample_floats 1 shadowed_form sample_world
                  ZeroDivisionError (le_n 1))).
  split; [reflexivity|]. split; [split; [reflexivity|discriminate]|].
  exists (level1_rows_of shadowed_form),
    (world_of (@level1_section sample_floats 1 shadowed_form (after_reset sample_world))).
  split; [vm_compute; reflexivity|].
  split; [vm_compute; discriminate|].
  split; [vm_compute; reflexivity|].
  split; [vm_compute; reflexivity|].
  split; [reflexivity|]. cbn. lia.
Defined.

Section Sheet.
Local Open Scope list_scope.
Context `{FloatModel} (fuel : nat) (f : Form).
Hypothesis Hfuel : (1 ≤ fuel)%nat.

Lemma rendered_level1 w cd sec2 sec3 w1 :
  render_levels fuel f w = Done (cd, sec2, sec3) w1 →
  length cd = Z.to_nat (child_count f)
  ∧ Forall (fun r => r !! "Parent" = Some (VStr (w_partno (parent f)))) cd.
Proof.
  intros Er.
  destruct (render_levels_run fuel f Hfuel w)
    as [(cd' & s2 & s3 & w' & E & E1 & _)|(E & _)]; rewrite E in Er; [|discriminate].
  injection Er as -> _ _ _.
  exact (level1_section_shape fuel f w cd w' Hfuel E1).
Qed.

Lemma finished_level (level : Z) (rows : list row) :
  Forall (linked level) rows →
  Forall (fun r => r !! "Level" = Some (VInt level)) (finished f rows).
Proof.
  intros Hrows. apply Forall_lookup. intros i r' Hi.
  apply finished_lookup in Hi as (r & Hr & ->).
  rewrite finished_row_keeps by done.
  by destruct (proj1 (Forall_lookup _ _) Hrows i r Hr) as [_ ?].
Qed.

Lemma finished_propagated (rows : list row) :
  Forall (fun r' =>
            (apply_revision_to_all f = true →
               get "Revision" r' = or_none (w_revision (parent f)))
            ∧ (apply_location_to_all f = true →
               get "Location" r' = or_none (w_location (parent f))))
         (finished f rows).
Proof.
  apply Forall_lookup. intros i r' Hi.
  apply finished_lookup in Hi as (r & Hr & ->).
  unfold get. rewrite !clear_self_parent_lookup by done. unfold propagate_row.
  split; intros ->.
  - destruct (apply_location_to_all f);
      by rewrite ?lookup_insert_ne, lookup_insert_eq by done.
  - by rewrite lookup_insert_eq.
Qed.

End Sheet.

(** X14. The sheet of a download is rectangular, every row having one cell
    per header of the template; after the top row come exactly
    [child_count] Level 1 rows, each written with the parent part number as
    Parent (or with an empty Parent when [clear_self_parent] cleared it),
    and then the Level 2 and Level 3 rows. *)
Theorem sheet_shape `{FloatModel} (fuel : nat) (f : Form) (w w' : world)
    (pg : page) (ws : sheet) :
  (1 ≤ fuel)%nat →
  main fuel f w = Done pg w' → download pg = Some ws →
  Forall (fun cells => length cells = length (template_headers f)) ws
  ∧ ∃ (top : list value) (level1 level2 level3 : list row),
      ws = (top :: (row_cells (template_headers f) <$> (level1 ++ level2 ++ level3)))%list
      ∧ length level1 = Z.to_nat (child_count f)
      ∧ Forall (fun r => r !! "Level" = Some (VInt 1)
                  ∧ (get "Parent" r = VStr (w_partno (parent f))
                     ∨ get "Parent" r = VStr "")) level1
      ∧ Forall (fun r => r !! "Level" = Some (VInt 2)) level2
      ∧ Forall (fun r => r !! "Level" = Some (VInt 3)) level3.
Proof.
  intros Hfuel Hmain Hdl.
  destruct (main_download fuel f Hfuel w pg w' ws Hmain Hdl)
    as (pr & cd & sec2 & sec3 & w1 & l2 & l3 & _ & _ & _ & Er & _
        & Hcd & Hl2 & Hl3 & _ & _ & -> & _).
  destruct (rendered_level1 fuel f Hfuel _ _ _ _ _ Er) as [Hlen Hparent].
  split.
  - unfold written. constructor.
    + unfold parent_values. by rewrite length_fmap.
    + apply Forall_fmap, Forall_forall. intros r _. cbn.
      unfold row_cells. by rewrite length_fmap.
  - exists (parent_values f (template_headers f) pr),
      (finished f cd), (finished f l2), (finished f l3).
    split; [done|]. split; [by rewrite finished_length|].
    split; [|split; by apply finished_level].
    apply Forall_lookup. intros i r' Hi.
    pose proof (proj1 (Forall_lookup _ _) (finished_level f 1 cd Hcd) i r' Hi) as Hlevel.
    split; [done|].
    apply finished_lookup in Hi as (r & Hr & ->). rewrite finished_row_parent.
    destruct (self_parent r); [by right|left].
    apply get_lookup. exact (proj1 (Forall_lookup _ _) Hparent i r Hr).
Qed.

Lemma sheet_shape_example :
  Forall (fun cells => length cells = length (template_headers nested_form))
         (sheet_of (sample_run nested_form))
  ∧ ∃ (top : list value) (level1 level2 level3 : list row),
      sheet_of (sample_run nested_form)
      = (top :: (row_cells (template_headers nested_form)
                 <$> (level1 ++ level2 ++ level3)))%list
      ∧ length level1 = Z.to_nat (child_count nested_form)
      ∧ Forall (fun r => r !! "Level" = Some (VInt 1)
                  ∧ (get "Parent" r = VStr (w_partno (parent nested_form))
                     ∨ get "Parent" r = VStr "")) level1
      ∧ Forall (fun r => r !! "Level" = Some (VInt 2)) level2
      ∧ Forall (fun r => r !! "Level" = Some (VInt 3)) level3.
Proof.
  destruct (sample_run_done nested_form nested_form_download) as [Hrun Hdl].
  exact (@sheet_shape sample_floats 1 nested_form sample_world _ _ _ (le_n 1) Hrun Hdl).
Defined.

(** X15. With "apply Revision to all" checked, every row written below
    the top row carries the parent's Revision ([None] when the parent's is
    blank), whatever was entered or generated for it; the same holds for
    Location. *)
Theorem parent_fields_propagated `{FloatModel} (fuel : nat) (f : Form)
    (w w' : world) (pg : page) (ws : sheet) :
  (1 ≤ fuel)%nat →
  main fuel f w = Done pg w' → download pg = Some ws →
  ∃ (top : list value) (rows : list row),
    ws = (top :: (row_cells (template_headers f) <$> rows))%list
    ∧ (apply_revision_to_all f = true →
       Forall (fun r => get "Revision" r = or_none (w_revision (parent f))) rows)
    ∧ (apply_location_to_all f = true →
       Forall (fun r => get "Location" r = or_none (w_location (parent f))) rows).
Proof.
  intros Hfuel Hmain Hdl.
  destruct (main_download fuel f Hfuel w pg w' ws Hmain Hdl)
    as (pr & cd & sec2 & sec3 & w1 & l2 & l3 & _ & _ & _ & _ & _
        & _ & _ & _ & _ & _ & -> & _).
  exists (parent_values f (template_headers f) pr),
    (finished f cd ++ finished f l2 ++ finished f l3)%list.
  split; [done|].
  assert (Hall : Forall (fun r' =>
            (apply_revision_to_all f = true →
               get "Revision" r' = or_none (w_revision (parent f)))
            ∧ (apply_location_to_all f = true →
               get "Location" r' = or_none (w_location (parent f))))
            (finished f cd ++ finished f l2 ++ finished f l3)%list).
  { rewrite !Forall_app. repeat split; apply finished_propagated. }
  split; intros Hflag; eapply Forall_impl; try exact Hall; intros r [H1 H2]; auto.
Qed.

Lemma stamped_form_download : is_Some (download (page_of (sample_run stamped_form))).
Proof. vm_compute. by eexists. Qed.

Lemma parent_fields_propagated_example :
  ∃ (top : list value) (rows : list row),
    sheet_of (sample_run stamped_form)
    = (top :: (row_cells (template_headers stamped_form) <$> rows))%list
    ∧ (apply_revision_to_all stamped_form = true →
       Forall (fun r => get "Revision" r = or_none (w_revision (parent stamped_form)))
              rows)
    ∧ (apply_location_to_all stamped_form = true →
       Forall (fun r => get "Location" r = or_none (w_location (parent stamped_form)))
              rows).
Proof.
  destruct (sample_run_done stamped_form stamped_form_download) as [Hrun Hdl].
  exact (@parent_fields_propagated sample_floats 1 stamped_form sample_world _ _ _
           (le_n 1) Hrun Hdl).
Defined.

Lemma partno_at_nonempty (k : Z) : partno_at k ≠ "".
Proof.
  unfold partno_at. intros E. apply (f_equal String.length) in E.
  rewrite str_length_app in E. cbn in E.
  assert (String.length (format_0d 3 (k mod 1000 + 1)) ≠ 0%nat); [|lia].
  pose proof (Z.mod_pos_bound k 1000 ltac:(lia)).
  pose proof (format_0d_nonempty 3 (k mod 1000 + 1) ltac:(lia)) as Hne.
  by destruct (format_0d 3 (k mod 1000 + 1)).
Qed.

Section RandomChildren.
Local Open Scope list_scope.
Context `{FloatModel} (fuel : nat).
Hypothesis Hfuel : (1 ≤ fuel)%nat.


(** A random row with the linkage fields, in short form. *)
Lemma short_rows_linkage (parent_partno : string) (count : Z) (chosen : list string)
    (level : Z) w rows w' :
  random_child_rows fuel (VStr parent_partno) count (Some (with_linkage chosen))
    level false w = Done rows w' →
  Forall (fun r =>
            (∃ k, r !! "PartNo" = Some (VStr (partno_at k))
                  ∧ partno_at k ≠ parent_partno)
            ∧ (∃ q, r !! "Quantity" = Some (VInt q) ∧ (1 ≤ q ≤ 10)%Z)
            ∧ r !! "Parent" = Some (VStr parent_partno)
            ∧ (∃ z, r !! "Sequence" = Some (VInt z))) rows.
Proof.
  unfold random_child_rows. apply for_each_Forall.
  intros x w0 r w0' Hrun.
  destruct (short_row_run fuel (VStr parent_partno) level (Some (with_linkage chosen))
              Hfuel (x + 1) w0) as (r0 & w1 & k & E & _ & _ & Hpost & Hneq).
  rewrite E in Hrun. injection Hrun as <- _.
  rewrite effective_with_linkage in Hpost.
  pose proof (row_post_PartNo _ _ _ _ _ _ Hpost) as Hp.
  pose proof (row_post_Quantity _ _ _ _ _ _ Hpost) as Hq.
  pose proof (row_post_Parent _ _ _ _ _ _ Hpost) as Ha.
  pose proof (row_post_Sequence _ _ _ _ _ _ Hpost) as Hs.
  rewrite decide_True in Hp by (apply with_linkage_elem; set_solver).
  rewrite decide_True in Hq by (apply with_linkage_elem; set_solver).
  rewrite decide_True in Ha by (apply with_linkage_elem; set_solver).
  rewrite decide_True in Hs by (apply with_linkage_elem; set_solver).
  split; [|split; [done|split; [done|by eexists]]].
  exists k. split; [done|]. intros E'. rewrite E' in Hneq.
  cbn in Hneq. by rewrite String.eqb_refl in Hneq.
Qed.

End RandomChildren.

(** X16. Level 1 parts generated at random always pass the first
    validation pass: the section returns [child_count] rows whose PartNo is
    a fresh number different from the parent's, whose Parent is the parent
    part number, and for which [check_children] reports nothing. *)
Theorem random_children_pass_validation `{FloatModel} (fuel : nat) (f : Form)
    (w : world) :
  (1 ≤ fuel)%nat → use_random_children f = true → w_partno (parent f) ≠ "" →
  ∃ cd w',
    level1_section fuel f w = Done cd w'
    ∧ length cd = Z.to_nat (child_count f)
    ∧ check_children cd = []
    ∧ Forall (fun r => get "PartNo" r ≠ VStr (w_partno (parent f))
                       ∧ get "Parent" r = VStr (w_partno (parent f))) cd.
Proof.
  intros Hfuel Hrandom Hparent.
  destruct (level1_section_run fuel f w Hfuel) as (cd & w' & E & _).
  exists cd, w'. split; [exact E|].
  destruct (level1_section_shape fuel f w cd w' Hfuel E) as [Hlen _].
  split; [exact Hlen|].
  unfold level1_section in E. rewrite Hrandom in E.
  apply bind_done in E as (rows & w1 & Erows & Eret). apply ret_done in Eret as [<- _].
  pose proof (short_rows_linkage fuel Hfuel _ _ _ _ _ _ _ Erows) as Hrows.
  assert (Hall : Forall (fun r' =>
            (required_present r' ∧ category_rule r')
            ∧ get "PartNo" r' ≠ VStr (w_partno (parent f))
            ∧ get "Parent" r' = VStr (w_partno (parent f)))
            (_apply_random_row_defaults rows (l1_manufactured_count f)
               (apply_revision_to_all f) (apply_location_to_all f)
               (w_revision (parent f)) (w_location (parent f)))).
  { apply Forall_lookup. intros i r' Hi.
    apply defaults_lookup in Hi as (r & Hr & Hkeep & Hcat & Hsrc).
    destruct (proj1 (Forall_lookup _ _) Hrows i r Hr)
      as ((k & Hp & Hne) & (q & Hq & _) & Ha & (z & Hs)).
    assert (Hin : ∀ key, key ∈ ["PartNo"; "Quantity"; "Parent"; "Sequence"] →
              key ∈ linkage_keys) by (intros key; unfold linkage_keys; set_solver).
    rewrite <- Hkeep in Hp, Hq, Ha, Hs by (apply Hin; set_solver).
    split; [split|split].
    - intros fld Hf. unfold REQUIRED_FIELDS in Hf. unfold get.
      repeat (apply elem_of_cons in Hf as [->|Hf]);
        [rewrite Hp|rewrite Hq|rewrite Ha|rewrite Hs|by apply elem_of_nil in Hf];
        cbn; try done.
      + apply orb_false_iff. split; [|done]. apply String.eqb_neq, partno_at_nonempty.
      + apply orb_false_iff. split; [|done]. by apply String.eqb_neq.
    - unfold category_rule, get. rewrite Hcat. cbn. by split.
    - unfold get. rewrite Hp. cbn. by intros [= ?].
    - unfold get. by rewrite Ha. }
  split.
  - apply check_children_nil. eapply Forall_impl; [exact Hall|]. by intros r [? _].
  - eapply Forall_impl; [exact Hall|]. by intros r [_ ?].
Qed.

Lemma random_children_example :
  ∃ cd w',
    @level1_section sample_floats 1 stamped_form sample_world = Done cd w'
    ∧ length cd = Z.to_nat (child_count stamped_form)
    ∧ check_children cd = []
    ∧ Forall (fun r => get "PartNo" r ≠ VStr (w_partno (parent stamped_form))
                       ∧ get "Parent" r = VStr (w_partno (parent stamped_form))) cd.
Proof.
  apply (@random_children_pass_validation sample_floats 1 stamped_form sample_world);
    [lia|reflexivity|discriminate].
Defined.

Section Parents.
Local Open Scope list_scope.
Context `{FloatModel} (fuel : nat) (f : Form).
Hypothesis Hfuel : (1 ≤ fuel)%nat.

Lemma on_slice_app_end {A} (g : list A → list A) (l batch : list A) :
  on_slice (length l) (length (l ++ batch)) g (l ++ batch) = l ++ g batch.
Proof.
  unfold on_slice. rewrite take_app_length, drop_app_length, length_app.
  replace (length l + length batch - length l)%nat with (length batch) by lia.
  rewrite firstn_all, drop_ge by (rewrite length_app; lia).
  by rewrite app_nil_r.
Qed.

Lemma defaults_on_parent (A : value → Prop) level rows mfg :
  Forall (fun r => linked level r ∧ parent_in A r) rows →
  Forall (fun r => linked level r ∧ parent_in A r) (defaults_on f rows mfg).
Proof.
  intros Hrows. apply Forall_lookup. intros i r' Hi.
  apply defaults_lookup in Hi as (r & Hr & Hkeep & _).
  destruct (proj1 (Forall_lookup _ _) Hrows i r Hr) as [[[s Hs] Hl] (p & Hp & HA)].
  split; [split; [exists s|]|exists p; split; [|done]];
    (rewrite Hkeep; [done|unfold linkage_keys; set_solver]).
Qed.

Lemma random_under_manufactured_parents (A : value → Prop)
    (above_level level : Z) (pp : per_parent) (above rows : list row) w :
  Forall (linked above_level) above →
  (∀ c, c ∈ above → in_M_F (get "Source" c) = true → A (get "PartNo" c)) →
  Forall (fun r => linked level r ∧ parent_in A r) rows →
  ∃ rows' w', random_under_manufactured fuel f level pp above rows w = Done rows' w'
    ∧ Forall (fun r => linked level r ∧ parent_in A r) rows'.
Proof.
  intros Habove HA Hrows. unfold random_under_manufactured.
  set (manufactured := filter (fun c => in_M_F (get "Source" c) = true) above).
  destruct (fold_m_run
    (fun rows c =>
       let* pno := subscript "PartNo" c in
       let* batch := random_child_rows fuel pno (pp_count pp)
                       (Some (with_linkage (pp_fields pp))) level false in
       ret (rows ++ batch)%list)
    (Forall (fun r => linked level r ∧ parent_in A r)) manufactured)
    with (acc := rows) (w := w) as (rows1 & w1 & E1 & H1); [|done|].
  { intros acc c w0 Hacc Hc.
    apply list_elem_of_filter in Hc as [Hsrc Hin].
    pose proof (proj1 (Forall_forall _ _) Habove c Hin) as [[s Hs] _].
    destruct (page_random_rows fuel (VStr s) (pp_count pp) (pp_fields pp) level w0 Hfuel)
      as (batch & w0' & E & _ & Hb).
    exists (acc ++ batch)%list, w0'. split.
    - rewrite (bind_step _ _ w0 (VStr s) w0) by (by apply subscript_run).
      by rewrite (bind_step _ _ w0 batch w0').
    - apply Forall_app. split; [done|].
      eapply Forall_impl; [exact Hb|]. intros r [Hl Hp]. split; [done|].
      exists (VStr s). split; [done|].
      specialize (HA c Hin Hsrc). unfold get in HA. by rewrite Hs in HA. }
  eexists _, w1. split; [by rewrite (bind_step _ _ w rows1 w1)|].
  apply foldl_invariant; [|done].
  intros a i Ha. apply on_slice_Forall; [|done]. intros l'. apply defaults_on_parent.
Qed.

Lemma manual_row_Parent level parent_of (r : row) :
  manual_row level parent_of r !! "Parent" = Some parent_of.
Proof.
  unfold manual_row. cbn zeta.
  match goal with |- assign ?kvs ?r0 !! _ = _ =>
    exact (assign_lookup_last
             [("UM", py_or (get "UM" r0) (VStr "EA")); ("IssueUM", get "IssueUM" r);
              ("ConsumptionConv", get "ConsumptionConv" r)]
             "Parent" parent_of
             [("Level", VInt level); ("Sequence", default (VInt 0) (r !! "Sequence"))] r0
             ltac:(apply (bool_decide_unpack _); by vm_compute))
  end.
Qed.

Lemma add_groups_parents (A : value → Prop) (level : Z)
    (configs : list group_config) (rows : list row) w :
  Forall (from_widgets level) configs →
  Forall (fun cfg => A (config_parent cfg)) configs →
  Forall (fun r => linked level r ∧ parent_in A r) rows →
  ∃ rows' w', add_groups fuel f level configs rows w = Done rows' w'
    ∧ Forall (fun r => linked level r ∧ parent_in A r) rows'.
Proof.
  intros Hcfg HA Hrows. unfold add_groups.
  apply fold_m_run; [|done].
  intros acc cfg w0 Hacc Hin.
  pose proof (proj1 (Forall_forall _ _) Hcfg cfg Hin) as Hw.
  pose proof (proj1 (Forall_forall _ _) HA cfg Hin) as Hp.
  destruct cfg as [p count fields mfg|p count mrows]; cbn [config_parent] in Hp.
  - destruct (page_random_rows fuel p count fields level w0 Hfuel)
      as (batch & w0' & E & _ & Hb).
    eexists _, w0'. split; [by rewrite (bind_step _ _ w0 batch w0')|].
    apply on_slice_Forall; [intros l'; apply defaults_on_parent|].
    apply Forall_app. split; [done|].
    eapply Forall_impl; [exact Hb|]. intros r [? ?]. split; [done|]. by exists p.
  - eexists _, w0. split; [reflexivity|].
    apply Forall_app. split; [done|].
    apply Forall_fmap. eapply Forall_impl; [exact Hw|].
    intros r (j & c & ->). unfold compose. split.
    + exact (manual_row_linked level p _ _ (manual_group_row_PartNo level p j c)).
    + exists p. split; [apply manual_row_Parent|done].
Qed.

(** The rows already there stay, and every manual row is added. *)
Lemma add_groups_members (level : Z) (configs : list group_config) :
  ∀ (rows : list row) w rows' w',
  add_groups fuel f level configs rows w = Done rows' w' →
  (∀ r, r ∈ rows → r ∈ rows')
  ∧ ∀ p n mrows r0, ManualGroup p n mrows ∈ configs → r0 ∈ mrows →
      manual_row level p r0 ∈ rows'.
Proof.
  unfold add_groups. induction configs as [|cfg configs IH]; intros rows w rows' w' E.
  - cbn [fold_m] in E. apply ret_done in E as [<- _].
    split; [done|]. intros p n mrows r0 Hin. by apply elem_of_nil in Hin.
  - cbn [fold_m] in E. apply bind_done in E as (acc & w1 & Estep & Erest).
    destruct (IH acc w1 rows' w' Erest) as [Hkeep Hman].
    assert (Hacc : (∀ r, r ∈ rows → r ∈ acc)
                   ∧ ∀ p n mrows r0, cfg = ManualGroup p n mrows → r0 ∈ mrows →
                       manual_row level p r0 ∈ acc).
    { destruct cfg as [p count fields mfg|p count mrows].
      - apply bind_done in Estep as (batch & w0 & _ & Eret).
        apply ret_done in Eret as [<- _]. rewrite on_slice_app_end.
        split; [|done]. intros r Hr. apply elem_of_app. by left.
      - apply ret_done in Estep as [<- _]. split.
        + intros r Hr. apply elem_of_app. by left.
        + intros p' n' mrows' r0 [= -> -> ->] Hr0. apply elem_of_app. right.
          by apply list_elem_of_fmap_2. }
    destruct Hacc as [Hacc1 Hacc2]. split; [by auto|].
    intros p n mrows r0 [Ecfg|Hin]%elem_of_cons Hr0; [|by eapply Hman].
    apply Hkeep. by eapply Hacc2.
Qed.

Lemma manual_rows_of_elem (configs : list group_config) (r0 : row) :
  r0 ∈ manual_rows_of configs →
  ∃ p n mrows, ManualGroup p n mrows ∈ configs ∧ r0 ∈ mrows.
Proof.
  unfold manual_rows_of. intros Hin. apply list_elem_of_In, in_flat_map in Hin
    as (cfg & Hcfg & Hr0).
  destruct cfg as [|p n mrows]; [done|].
  exists p, n, mrows. split; by apply list_elem_of_In.
Qed.

Lemma manual_row_copies level parent_of (r0 : row) (s : string) :
  get "PartNo" r0 = VStr s → in_M_F (get "Source" r0) = true →
  get "PartNo" (manual_row level parent_of r0) = VStr s
  ∧ in_M_F (get "Source" (manual_row level parent_of r0)) = true.
Proof.
  intros Hp Hs. unfold get in *.
  rewrite !manual_row_lookup_copied
    by (apply (bool_decide_unpack _); by vm_compute).
  destruct (r0 !! "PartNo") as [[]|]; try discriminate.
  destruct (r0 !! "Source") as [[]|]; try discriminate. by split.
Qed.

(** The parents of the assembled Level 2 and Level 3 rows. *)
Lemma assemble_lower_parents (child_data : list row) (sec2 sec3 : section) w :
  Forall (linked 1) child_data →
  Forall (from_widgets 2) (sec_config sec2) →
  Forall (from_widgets 3) (sec_config sec3) →
  Forall (fun cfg => config_parent cfg = VNone
                     ∨ manufactured_in child_data (config_parent cfg))
         (sec_config sec2) →
  Forall (fun cfg => config_parent cfg
                     ∈ level2_partnos_manufactured_of (sec_config sec2))
         (sec_config sec3) →
  ∃ l2 l3 w', assemble_lower fuel f child_data sec2 sec3 w = Done (l2, l3) w'
    ∧ Forall (fun r => parent_in (fun p => p = VNone ∨ manufactured_in child_data p) r)
             l2
    ∧ Forall (fun r => parent_in (manufactured_in l2) r) l3.
Proof.
  intros Hcd H2 H3 Hp2 Hp3. unfold assemble_lower.
  set (A2 := fun p => p = VNone ∨ manufactured_in child_data p).
  assert (∃ a w1,
    match sec_per_parent sec2 with
    | Some pp => random_under_manufactured fuel f 2 pp child_data []
    | None => ret []
    end w = Done a w1 ∧ Forall (fun r => linked 2 r ∧ parent_in A2 r) a)
    as (a & w1 & Ea & Ha).
  { destruct (sec_per_parent sec2) as [pp|]; [|by exists [], w].
    apply (random_under_manufactured_parents A2 1); [done| |done].
    intros c Hc Hsrc. right. by exists c. }
  destruct (add_groups_parents A2 2 (sec_config sec2) a w1 H2 Hp2 Ha)
    as (l2 & w2 & E2 & Hl2).
  destruct (add_groups_members 2 (sec_config sec2) a w1 l2 w2 E2) as [_ Hman].
  assert (Hlinked2 : Forall (linked 2) l2)
    by (eapply Forall_impl; [exact Hl2|]; by intros r [? _]).
  set (A3 := manufactured_in l2).
  assert (∃ b w3,
    match sec_per_parent sec3 with
    | Some pp =>
        if negb (is_empty l2) then random_under_manufactured fuel f 3 pp l2 []
        else ret []
    | None => ret []
    end w2 = Done b w3 ∧ Forall (fun r => linked 3 r ∧ parent_in A3 r) b)
    as (b & w3 & Eb & Hb).
  { destruct (sec_per_parent sec3) as [pp|]; [|by exists [], w2].
    destruct (negb (is_empty l2)); [|by exists [], w2].
    apply (random_under_manufactured_parents A3 2); [done| |done].
    intros c Hc Hsrc. by exists c. }
  assert (Hp3' : Forall (fun cfg => A3 (config_parent cfg)) (sec_config sec3)).
  { eapply Forall_impl; [exact Hp3|]. intros cfg Hin. cbn in Hin.
    pose proof Hin as Hin'.
    apply level2_manufactured_row in Hin as (r0 & Hr0 & Hpart & Hsrc).
    apply manual_rows_of_elem in Hr0 as (p & n & mrows & Hcfg & Hr0).
    unfold level2_partnos_manufactured_of in Hin'.
    apply list_elem_of_filter in Hin' as [Hs _]. unfold source_of in Hs.
    destruct (config_parent cfg) as [|s| |] eqn:Ecp; try discriminate.
    destruct (manual_row_copies 2 p r0 s Hpart Hsrc) as [Hp' Hs'].
    exists (manual_row 2 p r0). split; [by eapply Hman|]. by split. }
  destruct (add_groups_parents A3 3 (sec_config sec3) b w3 H3 Hp3' Hb)
    as (l3 & w4 & E3 & Hl3).
  exists l2, l3, w4. split; [|split].
  - rewrite (bind_step _ _ w a w1) by done.
    rewrite (bind_step _ _ w1 l2 w2) by done.
    rewrite (bind_step _ _ w2 b w3) by done.
    by rewrite (bind_step _ _ w3 l3 w4).
  - eapply Forall_impl; [exact Hl2|]. by intros r [_ ?].
  - eapply Forall_impl; [exact Hl3|]. by intros r [_ ?].
Qed.

(** What the sections of a rendered page offer as parents. *)
Lemma rendered_parents w cd sec2 sec3 w1 :
  render_levels fuel f w = Done (cd, sec2, sec3) w1 →
  Forall (linked 1) cd
  ∧ Forall (from_widgets 2) (sec_config sec2)
  ∧ Forall (from_widgets 3) (sec_config sec3)
  ∧ Forall (fun cfg => config_parent cfg = VNone
                       ∨ manufactured_in cd (config_parent cfg)) (sec_config sec2)
  ∧ Forall (fun cfg => config_parent cfg
                       ∈ level2_partnos_manufactured_of (sec_config sec2))
           (sec_config sec3).
Proof.
  intros Er.
  destruct (render_levels_run fuel f Hfuel w)
    as [(cd' & s2 & s3 & w' & E & _ & E2 & E3 & Hcd & Hw2 & Hw3)|(E & _)];
    rewrite E in Er; [|discriminate].
  injection Er as -> -> -> ->.
  split; [done|]. split; [done|]. split; [done|]. split.
  - destruct (level2_section_cases f cd w1) as (_ & _ & [(sec & Es & _ & Hpar & _)|(Es & _)]);
      rewrite Es in E2; [|discriminate].
    injection E2 as ->. eapply Forall_impl; [exact Hpar|].
    intros cfg [Hin|[_ ?]]; [right|by left]. cbn in Hin.
    apply level1_manufactured_row in Hin as (c & Hc & Heq & Hsrc).
    exists c. split; [done|]. split; [|done].
    destruct (proj1 (Forall_forall _ _) Hcd c Hc) as [[s Hs] _].
    unfold get in *. rewrite Hs in *. cbn in *. symmetry. by apply py_eq_str_true.
  - destruct (level3_section_cases f cd (sec_config sec2) w1)
      as (_ & sec & Es & _ & Hpar & _).
    rewrite Es in E3. by injection E3 as ->.
Qed.

Lemma finished_elem (rows : list row) (c : row) :
  c ∈ rows →
  ∃ c', c' ∈ finished f rows ∧ get "PartNo" c' = get "PartNo" c
        ∧ get "Source" c' = get "Source" c.
Proof.
  intros [i Hi]%list_elem_of_lookup.
  eexists. split.
  - apply list_elem_of_lookup. exists i. apply finished_lookup. by exists c.
  - by rewrite !get_finished_keeps.
Qed.

End Parents.

(** X17. The rows of a download form a tree over manufactured parts.  The
    rows below the top row are those assembled for Level 1, Level 2 and
    Level 3, in that order.  Every assembled Level 2 row names as Parent the
    part number of a Level 1 row whose Source is "M" or "F", and every
    assembled Level 3 row that of such a Level 2 row.  As written, a Level 2
    or Level 3 row still names such a row of the level above, itself
    written, unless [clear_self_parent] left it the empty string. *)
Theorem written_parents_are_manufactured `{FloatModel} (fuel : nat) (f : Form)
    (w w' : world) (pg : page) (ws : sheet) :
  (1 ≤ fuel)%nat →
  main fuel f w = Done pg w' → download pg = Some ws →
  ∃ (top : list value) (child_data : list row) (sec2 sec3 : section) (w1 : world)
    (level2_rows level3_rows : list row),
    render_levels fuel f (after_reset w) = Done (child_data, sec2, sec3) w1
    ∧ assemble_lower fuel f child_data sec2 sec3 w1
      = Done (level2_rows, level3_rows) w'
    ∧ ws = (top :: (row_cells (template_headers f)
                    <$> (finished f child_data ++ finished f level2_rows
                         ++ finished f level3_rows)))%list
    ∧ (∀ r, r ∈ level2_rows → manufactured_in child_data (get "Parent" r))
    ∧ (∀ r, r ∈ level3_rows → manufactured_in level2_rows (get "Parent" r))
    ∧ (∀ r, r ∈ finished f level2_rows →
         r !! "Level" = Some (VInt 2)
         ∧ (get "Parent" r = VStr ""
            ∨ ∃ c, c ∈ finished f child_data ∧ c !! "Level" = Some (VInt 1)
                   ∧ get "PartNo" c = get "Parent" r
                   ∧ in_M_F (get "Source" c) = true))
    ∧ (∀ r, r ∈ finished f level3_rows →
         r !! "Level" = Some (VInt 3)
         ∧ (get "Parent" r = VStr ""
            ∨ ∃ c, c ∈ finished f level2_rows ∧ c !! "Level" = Some (VInt 2)
                   ∧ get "PartNo" c = get "Parent" r
                   ∧ in_M_F (get "Source" c) = true)).
Proof.
  intros Hfuel Hmain Hdl.
  destruct (main_download fuel f Hfuel w pg w' ws Hmain Hdl)
    as (pr & cd & sec2 & sec3 & w1 & l2 & l3 & _ & _ & _ & Er & Ea
        & Hk1 & Hk2 & Hk3 & _ & Hlow & Hws & _).
  destruct (rendered_parents fuel f Hfuel _ _ _ _ _ Er) as (Hcd & H2 & H3 & Hp2 & Hp3).
  destruct (assemble_lower_parents fuel f Hfuel cd sec2 sec3 w1 Hcd H2 H3 Hp2 Hp3)
    as (l2' & l3' & w2 & Ea' & Hl2 & Hl3).
  rewrite Ea in Ea'. injection Ea' as <- <- _.
  unfold lower_errors in Hlow. apply check_parts_nil in Hlow.
  apply Forall_app in Hlow as [Hreq2 Hreq3].
  exists (parent_values f (template_headers f) pr), cd, sec2, sec3, w1, l2, l3.
  split; [exact Er|]. split; [exact Ea|]. split; [exact Hws|].
  assert (Hrow : ∀ (rows : list row) (A : value → Prop) r',
    Forall (parent_in A) rows →
    Forall (fun r => required_present r ∧ category_rule r) (resequence f rows) →
    r' ∈ finished f rows →
    get "Parent" r' = VStr "" ∨ (A (get "Parent" r') ∧ get "Parent" r' ≠ VNone)).
  { intros rows A r' Hpar Hreq [i Hi]%list_elem_of_lookup.
    apply finished_lookup in Hi as (r & Hr & ->). rewrite finished_row_parent.
    destruct (self_parent r); [by left|right].
    destruct (proj1 (Forall_lookup _ _) Hpar i r Hr) as (p & Hp & HA).
    rewrite (get_lookup _ _ _ Hp). split; [done|].
    assert (Hri : resequence f rows !! i
                  = Some (<["Sequence" := VInt ((Z.of_nat i + 1) * sequence_increment f)]> r))
      by (unfold resequence; by rewrite list_lookup_imap, Hr).
    destruct (proj1 (Forall_lookup _ _) Hreq i _ Hri) as [Hreq' _].
    specialize (Hreq' "Parent" ltac:(unfold REQUIRED_FIELDS; set_solver)).
    rewrite get_insert_ne in Hreq' by done. rewrite (get_lookup _ _ _ Hp) in Hreq'.
    by apply in_none_empty_false in Hreq' as [? _]. }
  assert (Hasm : ∀ (rows : list row) (A : value → Prop) r,
    Forall (parent_in A) rows →
    Forall (fun r => required_present r ∧ category_rule r) (resequence f rows) →
    r ∈ rows → A (get "Parent" r) ∧ get "Parent" r ≠ VNone).
  { intros rows A r Hpar Hreq [i Hr]%list_elem_of_lookup.
    destruct (proj1 (Forall_lookup _ _) Hpar i r Hr) as (p & Hp & HA).
    rewrite (get_lookup _ _ _ Hp). split; [done|].
    assert (Hri : resequence f rows !! i
                  = Some (<["Sequence" := VInt ((Z.of_nat i + 1) * sequence_increment f)]> r))
      by (unfold resequence; by rewrite list_lookup_imap, Hr).
    destruct (proj1 (Forall_lookup _ _) Hreq i _ Hri) as [Hreq' _].
    specialize (Hreq' "Parent" ltac:(unfold REQUIRED_FIELDS; set_solver)).
    rewrite get_insert_ne in Hreq' by done. rewrite (get_lookup _ _ _ Hp) in Hreq'.
    by apply in_none_empty_false in Hreq' as [? _]. }
  assert (Hlevel : ∀ level (rows : list row) r', Forall (linked level) rows →
    r' ∈ finished f rows → r' !! "Level" = Some (VInt level)).
  { intros level rows r' Hrows [i Hi]%list_elem_of_lookup.
    apply finished_lookup in Hi as (r & Hr & ->).
    rewrite finished_row_keeps by done.
    by destruct (proj1 (Forall_lookup _ _) Hrows i r Hr) as [_ ?]. }
  split.
  { intros r Hr. by destruct (Hasm l2 _ r Hl2 Hreq2 Hr) as [[?|?] ?]. }
  split.
  { intros r Hr. by destruct (Hasm l3 _ r Hl3 Hreq3 Hr) as [? ?]. }
  split.
  - intros r' Hr'. split; [by apply (Hlevel 2 l2)|].
    destruct (Hrow l2 _ r' Hl2 Hreq2 Hr') as [?|[[?|(c & Hc & Hpart & Hsrc)] Hne]];
      [by left|done|right].
    destruct (finished_elem f cd c Hc) as (c' & Hc' & Hp' & Hs').
    exists c'. split; [done|]. split; [by apply (Hlevel 1 cd)|]. by rewrite Hp', Hs'.
  - intros r' Hr'. split; [by apply (Hlevel 3 l3)|].
    destruct (Hrow l3 _ r' Hl3 Hreq3 Hr') as [?|[(c & Hc & Hpart & Hsrc) Hne]];
      [by left|right].
    destruct (finished_elem f l2 c Hc) as (c' & Hc' & Hp' & Hs').
    exists c'. split; [done|]. split; [by apply (Hlevel 2 l2)|]. by rewrite Hp', Hs'.
Qed.

Lemma written_parents_example :
  ∃ (top : list value) (child_data : list row) (sec2 sec3 : section) (w1 : world)
    (level2_rows level3_rows : list row),
    @render_levels sample_floats 1 nested_form (after_reset sample_world)
    = Done (child_data, sec2, sec3) w1
    ∧ @assemble_lower sample_floats 1 nested_form child_data sec2 sec3 w1
      = Done (level2_rows, level3_rows) (world_of (sample_run nested_form))
    ∧ sheet_of (sample_run nested_form)
      = (top :: (row_cells (template_headers nested_form)
                 <$> (@finished sample_floats nested_form child_data
                      ++ @finished sample_floats nested_form level2_rows
                      ++ @finished sample_floats nested_form level3_rows)))%list
    ∧ (∀ r, r ∈ level2_rows → manufactured_in child_data (get "Parent" r))
    ∧ (∀ r, r ∈ level3_rows → manufactured_in level2_rows (get "Parent" r))
    ∧ (∀ r, r ∈ @finished sample_floats nested_form level2_rows →
         r !! "Level" = Some (VInt 2)
         ∧ (get "Parent" r = VStr ""
            ∨ ∃ c, c ∈ @finished sample_floats nested_form child_data
                   ∧ c !! "Level" = Some (VInt 1)
                   ∧ get "PartNo" c = get "Parent" r
                   ∧ in_M_F (get "Source" c) = true))
    ∧ (∀ r, r ∈ @finished sample_floats nested_form level3_rows →
         r !! "Level" = Some (VInt 3)
         ∧ (get "Parent" r = VStr ""
            ∨ ∃ c, c ∈ @finished sample_floats nested_form level2_rows
                   ∧ c !! "Level" = Some (VInt 2)
                   ∧ get "PartNo" c = get "Parent" r
                   ∧ in_M_F (get "Source" c) = true)).
Proof.
  destruct (sample_run_done nested_form nested_form_download) as [Hrun Hdl].
  exact (@written_parents_are_manufactured sample_floats 1 nested_form sample_world
           _ _ _ (le_n 1) Hrun Hdl).
Defined.
